(* ===== verification/_CoqProject ===== *)
-Q . S2P
Prelude.v
JsNumber.v
Json.v
JsonParse.v
JsonFuel.v
JsonRoundtrip.v
CartModel.v
WooCommerceCart.v
Rehydrate.v
UseCart.v
CartSpec.v
HeapCart.v
SameRender.v
Microtasks.v
WooCommerceClient.v
Routes.v
Header.v
App.v
