(* ===== verification/Prelude.v ===== *)
(** * A verified model of the AFPets storefront cart (afpets/upets-bolt)

    The repository is a React + TypeScript storefront.  Its only component
    with state of its own is the shopping cart:

    - [src/src/hooks/useCart.ts], the React hook [useCart], keeps the cart in
      React state and exposes four handlers: [addToCart] (merge-on-add,
      keyed by product id and by the JSON text of the chosen variation),
      [removeFromCart], [updateQuantity] (a quantity [<= 0] removes) and
      [clearCart].  Every handler builds a new item list and hands it to
      [WooCommerceAPI.updateCart].
    - [src/src/services/woocommerce.ts], the static class [WooCommerceAPI]:
      [updateCart] recomputes the aggregates (item_count, subtotal,
      shipping_total, tax_total, total) with [Array.prototype.reduce], writes
      [JSON.stringify(cart)] to [localStorage['afpets_cart']] and returns the
      cart; [getCartFromStorage] reads it back.  The other methods are REST
      calls through axios; reads of lists degrade to [[]] on failure, the
      single-product and order calls rethrow.
    - [src/src/components/Header.tsx] shows the cart badge from its own
      [useCart()] instance, the navigation links and the mobile menu;
      [src/src/App.tsx] holds the mobile-menu flag, renders [Header] above
      the [<Routes>] table, and each routed page that calls [useCart()]
      gets an instance of its own over the same [localStorage].

    ** Layout of the development

    - [Prelude] (this file): the [js_scope] notations, the [cart] hint
      database and the [js_rw] rewrite database, the tactics, the error and
      promise types ([js_error], [outcome]) and the generic lemmas on
      lists, strings and the JavaScript [findIndex]/[filter]/[reduce] that
      the components share.
    - [JsNumber]: JavaScript numbers as IEEE-754 binary64 values (Rocq's
      primitive [float]): the operators [+], [*], [<=], [===] of the source,
      the correctly rounded decimal-to-binary conversion, [parseFloat]
      (ECMAScript 19.2.3) and [Number::toString] (ECMAScript 6.1.6.1.20).
    - [Json]: JavaScript values as [JSON.stringify] sees them, with the
      property order of ordinary objects (array-index keys first) and
      [QuoteJSONString]; [JSON.stringify] itself and the text comparison
      [same_json] of useCart.ts:11.
    - [JsonParse]: [JSON.parse] (ECMAScript 25.5.1, no reviver) by
      recursive descent, and the lemmas that its scanners read back what
      [QuoteJSONString] and [Number::toString] write.
    - [JsonFuel]: the fuel of [JSON.parse]: the descent never reads
      backwards, more fuel never changes a result, and fuel beyond the
      length of the text changes nothing.
    - [JsonRoundtrip]: [normalize], the value [JSON.parse] gives back for
      the text of a value, and the theorem [JSON_parse_stringify].
    - [CartModel]: the records [Product], [CartItem] and [Cart] of the
      source's types, their JSON objects, the aggregate computation of
      [updateCart] and the cart invariant.
    - [WooCommerceCart]: [localStorage] (a [gmap] with a quota),
      [WooCommerceAPI.updateCart] and [WooCommerceAPI.getCartFromStorage],
      and the reload-after-save lemma on the parsed value.
    - [Rehydrate]: the typed reading of the parsed value as a [Cart] (the
      fields the hook reads, [undefined] when absent) and [load_state],
      the state a hook instance mounts with; the typed reload theorem.
    - [UseCart]: the hook's handlers as functions from the hook state and
      the store to a new state, with the persistence step and its failure;
      the theorems about merge-on-add, removal, quantity update, clearing,
      the invariant over every sequence of handler calls, and the
      behaviours the code shows on concrete sessions (key collisions,
      variation key order, decimal prices, NaN quantities).
    - [CartSpec]: the cart contract of the spec (section 4.1) as a step
      relation [abs_step] on an abstract store (a [gmap] from line key to
      identity, quantity and price), the abstraction [alpha] of the
      hook's item list, the simulation of every handler call, and the
      invariant "one line per product and variation".
    - [HeapCart]: the hook over the JavaScript heap: item objects behind
      references, arrays of references shared by [[...cart.items]],
      [filter] and [updateCart], the in-place merge written through the
      reference, the spreads of [updateQuantity] allocating new objects;
      the proof that the value model of [UseCart] is this model observed
      through the state.
    - [SameRender]: handler calls made from the closure of an earlier
      render, which read that render's [cart] but the current heap and
      storage ([call_from]); what later calls of the closure see of the
      earlier ones.
    - [Microtasks]: each handler split at its [await] into its synchronous
      part ([start]: the new item list and [updateCart]'s write) and its
      continuation ([resume]: [setCart]); [asteps], every schedule of a
      closure's calls with the continuations in a first-in first-out job
      queue, and [unawaited], the calls made in one synchronous block.
    - [WooCommerceClient]: the axios instance and the REST methods, over a
      server given as a [Section] variable; the failure policy of reads and
      writes.
    - [Routes]: the route table of App.tsx and React Router's matching of
      a pathname against it (its compiled regular expression written out:
      one segment per pattern segment, literals case-insensitive,
      parameters non-empty, trailing slashes allowed).
    - [Header]: what [Header] renders (links with their targets and
      [onClick], the badge, the menu icon) and what its clicks do.
    - [App]: the mounted application as a state [Shell] (menu flag,
      location, the Header's hook state, the routed page's hook state, the
      storage) and its events (menu button, header links, navigation,
      handler calls of the page), over a [Section] parameter saying which
      pages call [useCart()]; mounting and remounting read the storage
      through [Rehydrate.load_state].

    ** Theorems, by group

    - Cart invariant and handlers (UseCart C1-C5, C7-C9): every call
      keeps the line totals, and every call but a merge whose write fails
      keeps the aggregates; merge-on-add, removal, update to a
      non-positive quantity, clearing; a resolved call leaves the store
      holding the new cart, a rejected one leaves the store and the
      aggregates as they were and changes the lines only by the in-place
      merge of [addToCart]; the storage never leaves its quota.
    - Behaviours the spec does not want (UseCart C6, C10, C20, C37): two
      variations added in one millisecond share a key; a NaN quantity is
      stored and poisons the aggregates; a merge whose write fails leaves
      the bumped line in the state and not in the store; a non-positive
      quantity is appended.  Each is stated for every cart, with the
      outcome spelt out, so a version of the code that refused the input
      would not satisfy it.
    - REST client (WooCommerceClient C11-C14): reads never reject, writes
      propagate failures, [getProduct] rethrows, [getProductBySlug]'s
      result.
    - Termination (JsonFuel C33): [JSON_parse] accepts every text the
      descent accepts with any fuel, with the same value.
    - Persistence (JsonRoundtrip C15, Rehydrate C16, WooCommerceCart
      C17): [JSON.parse] after [JSON.stringify] gives [normalize]; a hook
      mounted after a save starts with the saved cart itself when its
      values survive JSON; the reload throws exactly on an entry that is
      not JSON.
    - Contract (CartSpec C18, C19): along a session whose new lines get
      new keys, the hook refines the abstract cart store along the calls
      labelled with their outcomes (a resolved call is its contract step,
      a rejected one stutters or keeps its in-place merge); merge-on-add
      keeps one
      line per product and variation.
    - Heap (HeapCart C21): the value model is the heap model observed
      through the state's references, for every session.
    - One closure, several calls (SameRender C35, C38; Microtasks C36):
      after any calls of one closure its array shows its render's lines
      with exactly the in-place merges made so far, and a further call
      works on those lines, so lines earlier calls appended are lost and
      merges are counted twice over the shared object (C35); two new
      products added from one closure leave only the second (C38); awaited or not, however the continuations interleave
      with later calls, the calls settle to that sequential result
      (C36).
    - Routes (Routes C22-C24): no path matches two routes, so the first
      match is React Router's choice; product paths resolve with their
      slug; every path whose first segment is not in the table, and a
      product path without a slug, render nothing.
    - Header (Header C25, C26): every rendered link resolves; only the
      mobile links close the menu.
    - Application (App C27-C32, C34): the Header's instance never changes
      after mount (so its badge goes stale when a page adds, C28); leaving
      a page and coming back resynchronises its instance with the storage
      (C29); after a resolved call the page's instance is what a remount
      reads back (C30); a corrupt entry, and nothing else, keeps the whole
      application from mounting (C31); a NaN quantity reloads as a value that is not a
      [Cart] (C32); along every session without a failed merge, the
      page's instance stays what a remount would read (C34).

    ** Fuel and bounds

    [JSON_parse t] runs [parse_value] with fuel [S (length t)]: each level
    of nesting and each array element or object member reads at least one
    character, so the fuel never runs out on a text it can read:
    [JsonFuel] proves it for every text (C33), and the round-trip theorem
    uses the same bound [length (text) < fuel] in its induction.  The
    route table is finite: [Routes.routes_pairwise] checks its 64 pairs
    by evaluation.  [Microtasks.drain] runs the job queue with fuel
    [length (queue s)], one continuation per unit, which
    [unawaited_settled] shows empties it.
    [Number::toString] tries the precisions [1..17] in turn, of which
    [17] always round-trips for binary64.  The [localStorage] quota is an
    [N]; the default of 5 MiB is the one of the witnesses, and no session
    of handler calls takes the storage past it (C9).

    ** What is not modelled

    The ECMAScript runtime is written out where the code depends on it
    ([JsNumber], [Json], [JsonParse]) but is not code of the repository:
    [Array.prototype.findIndex] and [reduce] ([Prelude]) and the number
    operations ([JsNumber]) serve the component models without standing
    for lines of [src/].

    The pages and the footer are imported by [App.tsx] but are not in the
    repository; which pages call [useCart()] is a parameter of [App], and
    page-internal components (with more hook instances that could write
    over each other) are not modelled.  Markup, classes and icons of
    [Header] are not modelled, nor [QueryClientProvider], which no
    modelled code uses.  Route parameters are not URI-decoded.  The HTTP
    transport is a parameter ([http]).  Strings outside Latin-1,
    and [\uXXXX] escapes above [ÿ], are outside the model.  The round trip
    of [Number::toString] through the JSON number scanner is checked per
    value ([number_text_ok], decided by evaluation) rather than proved for
    every float: the proof needs the correctness of the rounding of
    [SpecFloat] ([binary_round_aux], [SFdiv_core_binary]), for which the
    Standard Library has no theorem, so the 17-digit case of
    [Number::toString] would have to be proved from the bit level.

    ** Plan of the development (components in order of importance)

    1. Cart store ([useCart] + [updateCart]): done (C1-C10).
    2. Numbers: [parseFloat] and [Number::toString]; the round trip
       [parseFloat (toString x) = x] for every finite [x] remains.
    3. JSON: [JSON.stringify], [JSON.parse] and their round trip: done
       (C15-C17).
    4. Abstract cart: the contract as a step relation on a [gmap] and
       the refinement of the list-based store into it: done (C18, C19).
    5. Several [useCart] instances over one [localStorage] (the header's
       badge and a page): done (App, C27-C32, C34).  Lost updates: done
       for calls of one closure, awaited or not (SameRender,
       Microtasks, C35, C36, C38); between two
       writing instances they would need a page with two of them, which
       the repository does not have.
    6. Object aliasing in [addToCart] (the item object is mutated in place
       before the store write): modelled in [UseCart.addToCart] (C1, C8,
       C20) and justified by the heap model of [HeapCart] (C21).
    7. The header/menu state and the routes: done (Routes, Header,
       C22-C26).
    8. Typed rehydration of the stored cart: done (Rehydrate, C16).
    9. Termination of [JSON.parse]: the fuel [S (length t)] is enough for
       every text: done (JsonFuel, C33).
*)

From stdpp Require Export base list gmap strings.
From Stdlib Require Export ZArith Floats Ascii.

Declare Scope js_scope.
Delimit Scope js_scope with js.

Create HintDb cart discriminated.
Create Rewrite HintDb js_rw.

(** ** JavaScript array helpers *)

(** [Array.prototype.findIndex]: the index of the first element satisfying
    the predicate, or [-1]. *)
Fixpoint findIndex {A} (p : A -> bool) (l : list A) : Z :=
  match l with
  | [] => (-1)%Z
  | x :: l' => if p x then 0%Z else
                 let i := findIndex p l' in
                 if (i <? 0)%Z then (-1)%Z else (i + 1)%Z
  end.

(** [Array.prototype.reduce] with an initial value: a fold from the left. *)
Definition reduce {A B} (f : B -> A -> B) (l : list A) (init : B) : B :=
  fold_left f l init.

(** ** Promises *)

(** The errors the modelled code can meet: [localStorage.setItem] throws a
    [QuotaExceededError] [DOMException] when the origin's storage is full;
    an axios request rejects with a network error or with the HTTP status of
    a response outside 2xx; reading a property of [null] or [undefined]
    throws a [TypeError]; [JSON.parse] of a text that is not JSON throws a
    [SyntaxError]. *)
Inductive js_error :=
| QuotaExceededError
| NetworkError
| HttpError (status : Z)
| TypeError
| SyntaxError.

(** The settled state of a promise an [async] function returns. *)
Inductive outcome (A : Type) :=
| Resolved (a : A)
| Rejected (e : js_error).
Arguments Resolved {A} a.
Arguments Rejected {A} e.

Definition rejected {A} (r : outcome A) : bool :=
  match r with Rejected _ => true | Resolved _ => false end.

Section FindIndex.
Context {A : Type} (p : A -> bool).

Lemma findIndex_range (l : list A) :
  findIndex p l = (-1)%Z \/ (0 <= findIndex p l < Z.of_nat (length l))%Z.
Proof.
  induction l as [|x l IH]; simpl; [by left|].
  destruct (p x); [right; lia|].
  destruct (Z.ltb_spec (findIndex p l) 0); [by left|right; lia].
Qed.

Lemma findIndex_none (l : list A) :
  findIndex p l = (-1)%Z <-> Forall (fun x => p x = false) l.
Proof.
  induction l as [|x l IH]; simpl; [split; auto|].
  rewrite Forall_cons. destruct (p x) eqn:Hp.
  - split; [lia|intros [? _]; congruence].
  - destruct (Z.ltb_spec (findIndex p l) 0).
    + destruct (findIndex_range l); [|lia]. tauto.
    + split; [lia|]. intros [_ H']. apply IH in H'. lia.
Qed.

(** A non-negative result is the index of the first match. *)
Lemma findIndex_some (l : list A) (i : nat) :
  findIndex p l = Z.of_nat i ->
  exists x, l !! i = Some x /\ p x = true /\
    forall j y, (j < i)%nat -> l !! j = Some y -> p y = false.
Proof.
  revert i. induction l as [|x l IH]; intros i H; simpl in H; [lia|].
  destruct (p x) eqn:Hp.
  - assert (i = 0%nat) as -> by lia. exists x. split_and!; auto. lia.
  - destruct (Z.ltb_spec (findIndex p l) 0); [lia|].
    destruct i as [|i]; [lia|].
    destruct (IH i) as (y & Hy & Hpy & Hfirst); [lia|].
    exists y. split_and!; auto.
    intros [|j] z Hj Hz; simpl in Hz; [congruence|].
    apply (Hfirst j); [lia|done].
Qed.

Lemma findIndex_first (l : list A) (i : nat) (x : A) :
  l !! i = Some x -> p x = true ->
  (forall j y, (j < i)%nat -> l !! j = Some y -> p y = false) ->
  findIndex p l = Z.of_nat i.
Proof.
  revert i. induction l as [|y l IH]; intros i Hx Hpx Hfirst; [done|].
  destruct i as [|i]; simpl in *.
  - simplify_eq. by rewrite Hpx.
  - rewrite (Hfirst 0%nat y) by (done || lia).
    rewrite (IH i) by (done || (intros j z ? ?; apply (Hfirst (S j)); [lia|done])).
    destruct (Z.ltb_spec (Z.of_nat i) 0); lia.
Qed.

(** When no element of [l] matches, the search goes on in [l']. *)
Lemma findIndex_app_none (l l' : list A) :
  Forall (fun x => p x = false) l ->
  findIndex p (l ++ l') =
    if (findIndex p l' <? 0)%Z then (-1)%Z else (Z.of_nat (length l) + findIndex p l')%Z.
Proof.
  induction 1 as [|x l Hx _ IH]; simpl;
    [|rewrite Hx, IH]; (destruct (findIndex_range l') as [->|Hr]; [done|]);
    rewrite (proj2 (Z.ltb_ge (findIndex p l') 0)) by lia; [lia|].
  rewrite (proj2 (Z.ltb_ge (Z.of_nat (length l) + findIndex p l') 0)) by lia. lia.
Qed.
End FindIndex.

(** ** [Array.prototype.filter] *)

Section Filter.
Context {A : Type} (f : A -> bool).

Lemma Forall_filter_bool (P : A -> Prop) (l : list A) :
  Forall P l -> Forall P (List.filter f l).
Proof. induction 1; simpl; [done|]. case_match; auto. Qed.

(** Filtering keeps the projections distinct. *)
Lemma NoDup_map_filter {B} (g : A -> B) (l : list A) :
  NoDup (map g l) -> NoDup (map g (List.filter f l)).
Proof.
  induction l as [|x l IH]; simpl; [done|]. intros [Hx Hl]%NoDup_cons.
  destruct (f x); simpl; [|auto]. constructor; [|auto].
  rewrite list_elem_of_In in Hx |- *. intros (y & Ey & Hin)%in_map_iff.
  apply filter_In in Hin as [Hin _]. apply Hx, in_map_iff. by exists y.
Qed.

(** A filter that keeps every element is the identity. *)
Lemma filter_keep_all (l : list A) :
  Forall (fun x => f x = true) l -> List.filter f l = l.
Proof. induction 1 as [|x l Hx _ IH]; simpl; [done|]. by rewrite Hx, IH. Qed.
End Filter.

(** ** Strings *)

Lemma string_app_assoc (s1 s2 s3 : string) : (s1 +:+ s2) +:+ s3 = s1 +:+ (s2 +:+ s3).
Proof. induction s1 as [|c s1 IH]; [reflexivity|]. exact (f_equal (String c) IH). Qed.

Lemma string_app_nil_r (s : string) : s +:+ EmptyString = s.
Proof. induction s as [|c s IH]; [reflexivity|]. exact (f_equal (String c) IH). Qed.

#[export] Hint Rewrite string_app_assoc string_app_nil_r : js_rw.

Lemma string_app_cons (c : ascii) (s t : string) : String c s +:+ t = String c (s +:+ t).
Proof. reflexivity. Qed.

Lemma string_app_nil_l (s : string) : EmptyString +:+ s = s.
Proof. reflexivity. Qed.

#[export] Hint Rewrite string_app_cons string_app_nil_l : js_rw.

(** A string no element of [l] equals is not in [l]. *)
Lemma existsb_eqb_false (k : string) (l : list string) : existsb (String.eqb k) l = false -> k ∉ l.
Proof.
  intros H Hin. apply not_true_iff_false in H. apply H, existsb_exists.
  exists k. split; [by apply list_elem_of_In | apply String.eqb_refl].
Qed.

Lemma string_length_app (s t : string) :
  String.length (s +:+ t) = (String.length s + String.length t)%nat.
Proof. induction s as [|c s IH]; [reflexivity|]. exact (f_equal S IH). Qed.

#[export] Hint Rewrite string_length_app : js_rw.

(** Lengths of concatenations, in every hypothesis and the goal, as sums
    of the pieces' lengths (for [lia]). *)
Ltac string_lengths :=
  repeat progress (rewrite ?string_length_app in *; cbn [String.length] in *).
