(* ===== verification/JsNumber.v ===== *)
(** * JavaScript numbers

    Every number of the source is a JavaScript number, an IEEE-754 binary64
    value; it is Rocq's primitive [float] here.  This file holds the
    operators the source applies to numbers, the correctly rounded
    conversion of a decimal [m * 10^p] to binary64 that both [parseFloat]
    and [Number::toString] rest on, [parseFloat] (ECMAScript 2024, 19.2.3,
    called at useCart.ts:26-27) and [Number::toString] (ECMAScript 2024,
    6.1.6.1.20, reached through the template literal of useCart.ts:22 and
    through [JSON.stringify]). *)

From S2P Require Import Prelude.
From Stdlib Require Import Ascii DecimalString.

Local Open Scope Z_scope.

(** ** The operators of the source *)

Abbreviation number := float.

(** [x + y], [x * y] on numbers (useCart.ts:17-19,27,54; woocommerce.ts:110-116). *)
Definition js_add (x y : float) : float := PrimFloat.add x y.
Definition js_mul (x y : float) : float := PrimFloat.mul x y.
(** [x <= y] (useCart.ts:45): false when either side is NaN. *)
Definition js_le (x y : float) : bool := PrimFloat.leb x y.
(** [x === y] on numbers (useCart.ts:10): IEEE equality, so [NaN !== NaN]
    and [0 === -0]. *)
Definition js_eq (x y : float) : bool := PrimFloat.eqb x y.

Notation "x + y" := (js_add x y) : js_scope.
Notation "x * y" := (js_mul x y) : js_scope.
Notation "x <= y" := (js_le x y) : js_scope.
Notation "x === y" := (js_eq x y) (at level 70, no associativity) : js_scope.

(** The literal [0] of the source. *)
Definition js_zero : float := PrimFloat.zero.

(** ** Decimal to binary64 *)

(** The binary64 value nearest to [(-1)^neg * m * 10^p] (ties to even),
    for [m >= 0]: the IEEE rounding that [parseFloat] and the numeric
    literal grammar prescribe.  Positive powers go through
    [binary_normalize] on the exact integer; negative powers through the
    exact quotient of [SFdiv_core_binary] and its sticky location. *)
Definition round_decimal (neg : bool) (m p : Z) : float :=
  match m with
  | Zpos mp =>
      if 0 <=? p then
        SF2Prim (binary_normalize prec emax
                   (if neg then Zneg mp * 10 ^ p else Zpos mp * 10 ^ p) 0 neg)
      else
        let '(mz, ez, lz) := SFdiv_core_binary prec emax (Zpos mp) 0 (10 ^ (- p)) 0 in
        SF2Prim (binary_round_aux prec emax neg mz ez lz)
  | _ => if neg then PrimFloat.neg_zero else PrimFloat.zero
  end.

(** ** [parseFloat] *)

(** [WhiteSpace] and [LineTerminator] code units below 256: TAB, LF, VT,
    FF, CR, SP and NBSP. *)
Definition is_js_space (c : ascii) : bool :=
  let n := nat_of_ascii c in
  Nat.eqb n 9 || Nat.eqb n 10 || Nat.eqb n 11 || Nat.eqb n 12 ||
  Nat.eqb n 13 || Nat.eqb n 32 || Nat.eqb n 160.

(** [TrimString(s, start)]. *)
Fixpoint trim_start (s : string) : string :=
  match s with
  | String c s' => if is_js_space c then trim_start s' else s
  | EmptyString => EmptyString
  end.

Definition digit_value (c : ascii) : option Z :=
  let n := Z.of_nat (nat_of_ascii c) in
  if (48 <=? n) && (n <=? 57) then Some (n - 48) else None.

(** The longest prefix of decimal digits, and the rest. *)
Fixpoint scan_digits (s : string) : list Z * string :=
  match s with
  | String c s' =>
      match digit_value c with
      | Some d => let '(ds, r) := scan_digits s' in (d :: ds, r)
      | None => ([], s)
      end
  | EmptyString => ([], EmptyString)
  end.

Definition digits_value (ds : list Z) : Z := fold_left (fun acc d => acc * 10 + d) ds 0.

(** The value of an [ExponentPart] that is a prefix of [s] ([e] or [E],
    an optional sign, at least one digit), or [0] when there is none: a
    dangling [e] is not part of the longest [StrDecimalLiteral] prefix. *)
Definition scan_exponent (s : string) : Z :=
  match s with
  | String c s' =>
      if Ascii.eqb c "e"%char || Ascii.eqb c "E"%char then
        let '(sgn, t) :=
          match s' with
          | String c' t' =>
              if Ascii.eqb c' "+"%char then (1, t')
              else if Ascii.eqb c' "-"%char then (-1, t') else (1, s')
          | EmptyString => (1, s')
          end in
        match scan_digits t with
        | ([], _) => 0
        | (ds, _) => sgn * digits_value ds
        end
      else 0
  | EmptyString => 0
  end.

(** [parseFloat(string)]: the longest prefix of the trimmed string that is a
    [StrDecimalLiteral] (an optional sign, then [Infinity], or digits with
    an optional fraction and exponent), rounded to binary64; NaN when no
    prefix is one. *)
Definition parseFloat (s : string) : float :=
  let t := trim_start s in
  let '(neg, u) :=
    match t with
    | String c u' =>
        if Ascii.eqb c "-"%char then (true, u')
        else if Ascii.eqb c "+"%char then (false, u') else (false, t)
    | EmptyString => (false, t)
    end in
  if String.prefix "Infinity" u then
    (if neg then PrimFloat.neg_infinity else PrimFloat.infinity)
  else
    let '(d1, r1) := scan_digits u in
    let '(d2, r2) :=
      match r1 with
      | String c r => if Ascii.eqb c "."%char then scan_digits r else ([], r1)
      | EmptyString => ([], r1)
      end in
    match d1, d2 with
    | [], [] => PrimFloat.nan
    | _, _ => round_decimal neg (digits_value (d1 ++ d2))
                (scan_exponent r2 - Z.of_nat (length d2))
    end.

(** ** [Number::toString(x)] in radix 10 *)

(** Number of decimal digits of [n > 0]; [Pos.size] bounds it. *)
Fixpoint ndigits_fuel (fuel : nat) (n : Z) : Z :=
  match fuel with
  | O => 0
  | S f => if n <? 10 then 1 else 1 + ndigits_fuel f (n / 10)
  end.
Definition ndigits (n : Z) : Z := ndigits_fuel (Pos.to_nat (Pos.size (Z.to_pos n))) n.

(** The exact value [m * 2^e] of a finite positive float as a fraction
    [num / den] of positive integers. *)
Definition exact_fraction (m : positive) (e : Z) : Z * Z :=
  if 0 <=? e then (Zpos m * 2 ^ e, 1) else (Zpos m, 2 ^ (- e)).

(** [floor (log10 (num / den))]. *)
Definition decimal_exponent (num den : Z) : Z :=
  let d0 := ndigits num - ndigits den in
  let ge := if 0 <=? d0 then den * 10 ^ d0 <=? num else den <=? num * 10 ^ (- d0) in
  if ge then d0 else d0 - 1.

(** [num / den] rounded to the nearest integer, ties to even. *)
Definition round_half_even (num den : Z) : Z :=
  let q := num / den in
  let r := num mod den in
  if (den <? 2 * r) || ((2 * r =? den) && Z.odd q) then q + 1 else q.

(** The [k]-digit candidate of step 5 of [Number::toString]: the integer
    [s] with [10^(k-1) <= s < 10^k] whose [s * 10^(n-k)] is nearest to
    [num / den], with its [n].  [n0] is [floor (log10 (num / den)) + 1]. *)
Definition candidate (num den n0 k : Z) : Z * Z :=
  let q := n0 - k in
  let s := if 0 <=? q then round_half_even num (den * 10 ^ q)
           else round_half_even (num * 10 ^ (- q)) den in
  if s =? 10 ^ k then (10 ^ (k - 1), n0 + 1) else (s, n0).

(** The first [k] in [ks] whose candidate converts back to [x]; the last
    [k] when none does (for binary64, [k = 17] always converts back). *)
Fixpoint shortest (x : float) (num den n0 : Z) (ks : list Z) : Z * Z * Z :=
  match ks with
  | [] => (0, 0, 0)
  | [k] => let '(s, n) := candidate num den n0 k in (s, k, n)
  | k :: ks' =>
      let '(s, n) := candidate num den n0 k in
      if PrimFloat.Leibniz.eqb (round_decimal false s (n - k)) x then (s, k, n)
      else shortest x num den n0 ks'
  end.

Definition digit_string (s : Z) : string :=
  NilEmpty.string_of_uint (Pos.to_uint (Z.to_pos s)).

Fixpoint zeros (n : nat) : string :=
  match n with O => EmptyString | S n' => String "0"%char (zeros n') end.

(** Steps 6 to 10: the layout of the digits [s] ([k] of them) for the
    decimal point position [n]. *)
Definition layout (s k n : Z) : string :=
  let ds := digit_string s in
  if (k <=? n) && (n <=? 21) then ds +:+ zeros (Z.to_nat (n - k))
  else if (0 <? n) && (n <=? 21) then
    String.substring 0 (Z.to_nat n) ds +:+ "." +:+ String.substring (Z.to_nat n) (Z.to_nat (k - n)) ds
  else if (-6 <? n) && (n <=? 0) then "0." +:+ zeros (Z.to_nat (- n)) +:+ ds
  else
    let e := n - 1 in
    let exp := "e" +:+ (if 0 <=? e then "+" else "-") +:+ digit_string (Z.abs e) in
    if k =? 1 then ds +:+ exp
    else String.substring 0 1 ds +:+ "." +:+ String.substring 1 (Z.to_nat (k - 1)) ds +:+ exp.

Definition ks17 : list Z := [1;2;3;4;5;6;7;8;9;10;11;12;13;14;15;16;17].

(** [Number::toString(x)] for a finite positive [x = m * 2^e]. *)
Definition positive_to_string (x : float) (m : positive) (e : Z) : string :=
  let '(num, den) := exact_fraction m e in
  let '(s, k, n) := shortest x num den (decimal_exponent num den + 1) ks17 in
  layout s k n.

(** [Number::toString(x)]: ["NaN"], ["0"] for both zeros, ["-"] and the
    text of [-x] for a negative [x], ["Infinity"], or the shortest decimal
    that converts back to [x]. *)
Definition number_to_string (x : float) : string :=
  match Prim2SF x with
  | S754_nan => "NaN"
  | S754_zero _ => "0"
  | S754_infinity false => "Infinity"
  | S754_infinity true => "-Infinity"
  | S754_finite false m e => positive_to_string x m e
  | S754_finite true m e => "-" +:+ positive_to_string (PrimFloat.opp x) m e
  end.

(** ** Algebra of the operators *)

Lemma Prim2SF_inj (x y : float) : Prim2SF x = Prim2SF y -> x = y.
Proof. intros H. by rewrite <- (SF2Prim_Prim2SF x), <- (SF2Prim_Prim2SF y), H. Qed.

(** [x * y === y * x] and even [Object.is(x * y, y * x)]: IEEE
    multiplication is commutative, NaN and signed zeros included. *)
Lemma js_mul_comm (x y : float) : js_mul x y = js_mul y x.
Proof.
  apply Prim2SF_inj. unfold js_mul. rewrite !mul_spec.
  unfold SF64mul, SFmul.
  destruct (Prim2SF x) as [sx|sx| |sx mx ex], (Prim2SF y) as [sy|sy| |sy my ey];
    rewrite ?(xorb_comm sx sy); try reflexivity.
  by rewrite Pos.mul_comm, Z.add_comm.
Qed.

Lemma js_add_comm (x y : float) : js_add x y = js_add y x.
Proof.
  apply Prim2SF_inj. unfold js_add. rewrite !add_spec.
  unfold SF64add, SFadd.
  destruct (Prim2SF x) as [[]|[]| |sx mx ex], (Prim2SF y) as [[]|[]| |sy my ey];
    try reflexivity.
  by rewrite Z.min_comm, Z.add_comm.
Qed.

#[export] Hint Resolve js_mul_comm js_add_comm : cart.

(** NaN is the only value [Prim2SF] maps to [S754_nan], and it absorbs
    [+] and [*]. *)
Lemma Prim2SF_nan_eq (x : float) : Prim2SF x = S754_nan -> x = PrimFloat.nan.
Proof. intros H. apply Prim2SF_inj. rewrite H. reflexivity. Qed.

Lemma js_add_nan_l (x : float) : js_add PrimFloat.nan x = PrimFloat.nan.
Proof. apply Prim2SF_nan_eq. unfold js_add. rewrite add_spec. reflexivity. Qed.

Lemma js_add_nan_r (x : float) : js_add x PrimFloat.nan = PrimFloat.nan.
Proof. by rewrite js_add_comm, js_add_nan_l. Qed.

Lemma js_mul_nan_r (x : float) : js_mul x PrimFloat.nan = PrimFloat.nan.
Proof.
  apply Prim2SF_nan_eq. unfold js_mul. rewrite mul_spec.
  change (Prim2SF PrimFloat.nan) with S754_nan. unfold SF64mul, SFmul.
  by destruct (Prim2SF x).
Qed.

#[export] Hint Rewrite js_add_nan_l js_add_nan_r js_mul_nan_r : js_rw.
