(* ===== verification/Json.v ===== *)
(** * JavaScript values and [JSON.stringify]

    The source compares variations by their JSON text
    (useCart.ts:11, [JSON.stringify(item.variation) ===
    JSON.stringify(variation)]) and persists the cart as JSON text
    (woocommerce.ts:118).  [jsval] is the part of the JavaScript value space
    these calls see: [undefined], [null], booleans, numbers, strings,
    arrays and plain objects, an object being its list of own enumerable
    properties in creation order.  [stringify] is [JSON.stringify] with no
    replacer and no indentation (ECMAScript 2024, 25.5.2), with the
    property order of ordinary objects ([OrdinaryOwnPropertyKeys]: array
    index keys ascending first, then the other keys in creation order). *)

From S2P Require Import Prelude JsNumber.
From Stdlib Require Import Ascii.

Local Open Scope Z_scope.

#[local] Set Warnings "-register-all".
Inductive jsval :=
| JUndefined
| JNull
| JBool (b : bool)
| JNumber (n : float)
| JString (s : string)
| JArray (vs : list jsval)
| JObject (props : list (string * jsval)).

(** ** Property order *)

(** [k] is an array index: a canonical decimal integer below [2^32 - 1]. *)
Definition array_index (k : string) : option Z :=
  match scan_digits k with
  | (ds, EmptyString) =>
      match ds with
      | [] => None
      | 0 :: _ :: _ => None
      | _ => let v := digits_value ds in
             if v <=? 4294967294 then Some v else None
      end
  | _ => None
  end.

Fixpoint insert_index {A} (i : Z) (x : A) (l : list (Z * A)) : list (Z * A) :=
  match l with
  | [] => [(i, x)]
  | (j, y) :: l' => if i <? j then (i, x) :: l else (j, y) :: insert_index i x l'
  end.

(** [OrdinaryOwnPropertyKeys] applied to the property list: the array
    index properties in ascending order, then the others in creation
    order. *)
Definition own_property_order {A} (props : list (string * A)) : list (string * A) :=
  let indexed := fold_left (fun acc kv =>
                   match array_index kv.1 with
                   | Some i => insert_index i kv acc
                   | None => acc
                   end) props [] in
  map snd indexed ++ filter (fun kv => array_index kv.1 = None) props.

(** ** [QuoteJSONString] *)

Definition dquote : ascii := ascii_of_nat 34.
Definition backslash : ascii := ascii_of_nat 92.

Definition hex_digit (n : nat) : ascii :=
  if Nat.ltb n 10 then ascii_of_nat (48 + n) else ascii_of_nat (87 + n).

(** The escape of one code unit: the short escapes of Table 73, [\u00xx]
    with lowercase hex digits for the other code units below [0x20], the
    code unit itself otherwise. *)
Definition quote_char (c : ascii) : string :=
  let n := nat_of_ascii c in
  if Nat.eqb n 8 then "\b"
  else if Nat.eqb n 9 then "\t"
  else if Nat.eqb n 10 then "\n"
  else if Nat.eqb n 12 then "\f"
  else if Nat.eqb n 13 then "\r"
  else if Nat.eqb n 34 then String backslash (String dquote EmptyString)
  else if Nat.eqb n 92 then "\\"
  else if Nat.ltb n 32 then
    "\u00" +:+ String (hex_digit (Nat.div n 16)) (String (hex_digit (Nat.modulo n 16)) EmptyString)
  else String c EmptyString.

Fixpoint quote_chars (s : string) : string :=
  match s with
  | EmptyString => EmptyString
  | String c s' => quote_char c +:+ quote_chars s'
  end.

Definition QuoteJSONString (s : string) : string :=
  String dquote (quote_chars s +:+ String dquote EmptyString).

(** ** [JSON.stringify] *)

Fixpoint join (sep : string) (l : list string) : string :=
  match l with
  | [] => EmptyString
  | [s] => s
  | s :: l' => s +:+ sep +:+ join sep l'
  end.

(** The members of [SerializeJSONObject], in the order they are listed:
    [QuoteJSONString(key) ":" text], the properties whose value serializes
    to [undefined] left out.  The order of [OrdinaryOwnPropertyKeys]
    depends on the keys only, so the values are serialized first. *)
Fixpoint members (ps : list (string * option string)) : list string :=
  match ps with
  | [] => []
  | (k, Some t) :: ps' => (QuoteJSONString k +:+ ":" +:+ t) :: members ps'
  | (k, None) :: ps' => members ps'
  end.

(** [SerializeJSONProperty] for a value: [None] is [undefined] (the value
    is [undefined]); non-finite numbers print as [null]. *)
Fixpoint stringify (v : jsval) : option string :=
  match v with
  | JUndefined => None
  | JNull => Some "null"
  | JBool true => Some "true"
  | JBool false => Some "false"
  | JNumber n => Some (if PrimFloat.is_finite n then number_to_string n else "null")
  | JString s => Some (QuoteJSONString s)
  | JArray vs =>
      let fix elems (vs : list jsval) : list string :=
        match vs with
        | [] => []
        | w :: vs' => default "null" (stringify w) :: elems vs'
        end in
      Some ("[" +:+ join "," (elems vs) +:+ "]")
  | JObject props =>
      let fix values (ps : list (string * jsval)) : list (string * option string) :=
        match ps with
        | [] => []
        | (k, w) :: ps' => (k, stringify w) :: values ps'
        end in
      Some ("{" +:+ join "," (members (own_property_order (values props))) +:+ "}")
  end.

(** [JSON.stringify(a) === JSON.stringify(b)]: [undefined === undefined]
    holds, a string is never [=== undefined]. *)
Definition same_json (a b : jsval) : bool :=
  match stringify a, stringify b with
  | None, None => true
  | Some s, Some t => String.eqb s t
  | _, _ => false
  end.

(** [===] on values of the model, with [Object.is] on numbers: the
    structural equality of the model's values, decided. *)
Fixpoint jsval_eqb (a b : jsval) : bool :=
  match a, b with
  | JUndefined, JUndefined | JNull, JNull => true
  | JBool x, JBool y => Bool.eqb x y
  | JNumber x, JNumber y => PrimFloat.Leibniz.eqb x y
  | JString x, JString y => String.eqb x y
  | JArray xs, JArray ys =>
      let fix go (xs ys : list jsval) : bool :=
        match xs, ys with
        | [], [] => true
        | x :: xs', y :: ys' => jsval_eqb x y && go xs' ys'
        | _, _ => false
        end in
      go xs ys
  | JObject ps, JObject qs =>
      let fix go (ps qs : list (string * jsval)) : bool :=
        match ps, qs with
        | [], [] => true
        | (k, x) :: ps', (k', y) :: qs' => String.eqb k k' && jsval_eqb x y && go ps' qs'
        | _, _ => false
        end in
      go ps qs
  | _, _ => false
  end.

(** * Lemmas *)

(** Induction over values, with the hypothesis on every element and
    member value. *)

Definition jsval_ind' (P : jsval -> Prop)
    (Hu : P JUndefined) (Hn : P JNull) (Hb : forall b, P (JBool b))
    (Hnum : forall n, P (JNumber n)) (Hs : forall s, P (JString s))
    (Ha : forall vs, Forall P vs -> P (JArray vs))
    (Ho : forall ps, Forall (fun kv => P kv.2) ps -> P (JObject ps)) : forall v, P v :=
  fix go (v : jsval) : P v :=
    match v with
    | JUndefined => Hu
    | JNull => Hn
    | JBool b => Hb b
    | JNumber n => Hnum n
    | JString s => Hs s
    | JArray vs =>
        Ha vs ((fix all (vs : list jsval) : Forall P vs :=
                  match vs with
                  | [] => List.Forall_nil _
                  | x :: xs => List.Forall_cons _ x xs (go x) (all xs)
                  end) vs)
    | JObject ps =>
        Ho ps ((fix all (ps : list (string * jsval)) : Forall (fun kv => P kv.2) ps :=
                  match ps with
                  | [] => List.Forall_nil _
                  | x :: xs => List.Forall_cons _ x xs (go x.2) (all xs)
                  end) ps)
    end.

Lemma jsval_eqb_spec (a b : jsval) : jsval_eqb a b = true <-> a = b.
Proof.
  revert b. induction a as [| |x|x|x|xs IH|ps IH] using jsval_ind';
    intros [| |y|y|y|ys|qs]; simpl; try (split; congruence).
  - rewrite Bool.eqb_true_iff. split; congruence.
  - rewrite FloatAxioms.Leibniz.eqb_spec. split; congruence.
  - rewrite String.eqb_eq. split; congruence.
  - revert ys. induction IH as [|x xs Hx _ IH']; intros [|y ys]; simpl; try (split; congruence).
    rewrite andb_true_iff, Hx, IH'. split; [by intros [-> [= ->]]|by intros [= -> ->]].
  - revert qs. induction IH as [|[k x] ps Hx _ IH']; intros [|[k' y] qs]; simpl; try (split; congruence).
    cbn [snd] in Hx. rewrite !andb_true_iff, String.eqb_eq, Hx, IH'.
    split; [by intros [[-> ->] [= ->]]|by intros [= -> -> ->]].
Qed.

#[export] Instance jsval_eq_dec : EqDecision jsval.
Proof.
  intros a b. destruct (jsval_eqb a b) eqn:E; [left; by apply jsval_eqb_spec|].
  right. intros H%jsval_eqb_spec. congruence.
Defined.
