(* ===== verification/JsonParse.v ===== *)
(** * [JSON.parse]

    [getCartFromStorage] (woocommerce.ts:122-132) returns
    [JSON.parse(cartData)] for the stored text.  This file holds
    [JSON.parse] without a reviver (ECMAScript 2024, 25.5.1): the JSON
    grammar of ECMA-404 read by recursive descent, numbers converted with
    the same correctly rounded decimal conversion as [parseFloat], and
    objects built member by member with [CreateDataProperty], so that a
    repeated key keeps its first position and takes its last value.  A
    text that is not JSON throws a [SyntaxError].  [\uXXXX] escapes above
    [ÿ] leave the Latin-1 strings of the model and are refused. *)

From S2P Require Import Prelude JsNumber Json.
From Stdlib Require Import Ascii.

Local Open Scope Z_scope.

(** JSON white space: space, tab, line feed, carriage return. *)
Definition is_json_ws (c : ascii) : bool :=
  let n := nat_of_ascii c in Nat.eqb n 32 || Nat.eqb n 9 || Nat.eqb n 10 || Nat.eqb n 13.

Fixpoint skip_ws (s : string) : string :=
  match s with
  | String c s' => if is_json_ws c then skip_ws s' else s
  | EmptyString => EmptyString
  end.

(** The rest of [s] after the literal [lit], when [s] starts with it. *)
Fixpoint expect (lit s : string) : option string :=
  match lit, s with
  | EmptyString, _ => Some s
  | String c lit', String d s' => if Ascii.eqb c d then expect lit' s' else None
  | _, _ => None
  end.

Definition hex_value (c : ascii) : option nat :=
  let n := nat_of_ascii c in
  if Nat.leb 48 n && Nat.leb n 57 then Some (n - 48)%nat
  else if Nat.leb 97 n && Nat.leb n 102 then Some (n - 87)%nat
  else if Nat.leb 65 n && Nat.leb n 70 then Some (n - 55)%nat
  else None.

(** The code unit of the escape [\uXXXX] with hex digits [a b c d]. *)
Definition unicode_escape (a b c d : ascii) : option ascii :=
  match hex_value a, hex_value b, hex_value c, hex_value d with
  | Some a', Some b', Some c', Some d' =>
      let n := (((a' * 16 + b') * 16 + c') * 16 + d')%nat in
      if Nat.leb n 255 then Some (ascii_of_nat n) else None
  | _, _, _, _ => None
  end.

(** The character a two-character escape [\c] stands for. *)
Definition simple_escape (c : ascii) : option ascii :=
  let n := nat_of_ascii c in
  if Nat.eqb n 34 then Some c
  else if Nat.eqb n 92 then Some c
  else if Nat.eqb n 47 then Some c
  else if Nat.eqb n 98 then Some (ascii_of_nat 8)
  else if Nat.eqb n 102 then Some (ascii_of_nat 12)
  else if Nat.eqb n 110 then Some (ascii_of_nat 10)
  else if Nat.eqb n 114 then Some (ascii_of_nat 13)
  else if Nat.eqb n 116 then Some (ascii_of_nat 9)
  else None.

(** The characters of a string literal up to its closing quote, and the
    text after it.  Unescaped code units below [0x20] are not allowed. *)
Fixpoint string_body (s : string) : option (string * string) :=
  match s with
  | EmptyString => None
  | String c r =>
      if Ascii.eqb c dquote then Some (EmptyString, r)
      else if Ascii.eqb c backslash then
        match r with
        | String e r' =>
            if Ascii.eqb e "u"%char then
              match r' with
              | String a (String b (String c' (String d r''))) =>
                  match unicode_escape a b c' d, string_body r'' with
                  | Some u, Some (t, rest) => Some (String u t, rest)
                  | _, _ => None
                  end
              | _ => None
              end
            else
              match simple_escape e, string_body r' with
              | Some u, Some (t, rest) => Some (String u t, rest)
              | _, _ => None
              end
        | EmptyString => None
        end
      else if Nat.ltb (nat_of_ascii c) 32 then None
      else
        match string_body r with
        | Some (t, rest) => Some (String c t, rest)
        | None => None
        end
  end.

(** The integer part of a JSON number: [0], or a non-zero digit and
    digits. *)
Definition json_int (s : string) : option (list Z * string) :=
  match s with
  | String c r =>
      match digit_value c with
      | Some 0 => Some ([0], r)
      | Some _ => Some (scan_digits s)
      | None => None
      end
  | EmptyString => None
  end.

(** An optional fraction: [.] and at least one digit. *)
Definition json_frac (s : string) : option (list Z * string) :=
  match s with
  | String c r =>
      if Ascii.eqb c "."%char then
        match scan_digits r with
        | ([], _) => None
        | res => Some res
        end
      else Some ([], s)
  | EmptyString => Some ([], s)
  end.

(** An optional exponent: [e] or [E], an optional sign, at least one
    digit. *)
Definition json_exp (s : string) : option (Z * string) :=
  match s with
  | String c r =>
      if Ascii.eqb c "e"%char || Ascii.eqb c "E"%char then
        let '(sgn, t) :=
          match r with
          | String c' t' =>
              if Ascii.eqb c' "+"%char then (1, t')
              else if Ascii.eqb c' "-"%char then (-1, t') else (1, r)
          | EmptyString => (1, r)
          end in
        match scan_digits t with
        | ([], _) => None
        | (ds, rest) => Some (sgn * digits_value ds, rest)
        end
      else Some (0, s)
  | EmptyString => Some (0, s)
  end.

(** A JSON number: an optional minus, an integer part, an optional
    fraction and an optional exponent, converted to the nearest binary64.  After a leading [0] the next digit
    is left in the text, where no continuation of a value accepts it. *)
Definition json_number (s : string) : option (float * string) :=
  let '(neg, s1) :=
    match s with
    | String c r => if Ascii.eqb c "-"%char then (true, r) else (false, s)
    | EmptyString => (false, s)
    end in
  match json_int s1 with
  | Some (int, s2) =>
      match json_frac s2 with
      | Some (frac, s3) =>
          match json_exp s3 with
          | Some (e, s4) =>
              Some (round_decimal neg (digits_value (int ++ frac)) (e - Z.of_nat (length frac)), s4)
          | None => None
          end
      | None => None
      end
  | None => None
  end.

(** [CreateDataProperty(obj, k, v)] on an object being built: an existing
    key keeps its position and takes the new value, a new key goes last. *)
Fixpoint set_property (props : list (string * jsval)) (k : string) (v : jsval)
    : list (string * jsval) :=
  match props with
  | [] => [(k, v)]
  | (k', v') :: ps => if String.eqb k k' then (k, v) :: ps else (k', v') :: set_property ps k v
  end.

(** The elements of an array after its [[] and first element's start:
    values separated by [,] up to []]; [pv] reads one value.  [g] bounds
    the number of elements. *)
Fixpoint elems_loop (pv : string -> option (jsval * string)) (g : nat) (t : string)
    (acc : list jsval) : option (jsval * string) :=
  match g with
  | O => None
  | S g' =>
    match pv t with
    | Some (v, t1) =>
        match skip_ws t1 with
        | String c t2 =>
            if Ascii.eqb c ","%char then elems_loop pv g' t2 (acc ++ [v])
            else if Ascii.eqb c "]"%char then Some (JArray (acc ++ [v]), t2)
            else None
        | EmptyString => None
        end
    | None => None
    end
  end.

(** The members of an object: [string : value] separated by [,] up to
    [}], each stored with [CreateDataProperty]. *)
Fixpoint members_loop (pv : string -> option (jsval * string)) (g : nat) (t : string)
    (acc : list (string * jsval)) : option (jsval * string) :=
  match g with
  | O => None
  | S g' =>
    match skip_ws t with
    | String q t0 =>
      if Ascii.eqb q dquote then
        match string_body t0 with
        | Some (k, t1) =>
            match skip_ws t1 with
            | String colon t2 =>
                if Ascii.eqb colon ":"%char then
                  match pv t2 with
                  | Some (v, t3) =>
                      match skip_ws t3 with
                      | String c t4 =>
                          if Ascii.eqb c ","%char then members_loop pv g' t4 (set_property acc k v)
                          else if Ascii.eqb c "}"%char then Some (JObject (set_property acc k v), t4)
                          else None
                      | EmptyString => None
                      end
                  | None => None
                  end
                else None
            | EmptyString => None
            end
        | None => None
        end
      else None
    | EmptyString => None
    end
  end.

(** A JSON value at the start of [s] (after white space) and the text
    after it.  [fuel] bounds the nesting depth and the lengths of arrays
    and objects; the length of the text is enough, each value and each
    level reading at least one character. *)
Fixpoint parse_value (fuel : nat) (s : string) : option (jsval * string) :=
  match fuel with
  | O => None
  | S f =>
    match skip_ws s with
    | EmptyString => None
    | String c r =>
      if Ascii.eqb c "n"%char then (fun r' => (JNull, r')) <$> expect "ull" r
      else if Ascii.eqb c "t"%char then (fun r' => (JBool true, r')) <$> expect "rue" r
      else if Ascii.eqb c "f"%char then (fun r' => (JBool false, r')) <$> expect "alse" r
      else if Ascii.eqb c dquote then (fun tr => (JString tr.1, tr.2)) <$> string_body r
      else if Ascii.eqb c "["%char then
        match skip_ws r with
        | String d r' => if Ascii.eqb d "]"%char then Some (JArray [], r')
                         else elems_loop (parse_value f) f r []
        | EmptyString => None
        end
      else if Ascii.eqb c "{"%char then
        match skip_ws r with
        | String d r' => if Ascii.eqb d "}"%char then Some (JObject [], r')
                         else members_loop (parse_value f) f r []
        | EmptyString => None
        end
      else (fun nr => (JNumber nr.1, nr.2)) <$> json_number (String c r)
    end
  end.

(** [JSON.parse(text)]: one value, then only white space. *)
Definition JSON_parse (text : string) : option jsval :=
  match parse_value (S (String.length text)) text with
  | Some (v, rest) => match skip_ws rest with EmptyString => Some v | _ => None end
  | None => None
  end.

(** * Lemmas *)

Lemma hex_value_digit (k : nat) : (k < 16)%nat -> hex_value (hex_digit k) = Some k.
Proof. intros Hk. do 16 (destruct k as [|k]; [reflexivity|]). lia. Qed.

Lemma nat_of_ascii_bound (c : ascii) : (nat_of_ascii c < 256)%nat.
Proof. destruct c as [[] [] [] [] [] [] [] []]; vm_compute; lia. Qed.

(** A code unit [QuoteJSONString] leaves as it is. *)
Definition plain_char (c : ascii) : Prop :=
  c <> dquote /\ c <> backslash /\ (32 <= nat_of_ascii c)%nat.

Lemma string_body_plain (c : ascii) (rest : string) :
  plain_char c ->
  string_body (String c rest) = (fun tr => (String c tr.1, tr.2)) <$> string_body rest.
Proof.
  intros (Hq & Hb & Hn). cbn [string_body].
  rewrite (proj2 (Ascii.eqb_neq _ _) Hq), (proj2 (Ascii.eqb_neq _ _) Hb).
  destruct (Nat.ltb_spec (nat_of_ascii c) 32); [lia|].
  by destruct (string_body rest) as [[]|].
Qed.

Lemma quote_char_plain (c : ascii) : plain_char c -> quote_char c = String c EmptyString.
Proof.
  intros (Hq & Hb & Hn). unfold quote_char.
  assert (nat_of_ascii c <> 34)%nat as H34.
  { intros E. apply Hq. rewrite <- (ascii_nat_embedding c), E. reflexivity. }
  assert (nat_of_ascii c <> 92)%nat as H92.
  { intros E. apply Hb. rewrite <- (ascii_nat_embedding c), E. reflexivity. }
  repeat match goal with
  | |- context [Nat.eqb ?a ?b] => destruct (Nat.eqb_spec a b); [lia|]
  | |- context [Nat.ltb ?a ?b] => destruct (Nat.ltb_spec a b); [lia|]
  end.
  reflexivity.
Qed.

(** Reads back the escape of one concrete code unit: evaluate the closed
    escape text, then run [string_body] over it. *)
Local Ltac quote_case :=
  match goal with
  | |- context [quote_char ?c] =>
      let q := eval vm_compute in (quote_char c) in change (quote_char c) with q
  end;
  match goal with
  | |- context [String (ascii_of_nat ?n)] =>
      let a := eval vm_compute in (ascii_of_nat n) in change (ascii_of_nat n) with a
  end;
  cbn [String.append string_body Ascii.eqb Bool.eqb andb unicode_escape hex_value simple_escape];
  simpl; by destruct (string_body _) as [[]|].

(** The escapes of the other code units, each read back. *)
Lemma string_body_escaped (n : nat) (rest : string) :
  (n < 32)%nat \/ n = 34%nat \/ n = 92%nat ->
  string_body (quote_char (ascii_of_nat n) +:+ rest) =
    (fun tr => (String (ascii_of_nat n) tr.1, tr.2)) <$> string_body rest.
Proof.
  intros Hn.
  assert (n = 34 \/ n = 92 \/ n < 32)%nat as [->|[->|Hlt]] by lia; [quote_case..|].
  do 32 (destruct n as [|n]; [quote_case|]). lia.
Qed.

(** Reading the escape [QuoteJSONString] writes for one code unit gives
    the code unit back. *)
Lemma string_body_quote_char (c : ascii) (rest : string) :
  string_body (quote_char c +:+ rest) =
    (fun tr => (String c tr.1, tr.2)) <$> string_body rest.
Proof.
  destruct (decide (plain_char c)) as [Hp|Hp].
  - rewrite quote_char_plain by done. apply string_body_plain, Hp.
  - rewrite <- (ascii_nat_embedding c). apply string_body_escaped.
    unfold plain_char in Hp.
    destruct (decide (c = dquote)) as [->|Hq]; [by right; left|].
    destruct (decide (c = backslash)) as [->|Hb]; [by right; right|].
    left. destruct (Nat.lt_ge_cases (nat_of_ascii c) 32) as [?|Hge]; [done|].
    by destruct Hp.
Qed.

Lemma string_body_quote_chars (s rest : string) :
  string_body (quote_chars s +:+ String dquote rest) = Some (s, rest).
Proof.
  induction s as [|c s IH]; [reflexivity|]. cbn [quote_chars].
  rewrite string_app_assoc, string_body_quote_char, IH. reflexivity.
Qed.

(** ** The number scanners and what follows a number *)

(** A text that cannot continue a number: empty, or starting with none of
    the digits, [.], [e], [E], [+], [-]. *)
Definition num_delim (rest : string) : Prop :=
  match rest with
  | EmptyString => True
  | String c _ => digit_value c = None /\
                  Forall (fun d => c <> d) ["."; "e"; "E"; "+"; "-"]%char
  end.

Lemma scan_digits_app (t rest : string) :
  num_delim rest ->
  scan_digits (t +:+ rest) = let '(ds, r) := scan_digits t in (ds, r +:+ rest).
Proof.
  intros Hr. induction t as [|c t IH].
  - destruct rest as [|c r]; [done|]. destruct Hr as [Hd _]. simpl. by rewrite Hd.
  - rewrite string_app_cons. simpl. rewrite IH.
    destruct (digit_value c); [|done]. by destruct (scan_digits t).
Qed.

Lemma json_int_app (t rest : string) :
  num_delim rest ->
  json_int (t +:+ rest) = (fun xr => (xr.1, xr.2 +:+ rest)) <$> json_int t.
Proof.
  intros Hr. destruct t as [|c t].
  - destruct rest as [|c r]; [done|]. destruct Hr as [Hd _]. simpl. by rewrite Hd.
  - rewrite string_app_cons. unfold json_int. destruct (digit_value c) as [[|p|p]|]; try done.
    + rewrite <- string_app_cons, scan_digits_app by done. by destruct (scan_digits (String c t)).
    + rewrite <- string_app_cons, scan_digits_app by done. by destruct (scan_digits (String c t)).
Qed.

(** Unpack the facts [num_delim (String c _)] gives about [c]. *)
Local Ltac delim_char H :=
  let Hd := fresh "Hd" in let Hne := fresh "Hne" in
  pose proof H as [Hd Hne]; repeat (apply Forall_cons in Hne as [? Hne]).

Lemma json_frac_app (t rest : string) :
  num_delim rest ->
  json_frac (t +:+ rest) = (fun xr => (xr.1, xr.2 +:+ rest)) <$> json_frac t.
Proof.
  intros Hr. destruct t as [|c t].
  - destruct rest as [|c r]; [done|]. delim_char Hr. simpl.
    by rewrite (proj2 (Ascii.eqb_neq _ _)) by done.
  - rewrite string_app_cons. unfold json_frac. destruct (Ascii.eqb c "."%char); [|done].
    rewrite scan_digits_app by done. by destruct (scan_digits t) as [[|d ds] r].
Qed.

Lemma json_exp_app (t rest : string) :
  num_delim rest ->
  json_exp (t +:+ rest) = (fun xr => (xr.1, xr.2 +:+ rest)) <$> json_exp t.
Proof.
  intros Hr. destruct t as [|c t].
  - destruct rest as [|c r]; [done|]. delim_char Hr. simpl.
    by rewrite !(proj2 (Ascii.eqb_neq _ _)) by done.
  - rewrite string_app_cons. unfold json_exp.
    destruct (Ascii.eqb c "e"%char || Ascii.eqb c "E"%char); [|done].
    destruct t as [|c' t].
    + destruct rest as [|d r]; [done|]. delim_char Hr.
      rewrite string_app_nil_l. simpl.
      rewrite !(proj2 (Ascii.eqb_neq _ _)) by done. simpl. by rewrite Hd.
    + rewrite string_app_cons.
      destruct (Ascii.eqb c' "+"%char); [|destruct (Ascii.eqb c' "-"%char)];
        [rewrite scan_digits_app by done; by destruct (scan_digits t) as [[|d ds] r]..|].
      rewrite <- string_app_cons, scan_digits_app by done.
      by destruct (scan_digits (String c' t)) as [[|d ds] r].
Qed.

Lemma json_number_app (t rest : string) :
  num_delim rest ->
  json_number (t +:+ rest) = (fun yr => (yr.1, yr.2 +:+ rest)) <$> json_number t.
Proof.
  intros Hr. unfold json_number.
  assert (forall s1, json_int s1 = None -> json_int (s1 +:+ rest) = None) as Hnone.
  { intros s1 H. by rewrite json_int_app, H. }
  destruct t as [|c t].
  - rewrite string_app_nil_l. destruct rest as [|d r]; [done|].
    delim_char Hr. simpl.
    rewrite (proj2 (Ascii.eqb_neq _ _)) by done. unfold json_int. by rewrite Hd.
  - rewrite string_app_cons.
    replace (let '(neg, s1) := if Ascii.eqb c "-"%char then (true, t +:+ rest)
                               else (false, String c (t +:+ rest)) in _ : option _) with
      (let '(neg, s1) := if Ascii.eqb c "-"%char then (true, t) else (false, String c t) in
       match json_int (s1 +:+ rest) with
       | Some (int, s2) =>
           match json_frac s2 with
           | Some (frac, s3) =>
               match json_exp s3 with
               | Some (e, s4) =>
                   Some (round_decimal neg (digits_value (int ++ frac)) (e - Z.of_nat (length frac)), s4)
               | None => None
               end
           | None => None
           end
       | None => None
       end) by (by destruct (Ascii.eqb c "-"%char)).
    destruct (if Ascii.eqb c "-"%char then (true, t) else (false, String c t)) as [neg s1].
    rewrite json_int_app by done. destruct (json_int s1) as [[int s2]|]; [|done]. simpl.
    rewrite json_frac_app by done. destruct (json_frac s2) as [[frac s3]|]; [|done]. simpl.
    rewrite json_exp_app by done. destruct (json_exp s3) as [[e s4]|]; done.
Qed.
