(* ===== verification/JsonFuel.v ===== *)
(** * Termination of [JSON.parse]: the fuel is enough

    [JSON_parse t] runs the recursive descent [parse_value] with fuel
    [S (length t)], which bounds the nesting depth and the number of
    elements and members of each array and object.  This file shows that
    the bound is never what decides the result: more fuel never changes
    a result ([parse_value_mono]), and once the fuel exceeds the length of
    the text the result does not depend on it ([parse_value_fuel]),
    because each level of nesting reads a bracket and each further
    element or member reads a separator.  So [JSON_parse] accepts exactly
    the texts the descent accepts with some fuel. *)

From S2P Require Import Prelude JsNumber Json JsonParse.

(** One unfolding of [parse_value]: the same body, with the parser of
    nested values and the loop bound as arguments. *)
Definition parse_body (pv : string -> option (jsval * string)) (g : nat) (s : string)
    : option (jsval * string) :=
  match skip_ws s with
  | EmptyString => None
  | String c r =>
    if Ascii.eqb c "n"%char then (fun r' => (JNull, r')) <$> expect "ull" r
    else if Ascii.eqb c "t"%char then (fun r' => (JBool true, r')) <$> expect "rue" r
    else if Ascii.eqb c "f"%char then (fun r' => (JBool false, r')) <$> expect "alse" r
    else if Ascii.eqb c dquote then (fun tr => (JString tr.1, tr.2)) <$> string_body r
    else if Ascii.eqb c "["%char then
      match skip_ws r with
      | String d r' => if Ascii.eqb d "]"%char then Some (JArray [], r')
                       else elems_loop pv g r []
      | EmptyString => None
      end
    else if Ascii.eqb c "{"%char then
      match skip_ws r with
      | String d r' => if Ascii.eqb d "}"%char then Some (JObject [], r')
                       else members_loop pv g r []
      | EmptyString => None
      end
    else (fun nr => (JNumber nr.1, nr.2)) <$> json_number (String c r)
  end.

(** A parser that never reads backwards. *)
Definition consumes (pv : string -> option (jsval * string)) : Prop :=
  forall u x w, pv u = Some (x, w) -> String.length w <= String.length u.

(** * Lemmas *)

Lemma parse_value_S f s : parse_value (S f) s = parse_body (parse_value f) f s.
Proof. reflexivity. Qed.

(** ** The scanners read forwards *)

Lemma skip_ws_length s : String.length (skip_ws s) <= String.length s.
Proof. induction s as [|c s IH]; cbn; [lia|]. destruct (is_json_ws c); cbn; lia. Qed.

Lemma skip_ws_cons s c r : skip_ws s = String c r -> String.length r < String.length s.
Proof. intros H. pose proof (skip_ws_length s) as Hl. rewrite H in Hl. cbn in Hl. lia. Qed.

Lemma expect_length lit s r : expect lit s = Some r -> String.length r <= String.length s.
Proof.
  revert s. induction lit as [|c lit IH]; intros s H; [injection H as <-; lia|].
  destruct s as [|d s]; [discriminate|]. cbn in H.
  destruct (Ascii.eqb c d); [|discriminate]. apply IH in H. cbn. lia.
Qed.

Lemma scan_digits_length s : String.length (scan_digits s).2 <= String.length s.
Proof.
  induction s as [|c s IH]; cbn; [lia|].
  destruct (digit_value c); [|cbn; lia]. destruct (scan_digits s) eqn:E. cbn in *. lia.
Qed.

Lemma scan_digits_rest s ds r : scan_digits s = (ds, r) -> String.length r <= String.length s.
Proof. intros H. pose proof (scan_digits_length s) as Hl. by rewrite H in Hl. Qed.

Lemma json_int_length s ds r : json_int s = Some (ds, r) -> String.length r <= String.length s.
Proof.
  unfold json_int. destruct s as [|c s]; [discriminate|].
  destruct (digit_value c) as [[]|]; [intros [= _ <-]; cbn; lia|intros [= H]..|discriminate];
    exact (scan_digits_rest (String c s) ds r H).
Qed.

Lemma json_frac_length s ds r : json_frac s = Some (ds, r) -> String.length r <= String.length s.
Proof.
  unfold json_frac. destruct s as [|c s]; [intros [= _ <-]; lia|].
  destruct (Ascii.eqb c "."%char); [|intros [= _ <-]; lia].
  pose proof (scan_digits_length s) as Hl. destruct (scan_digits s) as [[|d ds'] t]; [discriminate|].
  intros [= _ <-]. cbn in *. lia.
Qed.

Lemma json_exp_length s e r : json_exp s = Some (e, r) -> String.length r <= String.length s.
Proof.
  unfold json_exp. destruct s as [|c s]; [intros [= _ <-]; lia|].
  destruct (_ || _); [|intros [= _ <-]; lia].
  assert (String.length (match s with
            | String c' t' => if Ascii.eqb c' "+"%char then (1%Z, t')
                              else if Ascii.eqb c' "-"%char then ((-1)%Z, t') else (1%Z, s)
            | EmptyString => (1%Z, s) end).2 <= String.length s) as Hsgn.
  { destruct s as [|c' t']; [cbn; lia|].
    destruct (Ascii.eqb c' _); [cbn; lia|]. destruct (Ascii.eqb c' _); cbn; lia. }
  destruct (match s with String _ _ => _ | EmptyString => _ end) as [sgn t]. cbn [snd] in Hsgn.
  pose proof (scan_digits_length t) as Hl.
  destruct (scan_digits t) as [[|d ds] u]; [discriminate|]. intros [= _ <-]. cbn in *. lia.
Qed.

Lemma json_number_length s x r : json_number s = Some (x, r) -> String.length r <= String.length s.
Proof.
  unfold json_number.
  assert (String.length (match s with
            | String c r => if Ascii.eqb c "-"%char then (true, r) else (false, s)
            | EmptyString => (false, s) end).2 <= String.length s) as Hneg.
  { destruct s as [|c t]; [cbn; lia|]. destruct (Ascii.eqb c _); cbn; lia. }
  destruct (match s with String _ _ => _ | EmptyString => _ end) as [neg s1]. cbn [snd] in Hneg.
  destruct (json_int s1) as [[int s2]|] eqn:Hi; [|discriminate]. apply json_int_length in Hi.
  destruct (json_frac s2) as [[frac s3]|] eqn:Hf; [|discriminate]. apply json_frac_length in Hf.
  destruct (json_exp s3) as [[e s4]|] eqn:He; [|discriminate]. apply json_exp_length in He.
  intros [= _ <-]. lia.
Qed.

Lemma string_body_length s k r : string_body s = Some (k, r) -> String.length r < String.length s.
Proof.
  remember (String.length s) as n eqn:Hn. revert s k r Hn.
  induction n as [n IH] using lt_wf_ind. intros s k r -> H.
  destruct s as [|c s]; [discriminate|]. cbn in H.
  destruct (Ascii.eqb c dquote); [injection H as _ <-; cbn; lia|].
  destruct (Ascii.eqb c backslash).
  - destruct s as [|e s']; [discriminate|]. destruct (Ascii.eqb e "u"%char).
    + destruct s' as [|a [|b [|c' [|d r'']]]]; try discriminate.
      destruct (unicode_escape a b c' d); [|discriminate].
      destruct (string_body r'') as [[t rest]|] eqn:E; [|discriminate]. injection H as _ <-.
      assert (String.length rest < String.length r'') by (eapply IH; [|reflexivity|exact E]; cbn; lia).
      cbn. lia.
    + destruct (simple_escape e); [|discriminate].
      destruct (string_body s') as [[t rest]|] eqn:E; [|discriminate]. injection H as _ <-.
      assert (String.length rest < String.length s') by (eapply IH; [|reflexivity|exact E]; cbn; lia).
      cbn. lia.
  - destruct (nat_of_ascii c <=? 31)%nat; [discriminate|].
    destruct (string_body s) as [[t rest]|] eqn:E; [|discriminate]. injection H as _ <-.
    assert (String.length rest < String.length s) by (eapply IH; [|reflexivity|exact E]; cbn; lia).
    cbn. lia.
Qed.

(** ** The loops *)

Section Loops.
Variables pv pv' : string -> option (jsval * string).

Lemma elems_loop_length g t acc v r :
  consumes pv -> elems_loop pv g t acc = Some (v, r) -> String.length r <= String.length t.
Proof.
  intros Hpv. revert t acc. induction g as [|g IH]; intros t acc; [discriminate|]. cbn.
  destruct (pv t) as [[x t1]|] eqn:E; [|discriminate]. apply Hpv in E.
  destruct (skip_ws t1) as [|c t2] eqn:Ew; [discriminate|]. apply skip_ws_cons in Ew.
  destruct (Ascii.eqb c ","%char); [intros H%IH; lia|].
  destruct (Ascii.eqb c "]"%char); [intros [= _ <-]; lia|discriminate].
Qed.

Lemma members_loop_length g t acc v r :
  consumes pv -> members_loop pv g t acc = Some (v, r) -> String.length r <= String.length t.
Proof.
  intros Hpv. revert t acc. induction g as [|g IH]; intros t acc; [discriminate|]. cbn.
  destruct (skip_ws t) as [|q t0] eqn:E0; [discriminate|]. apply skip_ws_cons in E0.
  destruct (Ascii.eqb q dquote); [|discriminate].
  destruct (string_body t0) as [[k t1]|] eqn:E1; [|discriminate]. apply string_body_length in E1.
  destruct (skip_ws t1) as [|colon t2] eqn:E2; [discriminate|]. apply skip_ws_cons in E2.
  destruct (Ascii.eqb colon ":"%char); [|discriminate].
  destruct (pv t2) as [[x t3]|] eqn:E3; [|discriminate]. apply Hpv in E3.
  destruct (skip_ws t3) as [|c t4] eqn:E4; [discriminate|]. apply skip_ws_cons in E4.
  destruct (Ascii.eqb c ","%char); [intros H%IH; lia|].
  destruct (Ascii.eqb c "}"%char); [intros [= _ <-]; lia|discriminate].
Qed.

Hypothesis pv_mono : forall u res, pv u = Some res -> pv' u = Some res.

Lemma elems_loop_mono g g' t acc res :
  g <= g' -> elems_loop pv g t acc = Some res -> elems_loop pv' g' t acc = Some res.
Proof.
  revert g' t acc. induction g as [|g IH]; intros [|g'] t acc Hg; try (lia || discriminate). cbn.
  destruct (pv t) as [[x t1]|] eqn:E; [|discriminate]. rewrite (pv_mono _ _ E).
  destruct (skip_ws t1) as [|c t2]; [discriminate|].
  destruct (Ascii.eqb c ","%char); [apply IH; lia|done].
Qed.

Lemma members_loop_mono g g' t acc res :
  g <= g' -> members_loop pv g t acc = Some res -> members_loop pv' g' t acc = Some res.
Proof.
  revert g' t acc. induction g as [|g IH]; intros [|g'] t acc Hg; try (lia || discriminate). cbn.
  destruct (skip_ws t) as [|q t0]; [discriminate|]. destruct (Ascii.eqb q dquote); [|discriminate].
  destruct (string_body t0) as [[k t1]|]; [|discriminate].
  destruct (skip_ws t1) as [|colon t2]; [discriminate|]. destruct (Ascii.eqb colon _); [|discriminate].
  destruct (pv t2) as [[x t3]|] eqn:E; [|discriminate]. rewrite (pv_mono _ _ E).
  destruct (skip_ws t3) as [|c t4]; [discriminate|].
  destruct (Ascii.eqb c ","%char); [apply IH; lia|done].
Qed.
End Loops.

Section LoopFuel.
Variables pv pv' : string -> option (jsval * string).
Hypothesis pv_consumes : consumes pv.

(** A loop whose bound exceeds the length of its text runs out of text
    before it runs out of bound: each further element reads a [,]. *)
Lemma elems_loop_fuel g g' t acc :
  (forall u, String.length u <= String.length t -> pv' u = pv u) ->
  String.length t < g -> g <= g' -> elems_loop pv' g' t acc = elems_loop pv g t acc.
Proof.
  revert g' t acc. induction g as [|g IH]; intros [|g'] t acc Hpv Hg Hg'; try lia. cbn.
  rewrite Hpv by lia. destruct (pv t) as [[x t1]|] eqn:E; [|done]. apply pv_consumes in E.
  destruct (skip_ws t1) as [|c t2] eqn:Ew; [done|]. apply skip_ws_cons in Ew.
  destruct (Ascii.eqb c ","%char); [|done]. apply IH; [intros u Hu; apply Hpv|..]; lia.
Qed.

Lemma members_loop_fuel g g' t acc :
  (forall u, String.length u <= String.length t -> pv' u = pv u) ->
  String.length t < g -> g <= g' -> members_loop pv' g' t acc = members_loop pv g t acc.
Proof.
  revert g' t acc. induction g as [|g IH]; intros [|g'] t acc Hpv Hg Hg'; try lia. cbn.
  destruct (skip_ws t) as [|q t0] eqn:E0; [done|]. apply skip_ws_cons in E0.
  destruct (Ascii.eqb q dquote); [|done].
  destruct (string_body t0) as [[k t1]|] eqn:E1; [|done]. apply string_body_length in E1.
  destruct (skip_ws t1) as [|colon t2] eqn:E2; [done|]. apply skip_ws_cons in E2.
  destruct (Ascii.eqb colon ":"%char); [|done].
  rewrite Hpv by lia. destruct (pv t2) as [[x t3]|] eqn:E3; [|done]. apply pv_consumes in E3.
  destruct (skip_ws t3) as [|c t4] eqn:E4; [done|]. apply skip_ws_cons in E4.
  destruct (Ascii.eqb c ","%char); [|done]. apply IH; [intros u Hu; apply Hpv|..]; lia.
Qed.

(** ** One step of the descent *)

Lemma parse_body_length g s v r :
  parse_body pv g s = Some (v, r) -> String.length r <= String.length s.
Proof.
  unfold parse_body. destruct (skip_ws s) as [|c t] eqn:Ew; [discriminate|].
  apply skip_ws_cons in Ew.
  destruct (Ascii.eqb c _); [intros (t' & Ht%expect_length & [= _ <-])%fmap_Some; lia|].
  destruct (Ascii.eqb c _); [intros (t' & Ht%expect_length & [= _ <-])%fmap_Some; lia|].
  destruct (Ascii.eqb c _); [intros (t' & Ht%expect_length & [= _ <-])%fmap_Some; lia|].
  destruct (Ascii.eqb c _).
  { intros ([k t'] & Ht%string_body_length & [= _ <-])%fmap_Some. cbn in *. lia. }
  destruct (Ascii.eqb c _).
  { destruct (skip_ws t) as [|d t'] eqn:Ew'; [discriminate|]. apply skip_ws_cons in Ew'.
    destruct (Ascii.eqb d _); [intros [= _ <-]; lia|].
    intros Hl%elems_loop_length; [lia|done]. }
  destruct (Ascii.eqb c _).
  { destruct (skip_ws t) as [|d t'] eqn:Ew'; [discriminate|]. apply skip_ws_cons in Ew'.
    destruct (Ascii.eqb d _); [intros [= _ <-]; lia|].
    intros Hl%members_loop_length; [lia|done]. }
  intros ([x t'] & Ht%json_number_length & [= _ <-])%fmap_Some. cbn in *. lia.
Qed.

Lemma parse_body_fuel g g' s :
  (forall u, String.length u < String.length s -> pv' u = pv u) ->
  String.length s <= g -> g <= g' -> parse_body pv' g' s = parse_body pv g s.
Proof.
  intros Hpv Hg Hg'. unfold parse_body.
  destruct (skip_ws s) as [|c t] eqn:Ew; [done|]. apply skip_ws_cons in Ew.
  repeat (destruct (Ascii.eqb c _); [|]); try done;
    (destruct (skip_ws t) as [|d t']; [done|]; destruct (Ascii.eqb d _); [done|]).
  - apply elems_loop_fuel; [intros u Hu; apply Hpv|..]; lia.
  - apply members_loop_fuel; [intros u Hu; apply Hpv|..]; lia.
Qed.
End LoopFuel.

Lemma parse_body_mono pv pv' g g' s res :
  (forall u res, pv u = Some res -> pv' u = Some res) -> g <= g' ->
  parse_body pv g s = Some res -> parse_body pv' g' s = Some res.
Proof.
  intros Hpv Hg. unfold parse_body. destruct (skip_ws s) as [|c t]; [done|].
  repeat (destruct (Ascii.eqb c _); [|]); try done;
    (destruct (skip_ws t) as [|d t']; [done|]; destruct (Ascii.eqb d _); [done|]).
  - by apply elems_loop_mono.
  - by apply members_loop_mono.
Qed.

(** ** The descent *)

Lemma parse_value_consumes n : consumes (parse_value n).
Proof.
  induction n as [|n IH]; intros u x w; [discriminate|].
  rewrite parse_value_S. by apply parse_body_length.
Qed.

(** More fuel never changes a result. *)
Lemma parse_value_mono n m s res :
  n <= m -> parse_value n s = Some res -> parse_value m s = Some res.
Proof.
  revert m s res. induction n as [|n IH]; intros [|m] s res Hnm; try (lia || discriminate).
  rewrite !parse_value_S. apply parse_body_mono; [intros u r'; apply IH|]; lia.
Qed.

(** Fuel beyond the length of the text changes nothing. *)
Lemma parse_value_fuel n m s :
  String.length s < n -> n <= m -> parse_value m s = parse_value n s.
Proof.
  revert m s. induction n as [|n IH]; intros [|m] s Hs Hnm; try lia.
  rewrite !parse_value_S. apply parse_body_fuel; [apply parse_value_consumes| |lia|lia].
  intros u Hu. apply IH; lia.
Qed.

(** * Theorems *)

(** C33. The fuel of [JSON_parse] is enough: whenever the recursive
    descent reads a value [v] from [t] with some fuel, followed by white
    space only, [JSON_parse t] returns [v].  So a text is never refused,
    and no result is changed, for lack of fuel: [JSON_parse] is the
    parser with unbounded recursion. *)
Theorem JSON_parse_complete (t : string) (n : nat) (v : jsval) (rest : string) :
  parse_value n t = Some (v, rest) -> skip_ws rest = EmptyString -> JSON_parse t = Some v.
Proof.
  intros H Hr. unfold JSON_parse.
  destruct (Nat.le_ge_cases n (S (String.length t))) as [Hn|Hn].
  - by rewrite (parse_value_mono n _ t _ Hn H), Hr.
  - by rewrite <- (parse_value_fuel (S (String.length t)) n t), H, Hr by lia.
Qed.

(** * Witnesses *)

(** Arrays nested three deep, read with a generous fuel. *)
Definition nested_text : string := "[1, [2, [3]], [[]]]".

Lemma JSON_parse_complete_witness :
  JSON_parse nested_text =
    Some (JArray [JNumber (parseFloat "1"); JArray [JNumber (parseFloat "2"); JArray [JNumber (parseFloat "3")]];
                  JArray [JArray []]]).
Proof. apply (JSON_parse_complete nested_text 100 _ EmptyString); vm_compute; reflexivity. Defined.
