(* ===== verification/JsonRoundtrip.v ===== *)
(** * [JSON.parse] after [JSON.stringify]

    The value [JSON.parse(JSON.stringify(v))] gives back is [normalize v]:
    [undefined] members dropped, [undefined] array elements turned to
    [null], non-finite numbers to [null], [-0] to [0], object members in
    the order [JSON.stringify] wrote them (array indices first).  The
    theorem [parse_stringify] of this file proves it for every value whose
    objects have distinct keys (as JavaScript objects do) and whose finite
    numbers print to text that reads back ([number_text_ok], the round
    trip ECMAScript requires of [Number::toString]). *)

From S2P Require Import Prelude JsNumber Json JsonParse.

Local Open Scope Z_scope.

(** ** What a round trip gives back *)

Definition norm_number (n : float) : jsval :=
  if PrimFloat.is_finite n then JNumber (if PrimFloat.is_zero n then PrimFloat.zero else n)
  else JNull.

Definition is_undefined (v : jsval) : bool :=
  match v with JUndefined => true | _ => false end.

(** An array element [undefined] is written [null]. *)
Definition elem_or_null (v : jsval) : jsval :=
  match v with JUndefined => JNull | _ => v end.

Definition map_values {A B} (f : A -> B) (ps : list (string * A)) : list (string * B) :=
  map (fun kv => (kv.1, f kv.2)) ps.

Fixpoint normalize (v : jsval) : jsval :=
  match v with
  | JNumber n => norm_number n
  | JArray vs =>
      let fix go (vs : list jsval) : list jsval :=
        match vs with
        | [] => []
        | w :: ws => elem_or_null (normalize w) :: go ws
        end in
      JArray (go vs)
  | JObject ps =>
      let fix go (ps : list (string * jsval)) : list (string * jsval) :=
        match ps with
        | [] => []
        | (k, w) :: ps' => (k, normalize w) :: go ps'
        end in
      JObject (List.filter (fun kv => negb (is_undefined kv.2)) (own_property_order (go ps)))
  | _ => v
  end.

(** ** The values the theorem covers *)

Fixpoint distinct_keys (ks : list string) : bool :=
  match ks with
  | [] => true
  | k :: ks' => negb (existsb (String.eqb k) ks') && distinct_keys ks'
  end.

(** Every object has distinct keys. *)
Fixpoint json_wf (v : jsval) : bool :=
  match v with
  | JArray vs =>
      let fix all (vs : list jsval) : bool :=
        match vs with [] => true | w :: ws => json_wf w && all ws end in
      all vs
  | JObject ps =>
      let fix all (ps : list (string * jsval)) : bool :=
        match ps with [] => true | (_, w) :: ps' => json_wf w && all ps' end in
      distinct_keys (map fst ps) && all ps
  | _ => true
  end.

(** The text of a finite number reads back as the number ([-0] as [0]). *)
Definition number_text_ok (n : float) : bool :=
  match json_number (number_to_string n) with
  | Some (m, EmptyString) =>
      PrimFloat.Leibniz.eqb m (if PrimFloat.is_zero n then PrimFloat.zero else n)
  | _ => false
  end.

Fixpoint json_numbers_ok (v : jsval) : bool :=
  match v with
  | JNumber n => negb (PrimFloat.is_finite n) || number_text_ok n
  | JArray vs =>
      let fix all (vs : list jsval) : bool :=
        match vs with [] => true | w :: ws => json_numbers_ok w && all ws end in
      all vs
  | JObject ps =>
      let fix all (ps : list (string * jsval)) : bool :=
        match ps with [] => true | (_, w) :: ps' => json_numbers_ok w && all ps' end in
      all ps
  | _ => true
  end.

(** What may follow a value inside JSON text. *)
Definition value_delim (rest : string) : Prop :=
  match rest with
  | EmptyString => True
  | String c _ => c = ","%char \/ c = "]"%char \/ c = "}"%char
  end.

(** * Lemmas *)

(** ** Characters and literals *)

Lemma ascii_eqb_code (c d : ascii) : nat_of_ascii c <> nat_of_ascii d -> Ascii.eqb c d = false.
Proof. intros H. apply Ascii.eqb_neq. congruence. Qed.

(** Tell [c] from a concrete character by its code. *)
Local Ltac code_neq :=
  match goal with
  | |- nat_of_ascii _ <> nat_of_ascii ?d =>
      let k := eval vm_compute in (nat_of_ascii d) in change (nat_of_ascii d) with k; lia
  end.

Lemma value_delim_num (rest : string) : value_delim rest -> num_delim rest.
Proof.
  destruct rest as [|c r]; [done|]. intros [-> | [-> | ->]]; split; [reflexivity | repeat constructor; discriminate ..].
Qed.

Lemma json_number_head (s : string) (x : float * string) :
  json_number s = Some x ->
  exists c r, s = String c r /\ (c = "-"%char \/ (48 <= nat_of_ascii c <= 57)%nat).
Proof.
  intros H. destruct s as [|c r]; [done|]. exists c, r. split; [done|].
  destruct (Ascii.eqb_spec c "-"%char) as [->|Hc]; [by left|right].
  unfold json_number in H. rewrite (proj2 (Ascii.eqb_neq _ _) Hc) in H.
  unfold json_int, digit_value in H.
  destruct ((48 <=? _) && _) eqn:Hb; [|done].
  apply andb_true_iff in Hb as [H1 H2]. apply Z.leb_le in H1, H2. lia.
Qed.

(** ** Reading back one scalar *)

Lemma parse_value_number (f : nat) (c : ascii) (r : string) :
  c = "-"%char \/ (48 <= nat_of_ascii c <= 57)%nat ->
  parse_value (S f) (String c r) = (fun nr => (JNumber nr.1, nr.2)) <$> json_number (String c r).
Proof.
  intros [->|Hc]; [reflexivity|]. cbn [parse_value skip_ws].
  assert (is_json_ws c = false) as ->.
  { unfold is_json_ws. repeat rewrite (proj2 (Nat.eqb_neq _ _)) by lia. reflexivity. }
  rewrite !(ascii_eqb_code c) by code_neq. reflexivity.
Qed.

(** Reading a literal: the first character picks the branch, [expect]
    reads the others. *)
Local Ltac literal_case c lit :=
  intros f rest; change (String c lit +:+ rest) with (String c (lit +:+ rest));
  cbn [parse_value skip_ws]; simpl; reflexivity.

Lemma parse_value_null : forall f rest, parse_value (S f) ("null" +:+ rest) = Some (JNull, rest).
Proof. literal_case "n"%char "ull". Qed.

Lemma parse_value_true : forall f rest, parse_value (S f) ("true" +:+ rest) = Some (JBool true, rest).
Proof. literal_case "t"%char "rue". Qed.

Lemma parse_value_false :
  forall f rest, parse_value (S f) ("false" +:+ rest) = Some (JBool false, rest).
Proof. literal_case "f"%char "alse". Qed.

Lemma parse_value_string (f : nat) (s rest : string) :
  parse_value (S f) (QuoteJSONString s +:+ rest) = Some (JString s, rest).
Proof.
  unfold QuoteJSONString. rewrite string_app_cons, string_app_assoc.
  cbn [parse_value skip_ws]. simpl.
  rewrite string_app_cons, string_app_nil_l, string_body_quote_chars. reflexivity.
Qed.

(** ** Property order *)

Section PropertyOrder.
Context {A B : Type}.

Definition index_step {C} (acc : list (Z * (string * C))) (kv : string * C) :=
  match array_index kv.1 with
  | Some i => insert_index i kv acc
  | None => acc
  end.

Lemma insert_index_perm {C} (i : Z) (x : C) (l : list (Z * C)) :
  map snd (insert_index i x l) ≡ₚ x :: map snd l.
Proof.
  induction l as [|[j y] l IH]; simpl; [done|].
  case_match; simpl; [done|]. rewrite IH. apply perm_swap.
Qed.

Lemma index_fold_perm (ps : list (string * A)) (acc : list (Z * (string * A))) :
  map snd (fold_left index_step ps acc) ≡ₚ
    map snd acc ++ filter (fun kv => array_index kv.1 <> None) ps.
Proof.
  revert acc. induction ps as [|kv ps IH]; intros acc; simpl; [by rewrite app_nil_r|].
  rewrite IH. unfold index_step. rewrite filter_cons. case_decide as Hi.
  - destruct (array_index kv.1); [|congruence].
    rewrite insert_index_perm. simpl. apply Permutation_middle.
  - destruct (array_index kv.1); [done|]. done.
Qed.

(** [OrdinaryOwnPropertyKeys] lists every property once. *)
Lemma own_property_order_perm (ps : list (string * A)) : own_property_order ps ≡ₚ ps.
Proof.
  unfold own_property_order. fold (@index_step A).
  rewrite index_fold_perm. simpl.
  etrans; [|apply (filter_app_complement (fun kv => array_index kv.1 <> None) ps)].
  apply Permutation_app_head, Permutation_refl', list_filter_iff. intros kv. split.
  - intros E. rewrite E. tauto.
  - intros H. destruct (array_index kv.1); [|done]. exfalso. by apply H.
Qed.

Definition map_index_entry (f : A -> B) (e : Z * (string * A)) : Z * (string * B) :=
  (e.1, (e.2.1, f e.2.2)).

Lemma insert_index_map (f : A -> B) (i : Z) (kv : string * A) (l : list (Z * (string * A))) :
  insert_index i (kv.1, f kv.2) (map (map_index_entry f) l) =
    map (map_index_entry f) (insert_index i kv l).
Proof.
  induction l as [|[j y] l IH]; simpl; [done|].
  case_match; simpl; [done|]. by rewrite IH.
Qed.

Lemma index_fold_map (f : A -> B) (ps : list (string * A)) (acc : list (Z * (string * A))) :
  fold_left index_step (map_values f ps) (map (map_index_entry f) acc) =
    map (map_index_entry f) (fold_left index_step ps acc).
Proof.
  revert acc. induction ps as [|kv ps IH]; intros acc; [done|].
  cbn [map_values map fold_left]. rewrite <- IH. f_equal. unfold index_step. simpl.
  destruct (array_index kv.1); [apply insert_index_map|done].
Qed.

(** The order depends on the keys only. *)
Lemma own_property_order_map (f : A -> B) (ps : list (string * A)) :
  own_property_order (map_values f ps) = map_values f (own_property_order ps).
Proof.
  unfold own_property_order, map_values. fold (@index_step A) (@index_step B).
  rewrite map_app. f_equal.
  - change (@nil (Z * (string * B))) with (map (map_index_entry f) []).
    fold (map_values f ps). rewrite index_fold_map, !map_map. done.
  - induction ps as [|kv ps IH]; [done|]. rewrite map_cons, !filter_cons. simpl.
    case_decide; simpl; by rewrite IH.
Qed.
End PropertyOrder.

(** ** The texts of arrays and objects *)

(** The text of an array element ([undefined] is written [null]) and of an
    object member. *)
Definition elem_text (w : jsval) : string := default "null" (stringify w).

Definition member_text (kw : string * jsval) : string :=
  QuoteJSONString kw.1 +:+ ":" +:+ default EmptyString (stringify kw.2).

Definition defined (kv : string * jsval) : bool := negb (is_undefined kv.2).

Lemma stringify_undefined (w : jsval) : stringify w = None <-> w = JUndefined.
Proof. destruct w as [| |[]| | | |]; simpl; split; congruence. Qed.

Lemma normalize_undefined (w : jsval) : is_undefined (normalize w) = is_undefined w.
Proof. destruct w; simpl; try done. unfold norm_number. by case_match. Qed.

Lemma stringify_array (vs : list jsval) :
  stringify (JArray vs) = Some ("[" +:+ join "," (map elem_text vs) +:+ "]").
Proof.
  reflexivity.
Qed.

Lemma members_defined (L : list (string * jsval)) :
  members (map_values stringify L) = map member_text (List.filter defined L).
Proof.
  induction L as [|[k w] L IH]; [done|]. unfold defined. simpl.
  destruct (stringify w) as [t|] eqn:E.
  - assert (is_undefined w = false) as -> by (destruct w; simpl in *; congruence).
    simpl. rewrite IH. unfold member_text. simpl. by rewrite E.
  - apply stringify_undefined in E as ->. exact IH.
Qed.

Lemma stringify_object (ps : list (string * jsval)) :
  stringify (JObject ps) =
    Some ("{" +:+ join "," (map member_text (List.filter defined (own_property_order ps))) +:+ "}").
Proof.
  rewrite <- members_defined, <- own_property_order_map. simpl. repeat f_equal.
  induction ps as [|[k w] ps IH]; [done|]. simpl. by rewrite IH.
Qed.

Lemma normalize_array (vs : list jsval) :
  normalize (JArray vs) = JArray (map (fun w => elem_or_null (normalize w)) vs).
Proof. reflexivity. Qed.

Lemma normalize_object (ps : list (string * jsval)) :
  normalize (JObject ps) = JObject (map_values normalize (List.filter defined (own_property_order ps))).
Proof.
  simpl. f_equal.
  assert ((fix go (ps : list (string * jsval)) : list (string * jsval) :=
             match ps with [] => [] | (k, w) :: ps' => (k, normalize w) :: go ps' end) ps
          = map_values normalize ps) as ->.
  { induction ps as [|[k w] ps IH]; [done|]. simpl. by rewrite IH. }
  rewrite own_property_order_map. generalize (own_property_order ps) as L.
  induction L as [|[k w] L IH]; [done|]. unfold defined in *. simpl.
  rewrite normalize_undefined. destruct (is_undefined w); simpl; by rewrite IH.
Qed.

(** ** The hypotheses, member by member *)

Lemma distinct_keys_NoDup (ks : list string) : distinct_keys ks = true -> NoDup ks.
Proof.
  induction ks as [|k ks IH]; simpl; [constructor|].
  intros [Hk%negb_true_iff%existsb_eqb_false Hks]%andb_true_iff. constructor; auto.
Qed.

Lemma json_wf_array (vs : list jsval) :
  json_wf (JArray vs) = true -> Forall (fun w => json_wf w = true) vs.
Proof. simpl. induction vs; [done|]. intros [? ?]%andb_true_iff. constructor; auto. Qed.

Lemma json_wf_object (ps : list (string * jsval)) :
  json_wf (JObject ps) = true -> NoDup (map fst ps) /\ Forall (fun kv => json_wf kv.2 = true) ps.
Proof.
  simpl. intros [Hd Hall]%andb_true_iff. split; [by apply distinct_keys_NoDup|].
  clear Hd. revert Hall. induction ps as [|[k w] ps IH]; [done|]. intros [? ?]%andb_true_iff.
  constructor; auto.
Qed.

Lemma json_numbers_ok_array (vs : list jsval) :
  json_numbers_ok (JArray vs) = true -> Forall (fun w => json_numbers_ok w = true) vs.
Proof. simpl. induction vs; [done|]. intros [? ?]%andb_true_iff. constructor; auto. Qed.

Lemma json_numbers_ok_object (ps : list (string * jsval)) :
  json_numbers_ok (JObject ps) = true -> Forall (fun kv => json_numbers_ok kv.2 = true) ps.
Proof.
  simpl. induction ps as [|[k w] ps IH]; [done|]. intros [? ?]%andb_true_iff. constructor; auto.
Qed.

Lemma set_property_fresh (acc : list (string * jsval)) (k : string) (v : jsval) :
  k ∉ map fst acc -> set_property acc k v = acc ++ [(k, v)].
Proof.
  induction acc as [|[k' v'] acc IH]; simpl; [done|]. intros [Hk Hacc]%not_elem_of_cons.
  rewrite (proj2 (String.eqb_neq k k') Hk). by rewrite IH.
Qed.

(** ** Where a value's text starts *)

(** A value's text starts with a character [skip_ws] keeps and that does
    not close an array. *)
Definition value_start (t : string) : Prop :=
  match t with
  | String c _ => is_json_ws c = false /\ Ascii.eqb c "]"%char = false
  | EmptyString => False
  end.

Lemma number_start (c : ascii) (r : string) :
  c = "-"%char \/ (48 <= nat_of_ascii c <= 57)%nat -> value_start (String c r).
Proof.
  intros [->|Hc]; [done|]. split.
  - unfold is_json_ws. repeat rewrite (proj2 (Nat.eqb_neq _ _)) by lia. reflexivity.
  - apply ascii_eqb_code. code_neq.
Qed.

Lemma elem_text_start (w : jsval) : json_numbers_ok w = true -> value_start (elem_text w).
Proof.
  destruct w as [| |[]|n| | |]; try (intros _; exact (conj eq_refl eq_refl)).
  unfold elem_text. simpl. destruct (PrimFloat.is_finite n); [|intros _; done].
  simpl. unfold number_text_ok. destruct (json_number (number_to_string n)) eqn:E; [|done].
  intros _. apply json_number_head in E as (c & r & -> & Hc). by apply number_start.
Qed.

Lemma join_length (l : list string) :
  Forall (fun s => s <> EmptyString) l -> (length l <= String.length (join "," l))%nat.
Proof.
  induction 1 as [|s l Hs Hl IH]; [simpl; lia|].
  destruct s as [|c s]; [done|]. destruct l as [|s' l]; [simpl; lia|].
  change (join "," (String c s :: s' :: l)) with (String c s +:+ String "," (join "," (s' :: l))).
  rewrite string_length_app. simpl in *. lia.
Qed.

(** ** The element and member loops *)

Section Loops.
Variable f : nat.

(** What the loops need of [parse_value f] on an element or member text. *)
Definition reads_back (t : string) (v : jsval) : Prop :=
  forall rest, value_delim rest -> (String.length (t +:+ rest) < f)%nat ->
  parse_value f (t +:+ rest) = Some (v, rest).

Lemma elems_loop_ok (vs : list jsval) (acc : list jsval) (g : nat) (rest : string) :
  Forall (fun w => reads_back (elem_text w) (elem_or_null (normalize w))) vs ->
  vs <> [] -> (length vs <= g)%nat ->
  (String.length (join "," (map elem_text vs) +:+ String "]" rest) < f)%nat ->
  elems_loop (parse_value f) g (join "," (map elem_text vs) +:+ String "]" rest) acc =
    Some (JArray (acc ++ map (fun w => elem_or_null (normalize w)) vs), rest).
Proof.
  revert acc g. induction vs as [|w vs IH]; intros acc g Hall Hne Hg Hf; [done|].
  apply Forall_cons in Hall as [Hw Hall].
  destruct g as [|g]; [simpl in Hg; lia|]. cbn [elems_loop].
  destruct vs as [|w' vs].
  - cbn [map join] in *. rewrite Hw by (simpl; auto || lia). done.
  - change (join "," (map elem_text (w :: w' :: vs))) with
      (elem_text w +:+ String "," (join "," (map elem_text (w' :: vs)))) in *.
    rewrite string_app_assoc, string_app_cons in *.
    rewrite Hw by (simpl; auto || lia). simpl.
    rewrite IH; [by rewrite <- app_assoc|done|done|simpl in *; lia|].
    string_lengths. lia.
Qed.

Lemma members_loop_ok (L acc : list (string * jsval)) (g : nat) (rest : string) :
  Forall (fun kw => reads_back (default EmptyString (stringify kw.2)) (normalize kw.2)) L ->
  NoDup (map fst acc ++ map fst L) ->
  L <> [] -> (length L <= g)%nat ->
  (String.length (join "," (map member_text L) +:+ String "}" rest) < f)%nat ->
  members_loop (parse_value f) g (join "," (map member_text L) +:+ String "}" rest) acc =
    Some (JObject (acc ++ map_values normalize L), rest).
Proof.
  revert acc g. induction L as [|[k w] L IH]; intros acc g Hall Hnd Hne Hg Hf; [done|].
  apply Forall_cons in Hall as [Hw Hall]. simpl in Hw.
  destruct g as [|g]; [simpl in Hg; lia|].
  assert (k ∉ map fst acc) as Hk.
  { intros Hin. rewrite map_cons in Hnd. apply NoDup_app in Hnd as (_ & Hdis & _).
    apply (Hdis k Hin). by left. }
  assert (forall X, member_text (k, w) +:+ X =
            String dquote (quote_chars k +:+ String dquote (String ":" (default EmptyString (stringify w) +:+ X)))) as Htext.
  { intros X. unfold member_text, QuoteJSONString. simpl. by autorewrite with js_rw. }
  cbn [members_loop]. destruct L as [|kw' L].
  - cbn [map join] in *. rewrite Htext. simpl.
    rewrite string_body_quote_chars. simpl.
    rewrite Hw by (simpl; auto || (rewrite Htext in Hf; string_lengths; lia)).
    simpl. by rewrite set_property_fresh.
  - change (join "," (map member_text ((k, w) :: kw' :: L))) with
      (member_text (k, w) +:+ String "," (join "," (map member_text (kw' :: L)))) in *.
    set (J := join "," (map member_text (kw' :: L))) in *.
    rewrite string_app_assoc, Htext in *. simpl.
    rewrite string_body_quote_chars. simpl.
    rewrite Hw by (simpl; auto || (string_lengths; lia)).
    simpl. rewrite set_property_fresh by done.
    rewrite IH; [by rewrite <- app_assoc|done| |done|simpl in *; lia|].
    + by rewrite map_app, <- app_assoc.
    + string_lengths. lia.
Qed.
End Loops.

(** ** The round trip, value by value *)

(** Whatever follows it, the text of [v] reads back as [normalize v]. *)
Definition roundtrips (v : jsval) : Prop :=
  forall t, stringify v = Some t -> forall f, reads_back f t (normalize v).

Lemma elem_or_null_normalize (w : jsval) :
  is_undefined w = false -> elem_or_null (normalize w) = normalize w.
Proof.
  intros Hw. rewrite <- normalize_undefined in Hw. by destruct (normalize w).
Qed.

Lemma elem_reads_back (w : jsval) (f : nat) :
  roundtrips w -> reads_back f (elem_text w) (elem_or_null (normalize w)).
Proof.
  intros Hw rest Hr Hf. unfold elem_text in *. destruct (stringify w) as [t|] eqn:E.
  - rewrite elem_or_null_normalize; [by apply Hw|].
    destruct w; simpl in *; congruence.
  - apply stringify_undefined in E as ->. destruct f as [|f]; [lia|]. apply parse_value_null.
Qed.

Lemma member_reads_back (kw : string * jsval) (f : nat) :
  roundtrips kw.2 -> defined kw = true ->
  reads_back f (default EmptyString (stringify kw.2)) (normalize kw.2).
Proof.
  intros Hw Hd. destruct (stringify kw.2) as [t|] eqn:E; [by apply Hw|].
  apply stringify_undefined in E. unfold defined in Hd. by rewrite E in Hd.
Qed.

Lemma join_cons_app (s : string) (l : list string) : exists y, join "," (s :: l) = s +:+ y.
Proof.
  destruct l as [|s' l]; [exists EmptyString; by rewrite string_app_nil_r|].
  eexists. reflexivity.
Qed.

(** The first character of a value's text is the first non-white-space
    character after it is written in front of anything. *)
Lemma skip_ws_value_start (s t : string) :
  value_start s -> exists c r, skip_ws (s +:+ t) = String c r /\ Ascii.eqb c "]"%char = false.
Proof.
  destruct s as [|c s]; [done|]. intros [Hws Hb]. exists c, (s +:+ t).
  rewrite string_app_cons. cbn [skip_ws]. by rewrite Hws.
Qed.

Lemma parse_array (vs : list jsval) :
  Forall (fun w => json_numbers_ok w = true /\ roundtrips w) vs -> roundtrips (JArray vs).
Proof.
  intros Hvs t Ht f rest Hr Hf. rewrite stringify_array in Ht. injection Ht as <-.
  rewrite normalize_array. destruct f as [|f]; [lia|].
  set (J := join "," (map elem_text vs)) in *.
  assert (("[" +:+ J +:+ "]") +:+ rest = String "[" (J +:+ String "]" rest)) as E.
  { by autorewrite with js_rw. }
  rewrite E in *. cbn [parse_value skip_ws]. simpl.
  destruct vs as [|w vs']; [reflexivity|].
  apply Forall_cons in Hvs as Hw. destruct Hw as [[Hnw _] _].
  destruct (join_cons_app (elem_text w) (map elem_text vs')) as [y Ey].
  destruct (skip_ws_value_start (elem_text w) (y +:+ String "]" rest)) as (c & r & Hs & Hc);
    [by apply elem_text_start|].
  change (join "," (elem_text w :: map elem_text vs')) with J in Ey.
  rewrite Ey, string_app_assoc, Hs, Hc, <- string_app_assoc, <- Ey.
  subst J. rewrite elems_loop_ok; [done| | done | | string_lengths; lia].
  - eapply Forall_impl; [exact Hvs|]. intros x [_ Hx]. by apply elem_reads_back.
  - transitivity (String.length (join "," (map elem_text (w :: vs')))); [|string_lengths; lia].
    rewrite <- (length_map elem_text). apply join_length, Forall_forall.
    intros s Hin. apply list_elem_of_In, in_map_iff in Hin as (x & <- & Hx).
    apply Forall_forall with (x := x) in Hvs as [Hnx _]; [|by apply list_elem_of_In].
    pose proof (elem_text_start x Hnx). by destruct (elem_text x).
Qed.

Lemma member_text_start (kw : string * jsval) (y : string) :
  member_text kw +:+ y = String dquote (quote_chars kw.1 +:+ String dquote (String ":" (default EmptyString (stringify kw.2) +:+ y))).
Proof. unfold member_text, QuoteJSONString. by autorewrite with js_rw. Qed.

Lemma parse_object (ps : list (string * jsval)) :
  NoDup (map fst ps) -> Forall (fun kv => roundtrips kv.2) ps -> roundtrips (JObject ps).
Proof.
  intros Hnd Hps t Ht f rest Hr Hf. rewrite stringify_object in Ht. injection Ht as <-.
  rewrite normalize_object. destruct f as [|f]; [lia|].
  set (L := List.filter defined (own_property_order ps)) in *.
  assert (forall kv, In kv L -> defined kv = true /\ roundtrips kv.2) as HL.
  { intros kv [Hin Hd]%filter_In. split; [done|].
    apply Forall_forall with (x := kv) in Hps; [done|].
    apply list_elem_of_In. eapply Permutation_in; [apply own_property_order_perm|exact Hin]. }
  set (J := join "," (map member_text L)) in *.
  assert (("{" +:+ J +:+ "}") +:+ rest = String "{" (J +:+ String "}" rest)) as E.
  { by autorewrite with js_rw. }
  rewrite E in *. cbn [parse_value skip_ws]. simpl.
  destruct L as [|kw L'] eqn:EL; [reflexivity|].
  destruct (join_cons_app (member_text kw) (map member_text L')) as [y Ey].
  change (join "," (member_text kw :: map member_text L')) with J in Ey.
  rewrite Ey, string_app_assoc, member_text_start. simpl.
  rewrite <- member_text_start, <- string_app_assoc, <- Ey. subst J.
  rewrite <- EL. rewrite members_loop_ok; [by rewrite EL| | | by rewrite EL | |].
  - apply Forall_forall. intros kv Hin%list_elem_of_In. rewrite EL in Hin. apply HL in Hin as [Hd Hkv].
    by apply member_reads_back.
  - simpl. apply NoDup_map_filter. by rewrite (Permutation_map fst (own_property_order_perm ps)).
  - rewrite EL. transitivity (String.length (join "," (map member_text (kw :: L'))));
      [|string_lengths; lia].
    rewrite <- (length_map member_text). apply join_length, Forall_forall.
    intros s Hin. apply list_elem_of_In, in_map_iff in Hin as (x & <- & _).
    by rewrite <- (string_app_nil_r (member_text x)), member_text_start.
  - rewrite EL. string_lengths. lia.
Qed.

Lemma parse_number (n : float) : json_numbers_ok (JNumber n) = true -> roundtrips (JNumber n).
Proof.
  intros Hnum t Ht f rest Hr Hf. destruct f as [|f]; [lia|].
  cbn [stringify normalize json_numbers_ok] in *. unfold norm_number.
  destruct (PrimFloat.is_finite n) eqn:Hfin; injection Ht as <-; [|apply parse_value_null].
  unfold number_text_ok in Hnum. destruct (json_number (number_to_string n)) as [[m [|]]|] eqn:E;
    try done.
  apply FloatAxioms.Leibniz.eqb_spec in Hnum as <-.
  destruct (json_number_head _ _ E) as (c & r & Hcr & Hc). rewrite Hcr in E |- *.
  rewrite string_app_cons, parse_value_number by done.
  rewrite <- string_app_cons, json_number_app, E by (by apply value_delim_num). reflexivity.
Qed.

Lemma parse_value_stringify (v : jsval) :
  json_wf v = true -> json_numbers_ok v = true -> roundtrips v.
Proof.
  induction v as [| |b|n|s|vs IH|ps IH] using jsval_ind'; intros Hwf Hnum.
  - by intros t Ht.
  - intros t [= <-] [|f] rest Hr Hf; [lia|]. apply parse_value_null.
  - intros t Ht [|f] rest Hr Hf; [lia|].
    destruct b; injection Ht as <-; [apply parse_value_true|apply parse_value_false].
  - by apply parse_number.
  - intros t [= <-] [|f] rest Hr Hf; [lia|]. apply parse_value_string.
  - apply parse_array. apply json_wf_array in Hwf. apply json_numbers_ok_array in Hnum.
    rewrite Forall_forall in IH, Hwf, Hnum |- *. intros w Hw. auto.
  - apply json_wf_object in Hwf as [Hnd Hwf]. apply json_numbers_ok_object in Hnum.
    apply parse_object; [done|].
    rewrite Forall_forall in IH, Hwf, Hnum |- *. intros kv Hkv. auto.
Qed.

(** * Theorems *)

(** C15. [JSON.parse(JSON.stringify(v))] gives back [normalize v]: for
    every value whose objects have distinct keys and whose finite numbers
    print to text that reads back, the text [stringify] writes is JSON
    that [JSON_parse] accepts, and the value it builds is [v] with
    [undefined] members dropped, [undefined] elements and non-finite
    numbers as [null], [-0] as [0] and object members in property order. *)
Theorem JSON_parse_stringify (v : jsval) (t : string) :
  json_wf v = true -> json_numbers_ok v = true -> stringify v = Some t ->
  JSON_parse t = Some (normalize v).
Proof.
  intros Hwf Hnum Ht. unfold JSON_parse.
  pose proof (parse_value_stringify v Hwf Hnum t Ht (S (String.length t)) EmptyString I) as H.
  rewrite string_app_nil_r in H. by rewrite H by lia.
Qed.

(** * Witnesses *)

(** A value with every case [normalize] handles: [-0], NaN, an
    [undefined] element and member, an array-index key after a plain one,
    a string with a quote and a line feed. *)
Definition demo_json : jsval :=
  JObject [("b", JNumber (parseFloat "-0"));
           ("1", JArray [JUndefined; JNumber PrimFloat.nan; JBool true]);
           ("a", JUndefined);
           ("s", JString (String dquote (String (ascii_of_nat 10) "x")));
           ("o", JObject [("k", JNull); ("n", JNumber (parseFloat "0.1"))])].

Lemma JSON_parse_stringify_witness :
  JSON_parse (default EmptyString (stringify demo_json)) =
    Some (JObject [("1", JArray [JNull; JNull; JBool true]);
                   ("b", JNumber PrimFloat.zero);
                   ("s", JString (String dquote (String (ascii_of_nat 10) "x")));
                   ("o", JObject [("k", JNull); ("n", JNumber (parseFloat "0.1"))])]).
Proof.
  change (Some (JObject [("1", JArray [JNull; JNull; JBool true]);
                   ("b", JNumber PrimFloat.zero);
                   ("s", JString (String dquote (String (ascii_of_nat 10) "x")));
                   ("o", JObject [("k", JNull); ("n", JNumber (parseFloat "0.1"))])]))
    with (Some (normalize demo_json)).
  apply JSON_parse_stringify; vm_compute; reflexivity.
Defined.
