(* ===== verification/CartModel.v ===== *)
(** * The cart data model and its aggregates

    The records of the source's types ([Product], [CartItem], [Cart]; their
    file [src/types/product.ts] is not in the repository, so their fields
    are those the code reads and writes), the item object the hook builds
    (useCart.ts:21-30), the cart object [WooCommerceAPI.updateCart] builds
    (woocommerce.ts:108-116), their JSON form as [JSON.stringify] sees it
    (woocommerce.ts:118), and the cart invariant of the spec (section 3):
    the aggregates are the folds of the items and every line total is
    [price * quantity]. *)

From S2P Require Import Prelude JsNumber Json.

Local Open Scope js_scope.

Module Product.
(** A catalog product as the REST API returns it: the fields the cart
    reads ([id], [name], [price] as decimal text) and the others,
    carried verbatim in [rest]. *)
Record t := mk {
  id : float;
  name : string;
  price : string;
  rest : list (string * jsval)
}.

Definition to_json (p : t) : jsval :=
  JObject (("id", JNumber (id p)) :: ("name", JString (name p))
           :: ("price", JString (price p)) :: rest p).
End Product.

Module CartItem.
(** A line of the cart, with the fields of the literal at
    useCart.ts:21-30; [variation] is [JUndefined] when the caller passed
    none. *)
Record t := mk {
  key : string;
  id : float;
  quantity : float;
  name : string;
  price : float;
  line_total : float;
  variation : jsval;
  product_data : Product.t
}.

(** The object in its property order (the literal's order, kept by the
    in-place update of useCart.ts:17-19 and by the spread of
    useCart.ts:51-55). *)
Definition to_json (it : t) : jsval :=
  JObject [("key", JString (key it)); ("id", JNumber (id it));
           ("quantity", JNumber (quantity it)); ("name", JString (name it));
           ("price", JNumber (price it)); ("line_total", JNumber (line_total it));
           ("variation", variation it); ("product_data", Product.to_json (product_data it))].

(** The line total the code computes: [price * quantity]. *)
Definition line_ok (it : t) : Prop := line_total it = (price it * quantity it)%js.
End CartItem.

Module Cart.
Record t := mk {
  items : list CartItem.t;
  item_count : float;
  subtotal : float;
  shipping_total : float;
  tax_total : float;
  total : float
}.

(** The object literal of woocommerce.ts:108-115, in its property order. *)
Definition to_json (c : t) : jsval :=
  JObject [("items", JArray (map CartItem.to_json (items c)));
           ("item_count", JNumber (item_count c)); ("subtotal", JNumber (subtotal c));
           ("shipping_total", JNumber (shipping_total c)); ("tax_total", JNumber (tax_total c));
           ("total", JNumber (total c))].
End Cart.

(** [items.reduce((sum, item) => sum + item.quantity, 0)] (woocommerce.ts:110). *)
Definition count_items (items : list CartItem.t) : float :=
  reduce (fun sum item => sum + CartItem.quantity item) items js_zero.

(** [items.reduce((sum, item) => sum + (item.price * item.quantity), 0)]
    (woocommerce.ts:111). *)
Definition sum_subtotal (items : list CartItem.t) : float :=
  reduce (fun sum item => sum + CartItem.price item * CartItem.quantity item) items js_zero.

(** The cart [updateCart] builds from the item list, before it is stored
    (woocommerce.ts:108-116): the aggregates with [0] for shipping and tax,
    then [cart.total = cart.subtotal + cart.shipping_total +
    cart.tax_total]. *)
Definition build_cart (items : list CartItem.t) : Cart.t :=
  let c := Cart.mk items (count_items items) (sum_subtotal items) js_zero js_zero js_zero in
  Cart.mk (Cart.items c) (Cart.item_count c) (Cart.subtotal c)
          (Cart.shipping_total c) (Cart.tax_total c)
          (Cart.subtotal c + Cart.shipping_total c + Cart.tax_total c).

(** The literal default of [getCartFromStorage] (woocommerce.ts:124-131). *)
Definition empty_cart : Cart.t := Cart.mk [] js_zero js_zero js_zero js_zero js_zero.

(** The cart invariant of the spec (section 3): the aggregates are those
    [updateCart] computes from the items, and every line total is
    [price * quantity]. *)
Definition cart_ok (c : Cart.t) : Prop :=
  c = build_cart (Cart.items c) /\ Forall CartItem.line_ok (Cart.items c).

(** ** Lemmas *)

(** A left sum that meets NaN is NaN. *)
Lemma reduce_add_nan {A} (f : A -> float) (l : list A) (acc : float) :
  (acc = PrimFloat.nan \/ exists x, x ∈ l /\ f x = PrimFloat.nan) ->
  reduce (fun s x => s + f x) l acc = PrimFloat.nan.
Proof.
  unfold reduce. revert acc. induction l as [|x l IH]; intros acc Hn; simpl.
  - destruct Hn as [->|(x & Hx & _)]; [done|by apply not_elem_of_nil in Hx].
  - apply IH. destruct Hn as [->|(y & [->|Hy]%elem_of_cons & Hf)].
    + left. apply js_add_nan_l.
    + left. rewrite Hf. apply js_add_nan_r.
    + right. eauto.
Qed.
