(* ===== verification/WooCommerceCart.v ===== *)
(** * The cart persistence of [WooCommerceAPI]

    [localStorage] as the browser provides it (a string-to-string map with
    a per-origin quota; [setItem] throws [QuotaExceededError] when the
    write would exceed it) and [WooCommerceAPI.updateCart]
    (woocommerce.ts:105-120): recompute the aggregates, write
    [JSON.stringify(cart)] under ['afpets_cart'], return the cart; and
    [WooCommerceAPI.getCartFromStorage] (woocommerce.ts:122-132), which
    reads the text back with [JSON.parse].  The round-trip theorem of
    [JsonRoundtrip] gives what a reload after a save sees. *)

From S2P Require Import Prelude JsNumber Json JsonParse JsonRoundtrip CartModel.

Module LocalStorage.
Record t := mk {
  entries : gmap string string;
  quota : N
}.

(** The storage an origin uses: the lengths of its keys and values. *)
Definition used (m : gmap string string) : N :=
  map_fold (fun k v acc => (N.of_nat (String.length k) + N.of_nat (String.length v) + acc)%N) 0%N m.

(** The browser never lets the storage exceed the quota. *)
Definition fits (s : t) : Prop := (used (entries s) <= quota s)%N.

Definition getItem (k : string) (s : t) : option string := entries s !! k.

(** [setItem(k, v)]: the write happens only when the storage it leaves
    fits in the quota; otherwise it throws and nothing changes. *)
Definition setItem (k v : string) (s : t) : outcome t :=
  let m := <[k := v]> (entries s) in
  if N.leb (used m) (quota s) then Resolved (mk m (quota s))
  else Rejected QuotaExceededError.
End LocalStorage.

(** The key of the persisted cart (woocommerce.ts:118, 123). *)
Definition CART_KEY : string := "afpets_cart".

(** [String(x)] of the result of [JSON.stringify], as [setItem] coerces its
    argument. *)
Definition to_js_string (s : option string) : string := default "undefined" s.

(** The text [updateCart] writes for a cart. *)
Definition cart_text (c : Cart.t) : string := to_js_string (stringify (Cart.to_json c)).

(** [WooCommerceAPI.updateCart(items)]: build the cart, write its JSON text
    to [localStorage], resolve to the cart; a throwing [setItem] rejects
    the promise before the cart is returned. *)
Definition updateCart (items : list CartItem.t) (ls : LocalStorage.t)
    : outcome (Cart.t * LocalStorage.t) :=
  let cart := build_cart items in
  match LocalStorage.setItem CART_KEY (cart_text cart) ls with
  | Resolved ls' => Resolved (cart, ls')
  | Rejected e => Rejected e
  end.

(** The object literal [getCartFromStorage] returns when nothing is
    stored (woocommerce.ts:124-131), in its property order. *)
Definition default_cart_json : jsval :=
  JObject [("items", JArray []); ("item_count", JNumber js_zero); ("total", JNumber js_zero);
           ("subtotal", JNumber js_zero); ("shipping_total", JNumber js_zero);
           ("tax_total", JNumber js_zero)].

(** [WooCommerceAPI.getCartFromStorage()]: [getItem] gives [null] for a
    missing key; [null] and the empty string are falsy and give the
    default; any other text goes to [JSON.parse], which throws a
    [SyntaxError] on text that is not JSON.  The result is the parsed value
    itself: the [Cart] type of the source is not checked at run time. *)
Definition getCartFromStorage (ls : LocalStorage.t) : outcome jsval :=
  match LocalStorage.getItem CART_KEY ls with
  | Some cartData =>
      if String.eqb cartData EmptyString then Resolved default_cart_json
      else match JSON_parse cartData with
           | Some v => Resolved v
           | None => Rejected SyntaxError
           end
  | None => Resolved default_cart_json
  end.

(** [localStorage] holds the JSON text of the cart [c]. *)
Definition persisted (c : Cart.t) (ls : LocalStorage.t) : Prop :=
  LocalStorage.getItem CART_KEY ls = Some (cart_text c).

(** ** Lemmas *)

Lemma setItem_resolved k v s s' :
  LocalStorage.setItem k v s = Resolved s' ->
  LocalStorage.entries s' = <[k := v]> (LocalStorage.entries s) /\
  LocalStorage.quota s' = LocalStorage.quota s /\ LocalStorage.fits s'.
Proof.
  unfold LocalStorage.setItem, LocalStorage.fits.
  destruct (N.leb_spec (LocalStorage.used (<[k:=v]> (LocalStorage.entries s)))
              (LocalStorage.quota s)); intros; simplify_eq/=; auto.
Qed.

Lemma setItem_getItem k v s s' :
  LocalStorage.setItem k v s = Resolved s' -> LocalStorage.getItem k s' = Some v.
Proof.
  intros (He & _ & _)%setItem_resolved. unfold LocalStorage.getItem.
  rewrite He. apply lookup_insert_eq.
Qed.

(** Writing the value a key already holds succeeds and changes nothing. *)
Lemma setItem_same k v s :
  LocalStorage.fits s -> LocalStorage.getItem k s = Some v ->
  LocalStorage.setItem k v s = Resolved s.
Proof.
  destruct s as [m q]. unfold LocalStorage.fits, LocalStorage.getItem, LocalStorage.setItem; simpl.
  intros Hfit Hk. rewrite (insert_id m k v Hk).
  destruct (N.leb_spec (LocalStorage.used m) q); [done|lia].
Qed.

(** [updateCart] resolves to the cart [build_cart items] exactly when the
    write of its text succeeds. *)
Lemma updateCart_cases items ls :
  (exists ls', LocalStorage.setItem CART_KEY (cart_text (build_cart items)) ls = Resolved ls' /\
               updateCart items ls = Resolved (build_cart items, ls')) \/
  (exists e, LocalStorage.setItem CART_KEY (cart_text (build_cart items)) ls = Rejected e /\
             updateCart items ls = Rejected e).
Proof.
  unfold updateCart.
  destruct (LocalStorage.setItem CART_KEY (cart_text (build_cart items)) ls); eauto.
Qed.

(** The text [updateCart] writes is the [JSON.stringify] text of the cart
    object, never the empty string. *)
Lemma cart_text_stringify (c : Cart.t) :
  stringify (Cart.to_json c) = Some (cart_text c) /\ String.eqb (cart_text c) EmptyString = false.
Proof. split; reflexivity. Qed.

(** A reload after a save gives the saved cart back as [JSON.parse]
    builds it: once [updateCart items] has resolved to [c],
    [getCartFromStorage] resolves to [normalize (Cart.to_json c)], provided
    the objects of the cart have distinct keys and its finite numbers print
    to text that reads back. *)
Lemma getCartFromStorage_after_updateCart (items : list CartItem.t) (ls ls' : LocalStorage.t)
    (c : Cart.t) :
  updateCart items ls = Resolved (c, ls') ->
  json_wf (Cart.to_json c) = true -> json_numbers_ok (Cart.to_json c) = true ->
  getCartFromStorage ls' = Resolved (normalize (Cart.to_json c)).
Proof.
  unfold updateCart. destruct (LocalStorage.setItem _ _ ls) as [ls1|] eqn:E; [|done].
  intros [= <- <-] Hwf Hnum. unfold getCartFromStorage.
  rewrite (setItem_getItem _ _ _ _ E). destruct (cart_text_stringify (build_cart items)) as [Hs ->].
  unfold JSON_parse.
  pose proof (parse_value_stringify _ Hwf Hnum _ Hs (S (String.length (cart_text (build_cart items))))
                EmptyString I) as H.
  rewrite string_app_nil_r in H. by rewrite H by lia.
Qed.

(** ** Theorems *)

(** C17. The reload throws exactly on a stored entry that is not JSON:
    [getCartFromStorage] rejects if and only if ['afpets_cart'] holds a
    non-empty text that [JSON.parse] refuses, and then with a
    [SyntaxError], which the [useState] initializer of useCart.ts:6 does
    not catch.  A missing or empty entry gives the default cart and any
    JSON text its parsed value.  The spec only says what [load()] does
    when nothing is stored. *)
Theorem getCartFromStorage_corrupt (ls : LocalStorage.t) (e : js_error) :
  getCartFromStorage ls = Rejected e <->
  e = SyntaxError /\
  exists t, LocalStorage.getItem CART_KEY ls = Some t /\ t <> EmptyString /\ JSON_parse t = None.
Proof.
  unfold getCartFromStorage. destruct (LocalStorage.getItem CART_KEY ls) as [t|].
  2:{ split; [done|]. by intros (_ & t & ? & _). }
  destruct (String.eqb_spec t EmptyString) as [->|Hne].
  { split; [done|]. by intros (_ & t' & [= <-] & ? & _). }
  destruct (JSON_parse t) eqn:Ht; split.
  - done.
  - intros (_ & t' & [= <-] & _ & H). congruence.
  - intros [= <-]. eauto.
  - by intros (-> & _).
Qed.

(** * Witnesses *)

(** What [setItem] stores for an object written without
    [JSON.stringify]. *)
Lemma getCartFromStorage_corrupt_witness :
  getCartFromStorage (LocalStorage.mk {[CART_KEY := "[object Object]"]} 5242880%N) = Rejected SyntaxError.
Proof.
  apply getCartFromStorage_corrupt. split; [done|]. exists "[object Object]".
  split_and!; [reflexivity|discriminate|vm_compute; reflexivity].
Defined.
