(* ===== verification/Rehydrate.v ===== *)
(** * Reading the stored cart back into the hook's state

    [getCartFromStorage] returns [JSON.parse(cartData)] under the type
    [Cart]; TypeScript checks nothing at run time, and the hook then reads
    the fields [items], [item_count], ... and, in each line, [key], [id],
    [quantity], [price], [variation], ... of that value.  [cart_of_json]
    reads a parsed value as the records of [CartModel] the same way, a
    missing property being [undefined]; it fails on a value that has
    another shape (a state the typed model does not represent).

    [load_state] is the initializer of [useState] (useCart.ts:6) and the
    mount effect (useCart.ts:69-71).  The theorems show that a reload after
    a save gives the saved cart back when its values survive JSON:
    finite numbers other than [-0], a variation that is [undefined] or a
    plain JSON value, product data that is plain JSON. *)

From S2P Require Import Prelude JsNumber Json JsonParse JsonRoundtrip CartModel WooCommerceCart.

(** [obj[k]] on an object built by [JSON.parse]: the value of the
    property, [undefined] when there is none. *)
Definition get_prop (k : string) (ps : list (string * jsval)) : jsval :=
  match List.find (fun kv => String.eqb kv.1 k) ps with
  | Some kv => kv.2
  | None => JUndefined
  end.

Definition as_number (v : jsval) : option float :=
  match v with JNumber n => Some n | _ => None end.

Definition as_string (v : jsval) : option string :=
  match v with JString s => Some s | _ => None end.

(** The fields of [Product] the code reads; the others are carried in
    [Product.rest]. *)
Definition product_fields : list string := ["id"; "name"; "price"].

Definition product_of_json (v : jsval) : option Product.t :=
  match v with
  | JObject ps =>
      id ← as_number (get_prop "id" ps);
      name ← as_string (get_prop "name" ps);
      price ← as_string (get_prop "price" ps);
      Some (Product.mk id name price
              (List.filter (fun kv => negb (existsb (String.eqb kv.1) product_fields)) ps))
  | _ => None
  end.

Definition item_of_json (v : jsval) : option CartItem.t :=
  match v with
  | JObject ps =>
      key ← as_string (get_prop "key" ps);
      id ← as_number (get_prop "id" ps);
      quantity ← as_number (get_prop "quantity" ps);
      name ← as_string (get_prop "name" ps);
      price ← as_number (get_prop "price" ps);
      line_total ← as_number (get_prop "line_total" ps);
      pd ← product_of_json (get_prop "product_data" ps);
      Some (CartItem.mk key id quantity name price line_total (get_prop "variation" ps) pd)
  | _ => None
  end.

Definition cart_of_json (v : jsval) : option Cart.t :=
  match v with
  | JObject ps =>
      items ← (match get_prop "items" ps with JArray vs => mapM item_of_json vs | _ => None end);
      item_count ← as_number (get_prop "item_count" ps);
      subtotal ← as_number (get_prop "subtotal" ps);
      shipping_total ← as_number (get_prop "shipping_total" ps);
      tax_total ← as_number (get_prop "tax_total" ps);
      total ← as_number (get_prop "total" ps);
      Some (Cart.mk items item_count subtotal shipping_total tax_total total)
  | _ => None
  end.

(** The hook's first state ([useState(() => getCartFromStorage())], and
    the same read in the mount effect): [None] when the parsed value is
    not a cart of the model. *)
Definition load_state (ls : LocalStorage.t) : outcome (option Cart.t) :=
  match getCartFromStorage ls with
  | Resolved v => Resolved (cart_of_json v)
  | Rejected e => Rejected e
  end.

(** ** Values that survive JSON *)

(** A finite number other than [-0]. *)
Definition number_plain (n : float) : bool := jsval_eqb (norm_number n) (JNumber n).

(** A value that [JSON.parse(JSON.stringify(_))] gives back unchanged. *)
Definition value_plain (v : jsval) : bool := jsval_eqb (normalize v) v.

Definition item_plain (it : CartItem.t) : bool :=
  number_plain (CartItem.id it) && number_plain (CartItem.quantity it) &&
  number_plain (CartItem.price it) && number_plain (CartItem.line_total it) &&
  (is_undefined (CartItem.variation it) || value_plain (CartItem.variation it)) &&
  value_plain (Product.to_json (CartItem.product_data it)).

Definition cart_plain (c : Cart.t) : bool :=
  forallb item_plain (Cart.items c) &&
  number_plain (Cart.item_count c) && number_plain (Cart.subtotal c) &&
  number_plain (Cart.shipping_total c) && number_plain (Cart.tax_total c) &&
  number_plain (Cart.total c).

(** * Lemmas *)

(** ** Objects without array-index keys *)

Lemma own_property_order_noindex {A} (ps : list (string * A)) :
  Forall (fun kv => array_index kv.1 = None) ps -> own_property_order ps = ps.
Proof.
  intros Hps. unfold own_property_order. fold (@index_step A).
  assert (forall acc, fold_left index_step ps acc = acc) as ->.
  { induction Hps as [|kv ps Hkv _ IH]; intros acc; [done|]. simpl.
    unfold index_step at 2. rewrite Hkv. apply IH. }
  simpl. induction Hps as [|kv ps Hkv _ IH]; [done|].
  rewrite filter_cons, decide_True by done. by rewrite IH.
Qed.

(** [JSON.parse(JSON.stringify(o))] for an object [o] none of whose keys is
    an array index: its members in order, the [undefined] ones dropped. *)
Lemma normalize_object_noindex (ps : list (string * jsval)) :
  Forall (fun kv => array_index kv.1 = None) ps ->
  normalize (JObject ps) = JObject (map_values normalize (List.filter defined ps)).
Proof. intros Hps. by rewrite normalize_object, own_property_order_noindex. Qed.

Lemma normalize_number_plain (n : float) : number_plain n = true -> normalize (JNumber n) = JNumber n.
Proof. apply jsval_eqb_spec. Qed.

Lemma value_plain_normalize (v : jsval) : value_plain v = true -> normalize v = v.
Proof. apply jsval_eqb_spec. Qed.

(** ** Reading the records back *)

(** The keys of an object with distinct keys that starts with [id],
    [name], [price]: the others are none of them. *)
Lemma rest_not_product_field (p : Product.t) :
  json_wf (Product.to_json p) = true ->
  List.filter (fun kv => negb (existsb (String.eqb kv.1) product_fields)) (Product.rest p) =
    Product.rest p.
Proof.
  intros [Hnd _]%json_wf_object. simpl in Hnd.
  apply NoDup_cons in Hnd as [Hid Hnd]. apply NoDup_cons in Hnd as [Hname Hnd].
  apply NoDup_cons in Hnd as [Hprice _].
  apply filter_keep_all, Forall_forall. intros [k v] Hkv%list_elem_of_In. simpl.
  assert (k ∈ map fst (Product.rest p)) as Hk.
  { apply list_elem_of_In, in_map_iff. by exists (k, v). }
  destruct (String.eqb_spec k "id") as [->|].
  { contradict Hid. by do 2 (apply elem_of_cons; right). }
  destruct (String.eqb_spec k "name") as [->|].
  { contradict Hname. by apply elem_of_cons; right. }
  by destruct (String.eqb_spec k "price") as [->|].
Qed.

Lemma product_of_json_to_json (p : Product.t) :
  json_wf (Product.to_json p) = true -> product_of_json (Product.to_json p) = Some p.
Proof.
  intros Hwf. pose proof (rest_not_product_field p Hwf) as Hrest.
  destruct p as [id name price rest]. simpl in *. by rewrite Hrest.
Qed.

(** ** [obj[k]] *)

Lemma get_prop_cons_ne k kv ps : kv.1 <> k -> get_prop k (kv :: ps) = get_prop k ps.
Proof. intros Hne. unfold get_prop. simpl. by destruct (String.eqb_spec kv.1 k). Qed.

Lemma get_prop_cons_eq k v ps : get_prop k ((k, v) :: ps) = v.
Proof. unfold get_prop. simpl. by rewrite String.eqb_refl. Qed.

Lemma get_prop_absent k ps : k ∉ map fst ps -> get_prop k ps = JUndefined.
Proof.
  induction ps as [|[k' v] ps IH]; [done|]. cbn [map fst]. rewrite not_elem_of_cons.
  intros [Hne Hk]. rewrite get_prop_cons_ne by done. auto.
Qed.

(** Reading a property of the parsed object is normalizing the property
    of the original one; a dropped [undefined] member reads [undefined]
    again. *)
Lemma get_prop_filter_defined k ps : NoDup (map fst ps) ->
  get_prop k (map_values normalize (List.filter defined ps)) = normalize (get_prop k ps).
Proof.
  unfold map_values. induction ps as [|[k' v] ps IH]; [done|]. cbn [map fst].
  intros [Hk' Hnd]%NoDup_cons. cbn [List.filter]. unfold defined at 1. cbn [snd].
  destruct (String.eqb_spec k' k) as [->|Hne].
  - rewrite get_prop_cons_eq. destruct (is_undefined v) eqn:Hu; cbn [negb map fst snd].
    + rewrite IH, get_prop_absent by done. by destruct v.
    + by rewrite get_prop_cons_eq.
  - rewrite get_prop_cons_ne by done.
    destruct (is_undefined v); cbn [negb map fst snd]; [|rewrite get_prop_cons_ne by done]; auto.
Qed.

Lemma get_prop_normalize ps : NoDup (map fst ps) -> Forall (fun kv => array_index kv.1 = None) ps ->
  exists ps', normalize (JObject ps) = JObject ps' /\
              forall k, get_prop k ps' = normalize (get_prop k ps).
Proof.
  intros Hnd Hidx. rewrite normalize_object_noindex by done.
  eexists; split; [done|]. intros k. by apply get_prop_filter_defined.
Qed.

Lemma normalize_defined_or_plain v : is_undefined v || value_plain v = true -> normalize v = v.
Proof. intros [Hu|Hp]%orb_true_iff; [by destruct v|by apply value_plain_normalize]. Qed.

(** Reading the fields of a parsed record literal whose keys are not
    array indices: each [obj[k]] becomes the normalized field. *)
Local Ltac read_fields Hwf :=
  let Hnd := fresh "Hnd" in let Hall := fresh "Hall" in let Hget := fresh "Hget" in
  pose proof Hwf as [Hnd Hall]%json_wf_object;
  destruct (get_prop_normalize _ Hnd) as (? & -> & Hget); [repeat constructor|];
  rewrite !Hget; cbn -[normalize];
  repeat (apply Forall_cons in Hall as [? Hall]); cbn [snd] in *;
  rewrite ?normalize_number_plain by done.

Local Ltac split_plain H := repeat (apply andb_true_iff in H as [H ?]).

Lemma item_roundtrip (it : CartItem.t) :
  item_plain it = true -> json_wf (CartItem.to_json it) = true ->
  item_of_json (normalize (CartItem.to_json it)) = Some it.
Proof.
  destruct it as [key id q name price lt var pd]. intros Hp Hwf.
  unfold item_plain in Hp; cbn in Hp. split_plain Hp.
  unfold item_of_json, CartItem.to_json in *; cbn [CartItem.key CartItem.id CartItem.quantity
    CartItem.name CartItem.price CartItem.line_total CartItem.variation CartItem.product_data] in *.
  read_fields Hwf.
  rewrite (value_plain_normalize (Product.to_json pd)), product_of_json_to_json by done.
  by rewrite normalize_defined_or_plain.
Qed.

Lemma items_roundtrip items : forallb item_plain items = true ->
  Forall (fun w => json_wf w = true) (map CartItem.to_json items) ->
  mapM item_of_json (map (fun w => elem_or_null (normalize w)) (map CartItem.to_json items)) =
    Some items.
Proof.
  induction items as [|it items IH]; [done|]. cbn [forallb map].
  intros [Hit Hits]%andb_true_iff [Hwf Hwfs]%Forall_cons.
  rewrite elem_or_null_normalize by reflexivity. cbn [mapM].
  by rewrite item_roundtrip, IH.
Qed.

(** The typed reading of the parsed cart object is the cart. *)
Lemma cart_roundtrip (c : Cart.t) : cart_plain c = true -> json_wf (Cart.to_json c) = true ->
  cart_of_json (normalize (Cart.to_json c)) = Some c.
Proof.
  destruct c as [items n sub ship tax tot]. intros Hp Hwf.
  unfold cart_plain in Hp; cbn in Hp. split_plain Hp.
  unfold cart_of_json, Cart.to_json in *; cbn [Cart.items Cart.item_count Cart.subtotal
    Cart.shipping_total Cart.tax_total Cart.total] in *.
  read_fields Hwf.
  by rewrite normalize_array, items_roundtrip by auto using json_wf_array.
Qed.

(** A cart whose [item_count] is NaN is stored with [null] there, which
    the typed reading refuses. *)
Lemma cart_of_json_nan_count (c : Cart.t) :
  json_wf (Cart.to_json c) = true -> Cart.item_count c = PrimFloat.nan ->
  cart_of_json (normalize (Cart.to_json c)) = None.
Proof.
  destruct c as [items n sub ship tax tot]. cbn [Cart.item_count]. intros Hwf ->.
  unfold Cart.to_json in *. cbn [Cart.items Cart.item_count Cart.subtotal Cart.shipping_total
    Cart.tax_total Cart.total] in *.
  pose proof Hwf as [Hnd _]%json_wf_object.
  destruct (get_prop_normalize _ Hnd) as (ps' & -> & Hget); [repeat constructor|].
  unfold cart_of_json. rewrite (Hget "item_count").
  by destruct (match get_prop "items" ps' with JArray vs => mapM item_of_json vs | _ => None end).
Qed.

(** The hook's first state throws exactly on a stored entry that is not
    JSON, with a [SyntaxError]. *)
Lemma load_state_rejected (ls : LocalStorage.t) (e : js_error) :
  load_state ls = Rejected e <->
  e = SyntaxError /\
  exists t, LocalStorage.getItem CART_KEY ls = Some t /\ t <> EmptyString /\ JSON_parse t = None.
Proof.
  unfold load_state, getCartFromStorage. destruct (LocalStorage.getItem CART_KEY ls) as [t|].
  2:{ split; [done|]. by intros (_ & t & ? & _). }
  destruct (String.eqb_spec t EmptyString) as [->|Hne].
  { split; [done|]. by intros (_ & t' & [= <-] & ? & _). }
  destruct (JSON_parse t) eqn:Ht; split.
  - done.
  - intros (_ & t' & [= <-] & _ & H). congruence.
  - intros [= <-]. eauto.
  - by intros (-> & _).
Qed.

(** ** Theorems *)

(** C16. A reload after a save gives the hook the saved cart: once
    [updateCart items] has resolved to [c] and stored [ls'], the state a
    hook mounted over [ls'] starts with ([useState(() =>
    getCartFromStorage())], useCart.ts:6) is [c] itself, read back field by
    field, when the cart's objects have distinct keys, its numbers print
    to text that reads back, and its values survive JSON
    ([cart_plain]). *)
Theorem load_after_updateCart (items : list CartItem.t) (ls ls' : LocalStorage.t) (c : Cart.t) :
  updateCart items ls = Resolved (c, ls') ->
  json_wf (Cart.to_json c) = true -> json_numbers_ok (Cart.to_json c) = true ->
  cart_plain c = true ->
  load_state ls' = Resolved (Some c).
Proof.
  intros Hup Hwf Hnum Hplain. unfold load_state.
  rewrite (getCartFromStorage_after_updateCart items ls ls' c Hup Hwf Hnum).
  by rewrite cart_roundtrip.
Qed.

(** * Witnesses *)

Definition empty_storage : LocalStorage.t := LocalStorage.mk ∅ 5242880%N.

Definition demo_product : Product.t := Product.mk (parseFloat "2") "Leash" "5.50" [].

Definition demo_item : CartItem.t :=
  CartItem.mk "2-1736380000000" (parseFloat "2") (parseFloat "3") "Leash" (parseFloat "5.50")
              (parseFloat "16.5") JUndefined demo_product.

Definition demo_saved : Cart.t * LocalStorage.t :=
  match updateCart [demo_item] empty_storage with
  | Resolved r => r
  | Rejected _ => (empty_cart, empty_storage)
  end.

Lemma load_after_updateCart_witness : load_state demo_saved.2 = Resolved (Some demo_saved.1).
Proof.
  apply (load_after_updateCart [demo_item] empty_storage); vm_compute; reflexivity.
Defined.
