(* ===== verification/UseCart.v ===== *)
(** * The [useCart] hook

    The hook of useCart.ts as explicit state passing: a [World] is the
    hook's React state [cart] and the browser's [localStorage].  A handler
    builds the new item list from the current [cart.items], awaits
    [WooCommerceAPI.updateCart] on it and, when that resolves, sets the
    state to the returned cart ([setCart(updatedCart)]); when it rejects
    (a full storage), the handler's promise rejects and [setCart] is not
    called.  The state is then as it was, except after a merge: the array
    copy [[...cart.items]] shares its item objects with the state, and
    [addToCart] mutates the merged line in place before the write
    ([with_items]).  Handlers run to completion one at a time (spec,
    section 5), so a session is a list of calls folded over the world. *)

From S2P Require Import Prelude JsNumber Json CartModel WooCommerceCart.

Local Open Scope js_scope.

Record World := mkWorld {
  cart : Cart.t;
  storage : LocalStorage.t
}.

(** [const updatedCart = await WooCommerceAPI.updateCart(newItems);
    setCart(updatedCart);] *)
Definition commit (w : World) (newItems : list CartItem.t) : World * outcome unit :=
  match updateCart newItems (storage w) with
  | Resolved (c, ls) => (mkWorld c ls, Resolved tt)
  | Rejected e => (w, Rejected e)
  end.

(** ** [addToCart(product, quantity = 1, variation?)] (useCart.ts:8-36) *)

(** The [findIndex] predicate of useCart.ts:10-11. *)
Definition same_line (product : Product.t) (variation : jsval) (item : CartItem.t) : bool :=
  (CartItem.id item === Product.id product) && same_json (CartItem.variation item) variation.

(** The new line of useCart.ts:21-30; [now] is the value of [Date.now()]. *)
Definition new_item (product : Product.t) (quantity : float) (variation : jsval) (now : float)
    : CartItem.t :=
  CartItem.mk (number_to_string (Product.id product) +:+ "-" +:+ number_to_string now)
    (Product.id product) quantity (Product.name product)
    (parseFloat (Product.price product))
    (parseFloat (Product.price product) * quantity)
    variation product.

(** useCart.ts:17-19: [quantity += quantity], then [line_total = quantity *
    price] with the new quantity. *)
Definition bump (quantity : float) (it : CartItem.t) : CartItem.t :=
  let q := CartItem.quantity it + quantity in
  CartItem.mk (CartItem.key it) (CartItem.id it) q (CartItem.name it) (CartItem.price it)
    (q * CartItem.price it) (CartItem.variation it) (CartItem.product_data it).

(** The [newItems] of useCart.ts:9-32. *)
Definition add_items (items : list CartItem.t) (product : Product.t) (quantity : float)
    (variation : jsval) (now : float) : list CartItem.t :=
  let existingItemIndex := findIndex (same_line product variation) items in
  if (0 <=? existingItemIndex)%Z then alter (bump quantity) (Z.to_nat existingItemIndex) items
  else items ++ [new_item product quantity variation now].

(** The default parameter [quantity: number = 1]: an omitted (or
    [undefined]) quantity is [1]. *)
Definition js_one : float := PrimFloat.one.

(** The state object [cart] with its [items] array showing [items]: the
    aggregates are those of [c]. *)
Definition with_items (c : Cart.t) (items : list CartItem.t) : Cart.t :=
  Cart.mk items (Cart.item_count c) (Cart.subtotal c) (Cart.shipping_total c)
          (Cart.tax_total c) (Cart.total c).

(** [addToCart].  [newItems = [...cart.items]] copies the array but not
    its elements: in the merge branch, [newItems[existingItemIndex]] is the
    object the state's array holds, and useCart.ts:17-19 mutate it before
    the write.  The state therefore shows the bumped line from then on,
    with its old aggregates, whether [updateCart] resolves or rejects. *)
Definition addToCart (product : Product.t) (quantity : option float) (variation : jsval)
    (now : float) (w : World) : World * outcome unit :=
  let newItems := add_items (Cart.items (cart w)) product (default js_one quantity) variation now in
  let w0 := if (0 <=? findIndex (same_line product variation) (Cart.items (cart w)))%Z
            then mkWorld (with_items (cart w) newItems) (storage w) else w in
  commit w0 newItems.

(** ** [removeFromCart(itemKey)] (useCart.ts:38-42) *)

Definition remove_items (itemKey : string) (items : list CartItem.t) : list CartItem.t :=
  List.filter (fun item => negb (String.eqb (CartItem.key item) itemKey)) items.

Definition removeFromCart (itemKey : string) (w : World) : World * outcome unit :=
  commit w (remove_items itemKey (Cart.items (cart w))).

(** ** [updateQuantity(itemKey, quantity)] (useCart.ts:44-62) *)

(** [{...item, quantity, line_total: item.price * quantity}] *)
Definition set_quantity (quantity : float) (it : CartItem.t) : CartItem.t :=
  CartItem.mk (CartItem.key it) (CartItem.id it) quantity (CartItem.name it) (CartItem.price it)
    (CartItem.price it * quantity) (CartItem.variation it) (CartItem.product_data it).

Definition update_items (itemKey : string) (quantity : float) (items : list CartItem.t)
    : list CartItem.t :=
  map (fun item => if String.eqb (CartItem.key item) itemKey then set_quantity quantity item
                   else item) items.

Definition updateQuantity (itemKey : string) (quantity : float) (w : World)
    : World * outcome unit :=
  if quantity <= js_zero then removeFromCart itemKey w
  else commit w (update_items itemKey quantity (Cart.items (cart w))).

(** ** [clearCart()] (useCart.ts:64-67) *)

Definition clearCart (w : World) : World * outcome unit := commit w [].

(** ** Sessions *)

(** A call of one of the handlers the hook returns (useCart.ts:73-79). *)
Inductive Call :=
| AddToCart (product : Product.t) (quantity : option float) (variation : jsval) (now : float)
| RemoveFromCart (itemKey : string)
| UpdateQuantity (itemKey : string) (quantity : float)
| ClearCart.

Definition handle (c : Call) (w : World) : World * outcome unit :=
  match c with
  | AddToCart p q v now => addToCart p q v now w
  | RemoveFromCart k => removeFromCart k w
  | UpdateQuantity k q => updateQuantity k q w
  | ClearCart => clearCart w
  end.

(** Calls run one after the other, each to completion; after a rejected
    call the session goes on from the state it left. *)
Fixpoint run (cs : list Call) (w : World) : World :=
  match cs with
  | [] => w
  | c :: cs' => run cs' (handle c w).1
  end.

(** The call merges into a present line, mutating it in place. *)
Definition merges (c : Call) (w : World) : bool :=
  match c with
  | AddToCart p _ v _ => (0 <=? findIndex (same_line p v) (Cart.items (cart w)))%Z
  | _ => false
  end.

(** No call of the session is a merge whose write fails. *)
Fixpoint no_failed_merge (cs : list Call) (w : World) : bool :=
  match cs with
  | [] => true
  | c :: cs' => negb (merges c w && rejected (handle c w).2) && no_failed_merge cs' (handle c w).1
  end.

(** * Lemmas *)

(** The two ends of [commit]: the new world holds [build_cart newItems]
    and the store holds its text, or the world is unchanged. *)
Lemma commit_inv w newItems w' r :
  commit w newItems = (w', r) ->
  (r = Resolved tt /\ cart w' = build_cart newItems /\
   LocalStorage.setItem CART_KEY (cart_text (build_cart newItems)) (storage w)
     = Resolved (storage w')) \/
  (exists e, r = Rejected e /\ w' = w /\
   LocalStorage.setItem CART_KEY (cart_text (build_cart newItems)) (storage w) = Rejected e).
Proof.
  unfold commit. destruct (updateCart_cases newItems (storage w)) as [(ls & Hs & ->)|(e & Hs & ->)];
    intros; simplify_eq/=; eauto 10.
Qed.

(** A write fails only for want of room: a rejected [commit] is a
    [QuotaExceededError] and leaves the world as it was. *)
Lemma commit_rejected w newItems w' e :
  commit w newItems = (w', Rejected e) -> e = QuotaExceededError /\ w' = w.
Proof.
  intros H. destruct (commit_inv _ _ _ _ H) as [(? & _)|(e' & He & -> & Hs)]; [congruence|].
  injection He as <-. split; [|done]. revert Hs. unfold LocalStorage.setItem. case_match; congruence.
Qed.

(** The two outcomes of [commit], as a caller of a handler sees them. *)
Lemma commit_outcome w newItems w' r :
  commit w newItems = (w', r) ->
  (r = Resolved tt /\ cart w' = build_cart newItems) \/ (r = Rejected QuotaExceededError /\ w' = w).
Proof.
  intros H. destruct r as [[]|e]; [left|right].
  - by destruct (commit_inv _ _ _ _ H) as [(_ & ? & _)|(? & ? & _)].
  - by destruct (commit_rejected _ _ _ _ H) as [-> ->].
Qed.

Lemma build_cart_ok items : Forall CartItem.line_ok items -> cart_ok (build_cart items).
Proof. by split. Qed.

Lemma new_item_line_ok p q v now : CartItem.line_ok (new_item p q v now).
Proof. reflexivity. Qed.

Lemma bump_line_ok q it : CartItem.line_ok (bump q it).
Proof. apply js_mul_comm. Qed.

Lemma set_quantity_line_ok q it : CartItem.line_ok (set_quantity q it).
Proof. reflexivity. Qed.

Lemma add_items_line_ok items p q v now :
  Forall CartItem.line_ok items -> Forall CartItem.line_ok (add_items items p q v now).
Proof.
  intros H. unfold add_items. case_match.
  - apply Forall_alter; auto using bump_line_ok.
  - apply Forall_app; auto using new_item_line_ok.
Qed.

Lemma remove_items_line_ok k items :
  Forall CartItem.line_ok items -> Forall CartItem.line_ok (remove_items k items).
Proof.
  apply Forall_filter_bool.
Qed.

Lemma update_items_line_ok k q items :
  Forall CartItem.line_ok items -> Forall CartItem.line_ok (update_items k q items).
Proof.
  intros H. apply Forall_map. eapply Forall_impl; [exact H|].
  intros it ?. case_match; auto using set_quantity_line_ok.
Qed.

(** A property of item lists that holds of the items of the state
    before the write and of [newItems] holds after [commit]. *)
Lemma commit_preserves (P : list CartItem.t -> Prop) (w : World) (items : list CartItem.t) :
  P (Cart.items (cart w)) -> P items -> P (Cart.items (cart (commit w items).1)).
Proof.
  intros Hw Hi. destruct (commit w items) as [w' r] eqn:E. simpl.
  by destruct (commit_inv _ _ _ _ E) as [(_ & -> & _)|(e & _ & -> & _)].
Qed.

(** Every handler commits the item list it computes from the state it
    leaves before the write: the state itself, or after a merge the state
    showing the mutated line with its old aggregates. *)
Lemma handle_commit c w :
  exists w0 newItems, handle c w = commit w0 newItems /\ storage w0 = storage w /\
    (merges c w = false -> w0 = w) /\
    (merges c w = true -> cart w0 = with_items (cart w) newItems).
Proof.
  destruct c as [p q v now|k|k q|]; cbn [handle merges].
  - unfold addToCart. eexists _, _. split; [reflexivity|]. by destruct (0 <=? _)%Z.
  - by eexists w, _.
  - unfold updateQuantity, removeFromCart. by destruct (q <= js_zero); eexists w, _.
  - by eexists w, _.
Qed.

Lemma handle_line_ok c w :
  Forall CartItem.line_ok (Cart.items (cart w)) ->
  Forall CartItem.line_ok (Cart.items (cart (handle c w).1)).
Proof.
  intros Hl. destruct c as [p q v now|k|k q|]; cbn [handle];
    unfold addToCart, updateQuantity, removeFromCart, clearCart;
    [destruct (0 <=? _)%Z| |destruct (q <= js_zero)|];
    apply commit_preserves; cbn [cart with_items Cart.items];
    auto using add_items_line_ok, remove_items_line_ok, update_items_line_ok.
Qed.

(** The invariant survives every call but a merge whose write fails. *)
Lemma handle_cart_ok c w :
  cart_ok (cart w) -> merges c w && rejected (handle c w).2 = false -> cart_ok (cart (handle c w).1).
Proof.
  intros [Hc Hl] Hm. pose proof (handle_line_ok c w Hl) as Hl'.
  destruct (handle_commit c w) as (w0 & items & Hh & _ & H0 & _).
  rewrite Hh in Hm, Hl' |- *. destruct (commit w0 items) as [w' r] eqn:E. simpl in *.
  destruct (commit_inv _ _ _ _ E) as [(-> & Hc' & _)|(e & -> & -> & _)].
  - rewrite Hc' in Hl' |- *. by split.
  - rewrite andb_true_r in Hm. by rewrite H0.
Qed.

Lemma run_line_ok (cs : list Call) (w : World) :
  Forall CartItem.line_ok (Cart.items (cart w)) ->
  Forall CartItem.line_ok (Cart.items (cart (run cs w))).
Proof. revert w. induction cs as [|c cs IH]; intros w Hw; simpl; auto using handle_line_ok. Qed.

(** * Theorems *)

(** C1. The cart invariant of the spec (section 3) along any sequence of
    handler calls from a cart that satisfies it: every line total stays
    [price * quantity], whatever the calls do; and unless a merge's write
    fails (see [failed_merge_corrupts_state]), the aggregates stay what
    [updateCart] computes: [item_count] is the left fold of the
    quantities, [subtotal] the left fold of the [price * quantity],
    [shipping_total] and [tax_total] are [0], [total = subtotal +
    shipping_total + tax_total]. *)
Theorem run_preserves_cart_ok (cs : list Call) (w : World) :
  cart_ok (cart w) ->
  Forall CartItem.line_ok (Cart.items (cart (run cs w))) /\
  (no_failed_merge cs w = true -> cart_ok (cart (run cs w))).
Proof.
  intros Hw. split; [by apply run_line_ok, Hw|]. revert w Hw.
  induction cs as [|c cs IH]; intros w Hw Hnf; simpl in *; [done|].
  apply andb_true_iff in Hnf as [Hm Hnf]. apply IH; [|done].
  apply handle_cart_ok; [done|]. by apply negb_true_iff.
Qed.

(** * Lemmas on the handlers *)

Lemma same_json_refl v : same_json v v = true.
Proof. unfold same_json. destruct (stringify v); [apply String.eqb_refl|done]. Qed.

(** Adding a product none of whose lines is present appends a new line. *)
Lemma add_items_new items p q v now :
  Forall (fun it => same_line p v it = false) items ->
  add_items items p q v now = items ++ [new_item p q v now].
Proof.
  intros H. unfold add_items.
  rewrite (proj2 (findIndex_none _ _) H). done.
Qed.

(** Adding a product whose line is the last one bumps that line. *)
Lemma add_items_last items it p q v now :
  Forall (fun it => same_line p v it = false) items -> same_line p v it = true ->
  add_items (items ++ [it]) p q v now = items ++ [bump q it].
Proof.
  intros H Hit. unfold add_items. rewrite findIndex_app_none by done. simpl. rewrite Hit. simpl.
  replace (Z.to_nat (Z.of_nat (length items) + 0)) with (length items + 0)%nat by lia.
  destruct (Z.leb_spec 0 (Z.of_nat (length items) + 0)); [|lia].
  by rewrite alter_app_r.
Qed.

Lemma remove_items_absent k items :
  Forall (fun it => CartItem.key it <> k) items -> remove_items k items = items.
Proof.
  intros H. apply filter_keep_all. eapply Forall_impl; [exact H|].
  intros it Hk. simpl. by rewrite (proj2 (String.eqb_neq _ _) Hk).
Qed.

Lemma remove_items_removed k items :
  Forall (fun it => CartItem.key it <> k) (remove_items k items).
Proof.
  induction items as [|it items IH]; simpl; [done|].
  destruct (String.eqb_spec (CartItem.key it) k); simpl; auto.
Qed.

(** With unique keys, removing a present key drops exactly one line. *)
Lemma remove_items_length k items :
  NoDup (map CartItem.key items) -> k ∈ map CartItem.key items ->
  length (remove_items k items) = (length items - 1)%nat.
Proof.
  induction items as [|it items IH]; simpl; intros Hnd Hin; [by apply not_elem_of_nil in Hin|].
  apply NoDup_cons in Hnd as [Hnot Hnd].
  destruct (String.eqb_spec (CartItem.key it) k) as [<-|Hne]; simpl.
  - rewrite remove_items_absent; [lia|].
    apply Forall_forall. intros x Hx Heq. apply Hnot. rewrite <- Heq. by apply list_elem_of_fmap_2.
  - apply elem_of_cons in Hin as [->|Hin]; [done|]. rewrite IH by done.
    destruct items; simpl in *; [by apply not_elem_of_nil in Hin|lia].
Qed.

(** * Theorems on the handlers *)

(** C2. Merge-on-add: adding a product with a variation that has no line
    yet, then adding it again with the same variation, leaves one new line
    (the first line, bumped), whose quantity is the sum of the two
    quantities; the product id must not be NaN, since [NaN !== NaN]. *)
Theorem addToCart_merges (w w1 w2 : World) (p : Product.t) (q1 q2 : float) (v : jsval)
    (t1 t2 : float) :
  Forall (fun it => same_line p v it = false) (Cart.items (cart w)) ->
  (Product.id p === Product.id p) = true ->
  addToCart p (Some q1) v t1 w = (w1, Resolved tt) ->
  addToCart p (Some q2) v t2 w1 = (w2, Resolved tt) ->
  Cart.items (cart w2) = Cart.items (cart w) ++ [bump q2 (new_item p q1 v t1)] /\
  CartItem.quantity (bump q2 (new_item p q1 v t1)) = (q1 + q2)%js.
Proof.
  intros Hnone Hid H1 H2. split; [|done].
  unfold addToCart in *; simpl in *.
  destruct (commit_inv _ _ _ _ H1) as [(_ & Hc1 & _)|(e & ? & _)]; [|congruence].
  destruct (commit_inv _ _ _ _ H2) as [(_ & Hc2 & _)|(e & ? & _)]; [|congruence].
  rewrite Hc2, Hc1. cbn [Cart.items build_cart]. rewrite (add_items_new (Cart.items (cart w))) by done.
  apply add_items_last; [done|]. unfold same_line; simpl. by rewrite Hid, same_json_refl.
Qed.

(** C3. Removing a key that no line has leaves the world as it was, the
    hook state and [localStorage] both, when the cart satisfies its
    invariant and is the one persisted (the store rewrites the same
    text). *)
Theorem removeFromCart_absent (w : World) (k : string) :
  cart_ok (cart w) -> persisted (cart w) (storage w) -> LocalStorage.fits (storage w) ->
  Forall (fun it => CartItem.key it <> k) (Cart.items (cart w)) ->
  removeFromCart k w = (w, Resolved tt).
Proof.
  intros [Hc _] Hp Hfit Hk. unfold removeFromCart, commit, updateCart.
  rewrite remove_items_absent by done. rewrite <- Hc.
  rewrite setItem_same by done. by destruct w.
Qed.

(** C4. [updateQuantity(key, q)] with [q <= 0] on a present key of a cart
    whose keys are unique removes exactly that line: one line fewer, none
    with the key, the aggregates recomputed. *)
Theorem updateQuantity_nonpositive_removes (w w' : World) (k : string) (q : float) :
  (q <= js_zero)%js = true ->
  NoDup (map CartItem.key (Cart.items (cart w))) -> k ∈ map CartItem.key (Cart.items (cart w)) ->
  updateQuantity k q w = (w', Resolved tt) ->
  length (Cart.items (cart w')) = (length (Cart.items (cart w)) - 1)%nat /\
  Forall (fun it => CartItem.key it <> k) (Cart.items (cart w')) /\
  cart w' = build_cart (Cart.items (cart w')).
Proof.
  intros Hq Hnd Hin H. unfold updateQuantity, removeFromCart in H. rewrite Hq in H.
  destruct (commit_inv _ _ _ _ H) as [(_ & -> & _)|(e & ? & _)]; [|congruence].
  simpl. split_and!; [by apply remove_items_length|apply remove_items_removed|done].
Qed.

(** C5. [clearCart()] either resolves to the zero cart
    [{items: [], item_count: 0, subtotal: 0, shipping_total: 0,
    tax_total: 0, total: 0}], persisted, or rejects and leaves the world
    as it was. *)
Theorem clearCart_empties (w w' : World) (r : outcome unit) :
  clearCart w = (w', r) ->
  (r = Resolved tt /\ cart w' = empty_cart /\ persisted empty_cart (storage w')) \/
  (exists e, r = Rejected e /\ w' = w).
Proof.
  intros H. destruct (commit_inv _ _ _ _ H) as [(-> & Hc & Hs)|(e & -> & -> & _)]; [left|eauto].
  assert (build_cart [] = empty_cart) as Hb by (vm_compute; reflexivity).
  rewrite Hc, Hb. split_and!; [done..|]. rewrite Hb in Hs. by eapply setItem_getItem.
Qed.

(** C7. After a handler resolves, [localStorage['afpets_cart']] holds the
    JSON text of exactly the cart the hook now has, and the storage is
    within its quota. *)
Theorem handle_resolved_persisted (c : Call) (w w' : World) :
  handle c w = (w', Resolved tt) ->
  persisted (cart w') (storage w') /\ LocalStorage.fits (storage w').
Proof.
  destruct (handle_commit c w) as (w0 & items & -> & _). intros H.
  destruct (commit_inv _ _ _ _ H) as [(_ & Hc & Hs)|(e & ? & _)]; [|congruence].
  unfold persisted. rewrite Hc. split; [by eapply setItem_getItem|].
  by apply setItem_resolved in Hs as (_ & _ & ?).
Qed.

(** C8. A handler whose store write fails rejects with
    [QuotaExceededError] and leaves [localStorage] and the aggregates of
    the hook state as they were; the lines are unchanged too unless the
    call merges into a present line, which it has mutated in place before
    the write. *)
Theorem handle_rejected_unchanged (c : Call) (w w' : World) (e : js_error) :
  handle c w = (w', Rejected e) ->
  e = QuotaExceededError /\ storage w' = storage w /\
  cart w' = with_items (cart w) (Cart.items (cart w')) /\
  (merges c w = false -> w' = w).
Proof.
  destruct (handle_commit c w) as (w0 & items & -> & Hs0 & H0 & H1). intros H.
  destruct (commit_rejected _ _ _ _ H) as [-> ->]. split_and!; [done|done| |done].
  destruct (merges c w); [by rewrite H1|]. rewrite H0 by done. by destruct (cart w).
Qed.



(** C6. Two lines can share a key: [addToCart] keys a new line by
    [`${product.id}-${Date.now()}`] only, so adding one product with two
    different variations within the same millisecond appends two lines
    with the same key, and [removeFromCart] with that key removes both
    (so would [updateQuantity] change both). *)
Theorem same_millisecond_key_collision (w w1 w2 : World) (p : Product.t)
    (q1 q2 : option float) (v1 v2 : jsval) (now : float) :
  Forall (fun it => same_line p v1 it = false) (Cart.items (cart w)) ->
  Forall (fun it => same_line p v2 it = false) (Cart.items (cart w)) ->
  same_json v1 v2 = false ->
  addToCart p q1 v1 now w = (w1, Resolved tt) ->
  addToCart p q2 v2 now w1 = (w2, Resolved tt) ->
  let it1 := new_item p (default js_one q1) v1 now in
  let it2 := new_item p (default js_one q2) v2 now in
  Cart.items (cart w2) = Cart.items (cart w) ++ [it1; it2] /\
  CartItem.key it1 = CartItem.key it2 /\ it1 <> it2 /\
  remove_items (CartItem.key it1) (Cart.items (cart w2)) =
    remove_items (CartItem.key it1) (Cart.items (cart w)).
Proof.
  intros H1 H2 Hv A1 A2 it1 it2. unfold addToCart in *.
  destruct (commit_inv _ _ _ _ A1) as [(_ & Hc1 & _)|(e & ? & _)]; [|congruence].
  destruct (commit_inv _ _ _ _ A2) as [(_ & Hc2 & _)|(e & ? & _)]; [|congruence].
  assert (Cart.items (cart w2) = Cart.items (cart w) ++ [it1; it2]) as Hi.
  { rewrite Hc2, Hc1. cbn [Cart.items build_cart].
    rewrite (add_items_new (Cart.items (cart w))) by done.
    rewrite add_items_new, <- app_assoc; [done|].
    apply Forall_app; split; [done|]. constructor; [|done].
    unfold same_line. simpl. by rewrite Hv, andb_false_r. }
  split_and!; [done|done| |].
  - intros Heq. assert (CartItem.variation it1 = CartItem.variation it2) as Hvar by (by rewrite Heq).
    simpl in Hvar. subst v2. by rewrite same_json_refl in Hv.
  - rewrite Hi. unfold remove_items. rewrite List.filter_app. cbn [List.filter].
    replace (CartItem.key it2) with (CartItem.key it1) by done.
    rewrite String.eqb_refl. cbn [negb]. apply app_nil_r.
Qed.

(** A NaN quantity on a present key makes the new cart's [item_count]
    and [total] NaN. *)
Lemma update_nan_aggregates (k : string) (items : list CartItem.t) :
  k ∈ map CartItem.key items ->
  Cart.item_count (build_cart (update_items k PrimFloat.nan items)) = PrimFloat.nan /\
  Cart.total (build_cart (update_items k PrimFloat.nan items)) = PrimFloat.nan.
Proof.
  intros (it & -> & Hit)%list_elem_of_fmap.
  set (it' := set_quantity PrimFloat.nan it).
  assert (it' ∈ update_items (CartItem.key it) PrimFloat.nan items) as Hin.
  { apply list_elem_of_fmap. exists it. by rewrite String.eqb_refl. }
  assert (sum_subtotal (update_items (CartItem.key it) PrimFloat.nan items) = PrimFloat.nan) as Hs.
  { apply reduce_add_nan. right. exists it'. split; [done|]. apply js_mul_nan_r. }
  simpl. split.
  - apply reduce_add_nan. right. by exists it'.
  - rewrite Hs. by rewrite !js_add_nan_l.
Qed.

(** C10. A NaN quantity is neither a removal ([NaN <= 0] is false) nor
    refused: [updateQuantity(key, NaN)] on a present key either resolves,
    storing the line with quantity NaN so that the cart's [item_count] and
    [total] become NaN, or rejects only as any write does, with
    [QuotaExceededError] and nothing changed.  The spec (section 4.1)
    defines only [quantity <= 0] and positive quantities. *)
Theorem updateQuantity_nan_poisons (w w' : World) (k : string) (r : outcome unit) :
  k ∈ map CartItem.key (Cart.items (cart w)) ->
  updateQuantity k PrimFloat.nan w = (w', r) ->
  (r = Resolved tt /\
   Cart.items (cart w') = update_items k PrimFloat.nan (Cart.items (cart w)) /\
   Cart.item_count (cart w') = PrimFloat.nan /\ Cart.total (cart w') = PrimFloat.nan) \/
  (r = Rejected QuotaExceededError /\ w' = w).
Proof.
  intros Hk H. unfold updateQuantity in H.
  change (PrimFloat.nan <= js_zero)%js with false in H.
  destruct (commit_outcome _ _ _ _ H) as [(-> & ->)|?]; [left|by right].
  destruct (update_nan_aggregates k _ Hk). by split_and!.
Qed.

(** C37. [addToCart] accepts a non-positive quantity: adding, with a
    quantity [<= 0], a product that has no line either resolves by
    appending a line with that quantity, where [updateQuantity] with the
    same quantity removes the line, or rejects only as any write does,
    with [QuotaExceededError] and nothing changed.  The spec (section
    4.1) asks implementers to reject or clamp such a quantity. *)
Theorem addToCart_nonpositive_appends (w w' : World) (p : Product.t) (q : float) (v : jsval)
    (now : float) (r : outcome unit) :
  (q <= js_zero) = true -> Forall (fun it => same_line p v it = false) (Cart.items (cart w)) ->
  addToCart p (Some q) v now w = (w', r) ->
  (r = Resolved tt /\ Cart.items (cart w') = Cart.items (cart w) ++ [new_item p q v now]) \/
  (r = Rejected QuotaExceededError /\ w' = w).
Proof.
  intros _ Hnew H. unfold addToCart in H.
  rewrite (proj2 (findIndex_none _ _) Hnew) in H. cbn [Z.leb] in H.
  destruct (commit_outcome _ _ _ _ H) as [(-> & ->)|?]; [left|by right].
  split; [done|]. cbn. by apply add_items_new.
Qed.

(** C20. A merge whose write fails leaves a state the store does not
    have: when [addToCart] finds the line of the product and variation
    and the write of the longer text fails, the call rejects with
    [QuotaExceededError] and the store is unchanged, but the line object
    was already mutated in place (useCart.ts:17-19): the state shows the
    bumped line at its index, next to the old aggregates.  The spec
    (section 7) says a failed write cannot leave a partial state. *)
Theorem failed_merge_corrupts_state (w w' : World) (p : Product.t) (q : option float) (v : jsval)
    (now : float) (e : js_error) :
  merges (AddToCart p q v now) w = true ->
  addToCart p q v now w = (w', Rejected e) ->
  e = QuotaExceededError /\ storage w' = storage w /\
  cart w' = with_items (cart w) (add_items (Cart.items (cart w)) p (default js_one q) v now) /\
  exists i it, Cart.items (cart w) !! i = Some it /\ same_line p v it = true /\
    Cart.items (cart w') !! i = Some (bump (default js_one q) it).
Proof.
  cbn [merges]. intros Hm H. unfold addToCart in H. rewrite Hm in H.
  destruct (commit_rejected _ _ _ _ H) as [-> ->]. split_and!; [done..|].
  set (i := Z.to_nat (findIndex (same_line p v) (Cart.items (cart w)))).
  apply Z.leb_le in Hm.
  destruct (findIndex_some (same_line p v) (Cart.items (cart w)) i) as (it & Hl & Hp & _); [lia|].
  exists i, it. split_and!; [done|done|]. cbn [Cart.items with_items cart].
  unfold add_items. apply Z.leb_le in Hm as ->. fold i. rewrite list_lookup_alter, Hl. by rewrite decide_True.
Qed.

(** * Scenarios *)

(** Products as the REST API returns them (prices are decimal text), a
    5 MiB [localStorage], and two readings of [Date.now()]. *)
Definition dog_food : Product.t := Product.mk (parseFloat "1") "Dog food" "10.00" [].
Definition leash : Product.t := Product.mk (parseFloat "2") "Leash" "5.50" [].
Definition browser_storage : LocalStorage.t := LocalStorage.mk ∅ 5242880%N.
Definition fresh_world : World := mkWorld empty_cart browser_storage.
Definition t0 : float := parseFloat "1736380000000".
Definition t1 : float := parseFloat "1736380000001".

Definition size_m : jsval := JObject [("size", JString "M")].
Definition size_l : jsval := JObject [("size", JString "L")].

(** * Witnesses: the theorems applied where their hypotheses hold *)

Definition demo_session : list Call :=
  [AddToCart dog_food (Some (parseFloat "2")) JUndefined t0;
   AddToCart leash None size_m t1;
   UpdateQuantity "1-1736380000000" (parseFloat "5");
   RemoveFromCart "2-1736380000001";
   ClearCart].

(** A world with one line of dog food, persisted. *)
Definition one_line_world : World := (addToCart dog_food None JUndefined t0 fresh_world).1.

(** A storage too small for any cart. *)
Definition full_world : World := mkWorld empty_cart (LocalStorage.mk ∅ 16%N).

(** A world whose storage is full: the quota is what the stored cart of
    [one_line_world] uses. *)
Definition tight_world : World :=
  mkWorld (cart one_line_world)
    (LocalStorage.mk (LocalStorage.entries (storage one_line_world))
       (LocalStorage.used (LocalStorage.entries (storage one_line_world)))).

Lemma run_preserves_cart_ok_witness :
  Forall CartItem.line_ok (Cart.items (cart (run demo_session fresh_world))) /\
  cart_ok (cart (run demo_session fresh_world)).
Proof.
  assert (cart_ok (cart fresh_world)) as H by (split; [vm_compute; reflexivity|constructor]).
  destruct (run_preserves_cart_ok demo_session fresh_world H) as [H1 H2].
  split; [exact H1|]. apply H2. vm_compute. reflexivity.
Defined.

Lemma addToCart_merges_witness :
  let w1 := (addToCart dog_food (Some (parseFloat "2")) size_m t0 fresh_world).1 in
  let w2 := (addToCart dog_food (Some (parseFloat "3")) size_m t1 w1).1 in
  Cart.items (cart w2) = [] ++ [bump (parseFloat "3") (new_item dog_food (parseFloat "2") size_m t0)] /\
  CartItem.quantity (bump (parseFloat "3") (new_item dog_food (parseFloat "2") size_m t0))
    = (parseFloat "2" + parseFloat "3")%js.
Proof.
  intros w1 w2. apply (addToCart_merges fresh_world w1 w2 dog_food _ _ size_m t0 t1);
    [constructor|vm_compute; reflexivity..].
Defined.

Lemma removeFromCart_absent_witness :
  removeFromCart "9-0" one_line_world = (one_line_world, Resolved tt).
Proof.
  apply removeFromCart_absent.
  - split; vm_compute; [reflexivity|]. constructor; [reflexivity|constructor].
  - vm_compute; reflexivity.
  - apply N.leb_le; vm_compute; reflexivity.
  - vm_compute. constructor; [discriminate|constructor].
Defined.

Lemma updateQuantity_nonpositive_removes_witness :
  let w' := (updateQuantity "1-1736380000000" (parseFloat "-0") one_line_world).1 in
  length (Cart.items (cart w')) = (length (Cart.items (cart one_line_world)) - 1)%nat /\
  Forall (fun it => CartItem.key it <> "1-1736380000000") (Cart.items (cart w')) /\
  cart w' = build_cart (Cart.items (cart w')).
Proof.
  intros w'. apply (updateQuantity_nonpositive_removes one_line_world w' _ (parseFloat "-0"));
    vm_compute.
  - reflexivity.
  - repeat constructor; set_solver.
  - left.
  - reflexivity.
Defined.

Lemma clearCart_empties_witness :
  let w' := (clearCart one_line_world).1 in
  (Resolved tt = Resolved tt /\ cart w' = empty_cart /\ persisted empty_cart (storage w')) \/
  (exists e, Resolved tt = @Rejected unit e /\ w' = one_line_world).
Proof. intros w'. apply clearCart_empties. vm_compute. reflexivity. Defined.

Lemma handle_resolved_persisted_witness :
  let w' := (handle (AddToCart leash None size_l t1) one_line_world).1 in
  persisted (cart w') (storage w') /\ LocalStorage.fits (storage w').
Proof.
  intros w'. apply (handle_resolved_persisted (AddToCart leash None size_l t1) one_line_world).
  vm_compute. reflexivity.
Defined.

Lemma handle_rejected_unchanged_witness :
  let c := AddToCart leash None JUndefined t0 in
  let w' := (handle c full_world).1 in
  QuotaExceededError = QuotaExceededError /\ storage w' = storage full_world /\
  cart w' = with_items (cart full_world) (Cart.items (cart w')) /\
  (merges c full_world = false -> w' = full_world).
Proof.
  intros c w'. apply (handle_rejected_unchanged c full_world w' QuotaExceededError).
  vm_compute. reflexivity.
Defined.

Lemma same_millisecond_key_collision_witness :
  let w1 := (addToCart dog_food None size_m t0 fresh_world).1 in
  let w2 := (addToCart dog_food None size_l t0 w1).1 in
  let it1 := new_item dog_food (default js_one None) size_m t0 in
  let it2 := new_item dog_food (default js_one None) size_l t0 in
  Cart.items (cart w2) = Cart.items (cart fresh_world) ++ [it1; it2] /\
  CartItem.key it1 = CartItem.key it2 /\ it1 <> it2 /\
  remove_items (CartItem.key it1) (Cart.items (cart w2)) =
    remove_items (CartItem.key it1) (Cart.items (cart fresh_world)).
Proof.
  intros w1 w2. apply (same_millisecond_key_collision fresh_world w1 w2 dog_food None None size_m size_l t0);
    [constructor|constructor|vm_compute; reflexivity..].
Defined.

Lemma updateQuantity_nan_poisons_witness :
  let '(w', r) := updateQuantity "1-1736380000000" PrimFloat.nan one_line_world in
  (r = Resolved tt /\
   Cart.items (cart w') = update_items "1-1736380000000" PrimFloat.nan (Cart.items (cart one_line_world)) /\
   Cart.item_count (cart w') = PrimFloat.nan /\ Cart.total (cart w') = PrimFloat.nan) \/
  (r = Rejected QuotaExceededError /\ w' = one_line_world).
Proof.
  destruct (updateQuantity "1-1736380000000" PrimFloat.nan one_line_world) as [w' r] eqn:E.
  apply (updateQuantity_nan_poisons one_line_world w' "1-1736380000000" r); [|exact E].
  vm_compute. left.
Defined.

Lemma addToCart_nonpositive_appends_witness :
  let '(w', r) := addToCart dog_food (Some (parseFloat "-2")) JUndefined t0 fresh_world in
  (r = Resolved tt /\
   Cart.items (cart w') = Cart.items (cart fresh_world) ++ [new_item dog_food (parseFloat "-2") JUndefined t0]) \/
  (r = Rejected QuotaExceededError /\ w' = fresh_world).
Proof.
  destruct (addToCart dog_food (Some (parseFloat "-2")) JUndefined t0 fresh_world) as [w' r] eqn:E.
  apply (addToCart_nonpositive_appends fresh_world w' dog_food _ JUndefined t0 r);
    [vm_compute; reflexivity|constructor|exact E].
Defined.

(** Adding 10 more dog food to the one line of [tight_world], whose
    storage has no room for the longer text. *)
Lemma failed_merge_corrupts_state_witness :
  let c := AddToCart dog_food (Some (parseFloat "10")) JUndefined t1 in
  let w' := (handle c tight_world).1 in
  QuotaExceededError = QuotaExceededError /\ storage w' = storage tight_world /\
  cart w' = with_items (cart tight_world)
              (add_items (Cart.items (cart tight_world)) dog_food (parseFloat "10") JUndefined t1) /\
  exists i it, Cart.items (cart tight_world) !! i = Some it /\ same_line dog_food JUndefined it = true /\
    Cart.items (cart w') !! i = Some (bump (parseFloat "10") it).
Proof.
  intros c w'. apply (failed_merge_corrupts_state tight_world w' dog_food (Some (parseFloat "10")) JUndefined t1);
    vm_compute; reflexivity.
Defined.

