(* ===== verification/CartSpec.v ===== *)
(** * The cart contract and its refinement

    What the spec (section 4.1) promises of the cart store, stated without
    lists, aggregates or storage: the store maps each line key to a line
    with an identity (the product id and the JSON text of the variation),
    a quantity and a unit price.  [add] merges into the line with the same
    identity or creates a line under a new key; [remove] deletes a key;
    [updateQuantity] deletes the key when the quantity is [<= 0] and sets
    the quantity otherwise; [clear] empties the store.  [abs_step] is this
    contract as a relation on abstract stores (a [gmap]).

    [alpha] reads an abstract store off the item list of the hook's state,
    and [handle_simulation] proves the simulation: every call that
    resolves moves [alpha] by one [abs_step]; a call that rejects leaves
    the world as it was, or, if it merged into a present line, has moved
    [alpha] by its step in memory only.  The key of a new line must be
    new, which the code does not guarantee (see
    [same_millisecond_key_collision] in [UseCart]).  [run_refines] lifts
    this to sessions. *)

From S2P Require Import Prelude JsNumber Json CartModel WooCommerceCart UseCart.

Local Open Scope js_scope.

Record Line := mkLine {
  line_id : float;
  line_variation : option string;
  line_qty : float;
  line_price : float
}.

Abbreviation abs_cart := (gmap string Line).

(** A line of the store as the contract sees it. *)
Definition line_of (it : CartItem.t) : Line :=
  mkLine (CartItem.id it) (stringify (CartItem.variation it)) (CartItem.quantity it)
         (CartItem.price it).

Definition alpha (items : list CartItem.t) : abs_cart :=
  list_to_map (map (fun it => (CartItem.key it, line_of it)) items).

(** [item.id === product.id && JSON.stringify(item.variation) ===
    JSON.stringify(variation)], on the line's identity. *)
Definition matches (id : float) (vtext : option string) (l : Line) : bool :=
  (line_id l === id) &&
  match line_variation l, vtext with
  | None, None => true
  | Some s, Some t => String.eqb s t
  | _, _ => false
  end.

Definition add_qty (q : float) (l : Line) : Line :=
  mkLine (line_id l) (line_variation l) (line_qty l + q) (line_price l).

Definition set_qty (q : float) (l : Line) : Line :=
  mkLine (line_id l) (line_variation l) q (line_price l).

(** The key and the line of a product added for the first time. *)
Definition new_key (p : Product.t) (now : float) : string :=
  number_to_string (Product.id p) +:+ "-" +:+ number_to_string now.

Definition new_line (p : Product.t) (q : float) (v : jsval) : Line :=
  mkLine (Product.id p) (stringify v) q (parseFloat (Product.price p)).

(** The contract of the four operations (spec, section 4.1). *)
Inductive abs_step : Call -> abs_cart -> abs_cart -> Prop :=
| AbsMerge p q v now m k l :
    m !! k = Some l -> matches (Product.id p) (stringify v) l = true ->
    abs_step (AddToCart p q v now) m (<[k := add_qty (default js_one q) l]> m)
| AbsNew p q v now m :
    (forall k l, m !! k = Some l -> matches (Product.id p) (stringify v) l = false) ->
    m !! new_key p now = None ->
    abs_step (AddToCart p q v now) m (<[new_key p now := new_line p (default js_one q) v]> m)
| AbsRemove k m : abs_step (RemoveFromCart k) m (delete k m)
| AbsUpdate k q m :
    abs_step (UpdateQuantity k q) m (if q <= js_zero then delete k m else alter (set_qty q) k m)
| AbsClear m : abs_step ClearCart m ∅.

(** The identity of a line: its product id and variation text. *)
Definition ident (it : CartItem.t) : float * option string :=
  (CartItem.id it, stringify (CartItem.variation it)).

(** [b] would be merged into [a]: [a] matches [b]'s identity. *)
Definition same_ident (a b : CartItem.t) : bool :=
  matches (CartItem.id b) (stringify (CartItem.variation b)) (line_of a).

(** No line matches the identity of a later one: one line per product and
    variation, the promise of merge-on-add. *)
Fixpoint lines_unique (items : list CartItem.t) : Prop :=
  match items with
  | [] => True
  | a :: rest => Forall (fun b => same_ident a b = false) rest /\ lines_unique rest
  end.

(** The merge into a present line: the only step a call takes in memory
    before its write, which it keeps when the write fails (the line
    object is mutated in place, useCart.ts:17-19). *)
Inductive abs_merge : Call -> abs_cart -> abs_cart -> Prop :=
| AbsMergeInPlace p q v now m k l :
    m !! k = Some l -> matches (Product.id p) (stringify v) l = true ->
    abs_merge (AddToCart p q v now) m (<[k := add_qty (default js_one q) l]> m).

(** Each call of a session with its outcome, as [run] makes them. *)
Fixpoint outcomes (cs : list Call) (w : World) : list (Call * outcome unit) :=
  match cs with
  | [] => []
  | c :: cs' => let '(w', r) := handle c w in (c, r) :: outcomes cs' w'
  end.

(** A session under the contract, each call labelled with its outcome:
    a call that resolves takes its step; a call that rejects leaves the
    store as it was, or keeps the in-place merge it made before its
    write failed. *)
Inductive abs_steps : list (Call * outcome unit) -> abs_cart -> abs_cart -> Prop :=
| AbsDone m : abs_steps [] m m
| AbsStep c cs m m' m'' :
    abs_step c m m' -> abs_steps cs m' m'' -> abs_steps ((c, Resolved tt) :: cs) m m''
| AbsFail c e cs m m'' : abs_steps cs m m'' -> abs_steps ((c, Rejected e) :: cs) m m''
| AbsFailMerged c e cs m m' m'' :
    abs_merge c m m' -> abs_steps cs m' m'' -> abs_steps ((c, Rejected e) :: cs) m m''.

(** The keys of the hook's lines. *)
Definition keys (w : World) : list string := map CartItem.key (Cart.items (cart w)).

(** The key a call would give a new line is not taken yet. *)
Definition fresh_call (c : Call) (w : World) : bool :=
  match c with
  | AddToCart p _ _ now => negb (existsb (String.eqb (new_key p now)) (keys w))
  | _ => true
  end.

(** Every call of a session gives its new line (if any) a new key. *)
Fixpoint session_fresh (cs : list Call) (w : World) : bool :=
  match cs with
  | [] => true
  | c :: cs' => fresh_call c w && session_fresh cs' (handle c w).1
  end.

(** * Lemmas *)

Lemma alpha_cons (it : CartItem.t) (items : list CartItem.t) :
  alpha (it :: items) = <[CartItem.key it := line_of it]> (alpha items).
Proof. reflexivity. Qed.

Lemma alpha_lookup (items : list CartItem.t) (k : string) (l : Line) :
  alpha items !! k = Some l -> exists it, In it items /\ CartItem.key it = k /\ line_of it = l.
Proof.
  intros H%elem_of_list_to_map_2. apply list_elem_of_In, in_map_iff in H as (it & [=] & Hin).
  eauto.
Qed.

Lemma alpha_lookup_None (items : list CartItem.t) (k : string) :
  ~ In k (map CartItem.key items) -> alpha items !! k = None.
Proof.
  intros Hk. apply not_elem_of_list_to_map. rewrite list_elem_of_In. intros Hin.
  apply Hk. rewrite map_map in Hin. exact Hin.
Qed.

Lemma alpha_snoc (items : list CartItem.t) (it : CartItem.t) :
  ~ In (CartItem.key it) (map CartItem.key items) ->
  alpha (items ++ [it]) = <[CartItem.key it := line_of it]> (alpha items).
Proof.
  induction items as [|x items IH]; intros Hk; [done|].
  rewrite <- app_comm_cons, !alpha_cons, IH by (intros ?; apply Hk; by right).
  apply insert_insert_ne. intros E. apply Hk. left. by rewrite E.
Qed.

Lemma alpha_remove (k : string) (items : list CartItem.t) :
  alpha (remove_items k items) = delete k (alpha items).
Proof.
  induction items as [|it items IH]; simpl; [symmetry; apply delete_empty|].
  rewrite alpha_cons. destruct (String.eqb_spec (CartItem.key it) k) as [<-|Hk]; simpl.
  - by rewrite IH, delete_insert_eq.
  - by rewrite alpha_cons, IH, delete_insert_ne.
Qed.

Lemma alpha_update (k : string) (q : float) (items : list CartItem.t) :
  alpha (update_items k q items) = alter (set_qty q) k (alpha items).
Proof.
  induction items as [|it items IH]; simpl; [symmetry; apply alter_empty|].
  destruct (String.eqb_spec (CartItem.key it) k) as [<-|Hk].
  - rewrite !alpha_cons, IH, alter_insert_eq.
    change (CartItem.key (set_quantity q it)) with (CartItem.key it).
    by rewrite insert_alter_eq.
  - rewrite !alpha_cons, IH. by rewrite alter_insert_ne.
Qed.

Lemma same_line_matches (p : Product.t) (v : jsval) (it : CartItem.t) :
  same_line p v it = matches (Product.id p) (stringify v) (line_of it).
Proof. reflexivity. Qed.

Lemma alpha_lookup_key (items : list CartItem.t) (it : CartItem.t) :
  NoDup (map CartItem.key items) -> In it items -> alpha items !! CartItem.key it = Some (line_of it).
Proof.
  intros Hnd Hin. apply elem_of_list_to_map_1.
  - enough ((map (fun it => (CartItem.key it, line_of it)) items).*1 = map CartItem.key items)
      as -> by done.
    clear. induction items as [|x l IHl]; [done|]. simpl. by f_equal.
  - apply list_elem_of_In, in_map_iff. by exists it.
Qed.

Lemma map_key_alter (f : CartItem.t -> CartItem.t) (i : nat) (items : list CartItem.t) :
  (forall it, CartItem.key (f it) = CartItem.key it) ->
  map CartItem.key (alter f i items) = map CartItem.key items.
Proof.
  intros Hf. revert i. induction items as [|it items IH]; intros [|i]; simpl; try done.
  - by rewrite Hf.
  - f_equal. apply IH.
Qed.

Lemma alpha_alter (f : CartItem.t -> CartItem.t) (i : nat) (items : list CartItem.t) (it : CartItem.t) :
  NoDup (map CartItem.key items) -> items !! i = Some it -> CartItem.key (f it) = CartItem.key it ->
  alpha (alter f i items) = <[CartItem.key it := line_of (f it)]> (alpha items).
Proof.
  revert i. induction items as [|x items IH]; intros [|i] Hnd Hi Hf; try done; simpl in Hi.
  - injection Hi as ->. change (alter f 0 (it :: items)) with (f it :: items).
    rewrite !alpha_cons, Hf. by rewrite insert_insert_eq.
  - apply NoDup_cons in Hnd as [Hx Hnd].
    change (alter f (S i) (x :: items)) with (x :: alter f i items).
    rewrite !alpha_cons, (IH i) by done.
    apply insert_insert_ne. intros E. apply Hx. rewrite E.
    apply list_elem_of_In, in_map_iff. exists it. split; [done|]. apply list_elem_of_In. by eapply list_elem_of_lookup_2.
Qed.

(** [add_items] either bumps the first line of the product and variation
    or appends a new line. *)
Lemma add_items_cases (items : list CartItem.t) (p : Product.t) (q : float) (v : jsval) (now : float) :
  (exists i it, items !! i = Some it /\ same_line p v it = true /\
     add_items items p q v now = alter (bump q) i items) \/
  (Forall (fun it => same_line p v it = false) items /\
     add_items items p q v now = items ++ [new_item p q v now]).
Proof.
  destruct (findIndex_range (same_line p v) items) as [H|H].
  - right. split; [by apply findIndex_none|]. unfold add_items. by rewrite H.
  - left. set (i := Z.to_nat (findIndex (same_line p v) items)).
    destruct (findIndex_some (same_line p v) items i) as (it & Hl & Hp & _); [lia|].
    exists i, it. split_and!; [done|done|]. unfold add_items.
    destruct (Z.leb_spec 0 (findIndex (same_line p v) items)); [done|lia].
Qed.

Lemma map_key_update (k : string) (q : float) (items : list CartItem.t) :
  map CartItem.key (update_items k q items) = map CartItem.key items.
Proof. unfold update_items. rewrite map_map. apply map_ext. intros it. by case_match. Qed.

Lemma abs_merge_step c m m' : abs_merge c m m' -> abs_step c m m'.
Proof. destruct 1. by constructor. Qed.

(** Every call computes an item list with distinct keys that moves
    [alpha] by one step of the contract, when the key of a new line is
    new. *)
Lemma handle_abs_step (c : Call) (w : World) :
  NoDup (keys w) -> fresh_call c w = true ->
  exists w0 newItems, handle c w = commit w0 newItems /\ NoDup (map CartItem.key newItems) /\
    abs_step c (alpha (Cart.items (cart w))) (alpha newItems) /\
    (w0 = w \/ (abs_merge c (alpha (Cart.items (cart w))) (alpha newItems) /\
                Cart.items (cart w0) = newItems)).
Proof.
  unfold keys. intros Hnd Hfresh. set (items := Cart.items (cart w)) in *.
  destruct c as [p q v now|k|k q|]; simpl in Hfresh |- *.
  - set (newItems := add_items items p (default js_one q) v now).
    destruct (add_items_cases items p (default js_one q) v now)
      as [(i & it & Hi & Hs & Hadd)|(Hnone & Hadd)].
    + assert (abs_merge (AddToCart p q v now) (alpha items) (alpha newItems)) as Hm.
      { subst newItems. rewrite Hadd, (alpha_alter _ _ _ it) by done.
        change (line_of (bump _ it)) with (add_qty (default js_one q) (line_of it)).
        apply AbsMergeInPlace; [|exact Hs]. apply alpha_lookup_key; [done|].
        apply list_elem_of_In. by eapply list_elem_of_lookup_2. }
      eexists _, newItems. split; [reflexivity|]. split_and!.
      * subst newItems. by rewrite Hadd, map_key_alter.
      * by apply abs_merge_step.
      * destruct (0 <=? _)%Z; [right; by split|by left].
    + exists w, newItems. split.
      { unfold addToCart. fold items. by rewrite (proj2 (findIndex_none _ _) Hnone). }
      apply negb_true_iff, existsb_eqb_false in Hfresh.
      assert (~ In (new_key p now) (map CartItem.key items)) as Hk.
      { by rewrite <- list_elem_of_In. }
      subst newItems. rewrite Hadd, map_app. split_and!; [|clear Hadd|by left].
      { apply NoDup_app. split_and!; [done| |by apply NoDup_singleton].
        intros x Hx ->%list_elem_of_singleton. done. }
      rewrite alpha_snoc by done. apply AbsNew; [|by apply alpha_lookup_None].
      intros k l (it & Hin & _ & <-)%alpha_lookup.
      rewrite <- same_line_matches. apply Forall_forall with (x := it) in Hnone; [done|].
      by apply list_elem_of_In.
  - exists w, (remove_items k items). split_and!; [done|by apply NoDup_map_filter| |by left].
    rewrite alpha_remove. constructor.
  - unfold updateQuantity. pose proof (AbsUpdate k q (alpha items)) as Hstep.
    destruct (q <= js_zero).
    + exists w, (remove_items k items). split_and!; [done|by apply NoDup_map_filter| |by left].
      by rewrite alpha_remove.
    + exists w, (update_items k q items). rewrite map_key_update, alpha_update. by split_and!; [..|left].
  - exists w, []. split_and!; [done|constructor|constructor|by left].
Qed.

(** A call from a cart with distinct keys whose new line gets a new key:
    a resolved call is one step of the contract; a rejected one changes
    nothing or, when it merged in place before its write failed, has
    taken its step in memory; the keys stay distinct. *)
Lemma handle_simulation (c : Call) (w w' : World) (r : outcome unit) :
  NoDup (keys w) -> fresh_call c w = true -> handle c w = (w', r) ->
  NoDup (keys w') /\
  ((r = Resolved tt /\ abs_step c (alpha (Cart.items (cart w))) (alpha (Cart.items (cart w')))) \/
   (exists e, r = Rejected e /\
      (w' = w \/ abs_merge c (alpha (Cart.items (cart w))) (alpha (Cart.items (cart w')))))).
Proof.
  intros Hnd Hf Hh. destruct (handle_abs_step c w Hnd Hf) as (w0 & items' & Hc & Hnd' & Hstep & Hw0).
  rewrite Hc in Hh. destruct (commit_inv _ _ _ _ Hh) as [(-> & Hcart & _)|(e & -> & -> & _)].
  - unfold keys. rewrite Hcart. split; [done|]. left. by split.
  - destruct Hw0 as [->|[Hm Hi]].
    + split; [done|]. right. eauto.
    + unfold keys. rewrite Hi. split; [done|]. right. exists e. split; [done|by right].
Qed.

(** ** One line per identity *)

Lemma same_ident_congr (a a' b b' : CartItem.t) :
  ident a = ident a' -> ident b = ident b' -> same_ident a b = same_ident a' b'.
Proof. unfold ident, same_ident, matches, line_of. simpl. intros [= -> ->] [= -> ->]. done. Qed.

Section Unique.
Variable g : CartItem.t -> CartItem.t.
Hypothesis g_ident : forall it, ident (g it) = ident it.

Lemma lines_unique_map (items : list CartItem.t) : lines_unique items -> lines_unique (map g items).
Proof.
  induction items as [|a items IH]; simpl; [done|]. intros [Ha Hu]. split; [|auto].
  apply Forall_map. eapply Forall_impl; [exact Ha|]. intros b Hb.
  by rewrite (same_ident_congr (g a) a (g b) b).
Qed.

Lemma lines_unique_alter (i : nat) (items : list CartItem.t) :
  lines_unique items -> lines_unique (alter g i items).
Proof.
  revert i. induction items as [|a items IH]; intros [|i] Hu; try done; destruct Hu as [Ha Hu].
  - change (alter g 0 (a :: items)) with (g a :: items). split; [|done].
    eapply Forall_impl; [exact Ha|]. intros b Hb. by rewrite (same_ident_congr (g a) a b b).
  - change (alter g (S i) (a :: items)) with (a :: alter g i items). split; [|auto].
    apply Forall_alter; [done|]. intros b _ Hb. by rewrite (same_ident_congr a a (g b) b).
Qed.
End Unique.

Lemma lines_unique_filter (f : CartItem.t -> bool) (items : list CartItem.t) :
  lines_unique items -> lines_unique (List.filter f items).
Proof.
  induction items as [|a items IH]; simpl; [done|]. intros [Ha Hu].
  destruct (f a); simpl; [split|]; auto using Forall_filter_bool.
Qed.

Lemma lines_unique_snoc (items : list CartItem.t) (x : CartItem.t) :
  lines_unique items -> Forall (fun a => same_ident a x = false) items ->
  lines_unique (items ++ [x]).
Proof.
  induction items as [|a items IH]; simpl; [done|]. intros [Ha Hu] Hx. apply Forall_cons in Hx as [Hax Hx].
  split; [|auto]. apply Forall_app. auto.
Qed.

Lemma handle_lines_unique (c : Call) (w : World) :
  lines_unique (Cart.items (cart w)) -> lines_unique (Cart.items (cart (handle c w).1)).
Proof.
  intros Hu. destruct c as [p q v now|k|k q|]; cbn [handle].
  - unfold addToCart.
    assert (lines_unique (add_items (Cart.items (cart w)) p (default js_one q) v now)) as Hn.
    { destruct (add_items_cases (Cart.items (cart w)) p (default js_one q) v now)
        as [(i & it & _ & _ & ->)|(Hnone & ->)].
      + by apply lines_unique_alter.
      + by apply lines_unique_snoc. }
    by destruct (0 <=? _)%Z; apply commit_preserves.
  - unfold removeFromCart. apply commit_preserves; [done|]. by apply lines_unique_filter.
  - unfold updateQuantity, removeFromCart. destruct (q <= js_zero);
      apply commit_preserves; [done|by apply lines_unique_filter|done|].
    apply lines_unique_map; [|done]. intros it. unfold ident. by case_match.
  - unfold clearCart. by apply commit_preserves.
Qed.

(** * Theorems *)

(** C18. Refinement of the cart contract over a session: from a cart
    with distinct line keys, along a sequence of calls each of whose new
    lines gets a key not taken yet, the abstract store of the final cart
    is reached from the first one along the calls labelled with the
    outcomes [run] gives them: every call that resolves takes its step
    of the contract; a call that rejects leaves the store as it was, or
    keeps the merge it made in place before its write failed. *)
Theorem run_refines (cs : list Call) (w : World) :
  NoDup (keys w) -> session_fresh cs w = true ->
  abs_steps (outcomes cs w) (alpha (Cart.items (cart w))) (alpha (Cart.items (cart (run cs w)))).
Proof.
  revert w. induction cs as [|c cs IH]; intros w Hnd Hf; cbn [outcomes run session_fresh] in *;
    [constructor|].
  apply andb_true_iff in Hf as [Hc Hcs].
  destruct (handle c w) as [w1 r] eqn:Hh. cbn [fst] in *.
  destruct (handle_simulation c w w1 r Hnd Hc Hh) as [Hnd1 [[-> Hstep]|(e & -> & [->|Hm])]].
  - eapply AbsStep; [exact Hstep|]. by apply IH.
  - apply AbsFail. by apply IH.
  - eapply AbsFailMerged; [exact Hm|]. by apply IH.
Qed.

(** C19. One line per product and variation: from a cart in which no
    line matches the identity (product id, variation text) of a later one,
    every session of calls leaves a cart with the same property, resolved
    or rejected calls alike; merge-on-add never creates a second line for
    an identity already present. *)
Theorem run_preserves_lines_unique (cs : list Call) (w : World) :
  lines_unique (Cart.items (cart w)) -> lines_unique (Cart.items (cart (run cs w))).
Proof.
  revert w. induction cs as [|c cs IH]; intros w Hw; simpl; auto using handle_lines_unique.
Qed.

(** * Witnesses *)

(** Two products, a merge into the first line and a quantity update. *)
Definition refine_session : list Call :=
  [AddToCart dog_food (Some (parseFloat "2")) JUndefined t0;
   AddToCart leash None size_m t1;
   AddToCart dog_food None JUndefined t1;
   UpdateQuantity "2-1736380000001" (parseFloat "3")].

Lemma run_refines_witness :
  abs_steps (outcomes refine_session fresh_world) (alpha (Cart.items (cart fresh_world)))
    (alpha (Cart.items (cart (run refine_session fresh_world)))).
Proof. apply run_refines; [constructor | vm_compute; reflexivity]. Defined.

Lemma run_preserves_lines_unique_witness :
  lines_unique (Cart.items (cart (run refine_session fresh_world))).
Proof. apply run_preserves_lines_unique. exact I. Defined.
