(* ===== verification/HeapCart.v ===== *)
(** * The hook over the JavaScript heap

    [UseCart] models the item objects of the hook's state as values.  The
    source shares them: [[...cart.items]] and [cart.items.filter] build new
    arrays of the same objects, [addToCart] mutates one of them in place,
    the spread [{...item, quantity}] of [updateQuantity] allocates a new
    one, and [updateCart] returns a cart whose [items] is the very array it
    was given.  This file keeps the objects in a heap ([gmap] from
    references to items), the state as an object holding an array of
    references, and writes each handler over it the way useCart.ts does.

    [handle_h_view] proves that, on a heap where the state's array holds
    distinct references to allocated objects, the heap model observed
    through [view] is the value model: [UseCart.handle] is exact, the
    in-place merge ([with_items]) included. *)

From S2P Require Import Prelude JsNumber Json CartModel WooCommerceCart UseCart.

Local Open Scope js_scope.

Abbreviation loc := positive.

(** The state object [cart]: its [items] array, a list of references, and
    its aggregates. *)
Record CartObj := mkCartObj {
  items_ref : list loc;
  agg_count : float;
  agg_subtotal : float;
  agg_shipping : float;
  agg_tax : float;
  agg_total : float
}.

Record HWorld := mkHWorld {
  cart_h : CartObj;
  heap : gmap loc CartItem.t;
  storage_h : LocalStorage.t
}.

(** The items an array of references points to. *)
Definition deref (h : gmap loc CartItem.t) (refs : list loc) : list CartItem.t :=
  omap (fun l => h !! l) refs.

(** [new] of an object: a reference not in use. *)
Definition alloc (h : gmap loc CartItem.t) (it : CartItem.t) : loc * gmap loc CartItem.t :=
  let l := fresh (dom h) in (l, <[l := it]> h).

(** The hook state as the value model sees it. *)
Definition view (hw : HWorld) : World :=
  let c := cart_h hw in
  mkWorld (Cart.mk (deref (heap hw) (items_ref c)) (agg_count c) (agg_subtotal c)
                   (agg_shipping c) (agg_tax c) (agg_total c))
          (storage_h hw).

(** [await WooCommerceAPI.updateCart(newItems); setCart(updatedCart)]:
    the returned cart object holds the array [newItems] itself. *)
Definition commit_h (hw : HWorld) (newRefs : list loc) : HWorld * outcome unit :=
  match updateCart (deref (heap hw) newRefs) (storage_h hw) with
  | Resolved (c, ls) =>
      (mkHWorld (mkCartObj newRefs (Cart.item_count c) (Cart.subtotal c) (Cart.shipping_total c)
                           (Cart.tax_total c) (Cart.total c))
                (heap hw) ls, Resolved tt)
  | Rejected e => (hw, Rejected e)
  end.

(** useCart.ts:8-36.  [newItems] is a copy of the array: the same
    references.  A merge writes [quantity] and [line_total] through the
    reference; a new line is a new object appended to the copy. *)
Definition addToCart_h (product : Product.t) (quantity : option float) (variation : jsval)
    (now : float) (hw : HWorld) : HWorld * outcome unit :=
  let q := default js_one quantity in
  let refs := items_ref (cart_h hw) in
  let existingItemIndex := findIndex (same_line product variation) (deref (heap hw) refs) in
  if (0 <=? existingItemIndex)%Z then
    match refs !! Z.to_nat existingItemIndex with
    | Some l => commit_h (mkHWorld (cart_h hw) (alter (bump q) l (heap hw)) (storage_h hw)) refs
    | None => (hw, Rejected TypeError)
    end
  else
    let '(l, h') := alloc (heap hw) (new_item product q variation now) in
    commit_h (mkHWorld (cart_h hw) h' (storage_h hw)) (refs ++ [l]).

(** useCart.ts:38-42: [filter] keeps the references whose object's key
    differs. *)
Definition removeFromCart_h (itemKey : string) (hw : HWorld) : HWorld * outcome unit :=
  commit_h hw (List.filter (fun l => match heap hw !! l with
                                     | Some it => negb (String.eqb (CartItem.key it) itemKey)
                                     | None => true
                                     end) (items_ref (cart_h hw))).

(** The [map] of useCart.ts:49-58, in array order: an item with the key
    is copied by the spread into a new object, the others are kept. *)
Fixpoint update_refs (itemKey : string) (quantity : float) (h : gmap loc CartItem.t)
    (refs : list loc) : gmap loc CartItem.t * list loc :=
  match refs with
  | [] => (h, [])
  | l :: rs =>
      match h !! l with
      | Some it =>
          if String.eqb (CartItem.key it) itemKey then
            let '(l', h1) := alloc h (set_quantity quantity it) in
            let '(h2, rs') := update_refs itemKey quantity h1 rs in (h2, l' :: rs')
          else let '(h2, rs') := update_refs itemKey quantity h rs in (h2, l :: rs')
      | None => let '(h2, rs') := update_refs itemKey quantity h rs in (h2, l :: rs')
      end
  end.

Definition updateQuantity_h (itemKey : string) (quantity : float) (hw : HWorld)
    : HWorld * outcome unit :=
  if quantity <= js_zero then removeFromCart_h itemKey hw
  else
    let '(h', refs') := update_refs itemKey quantity (heap hw) (items_ref (cart_h hw)) in
    commit_h (mkHWorld (cart_h hw) h' (storage_h hw)) refs'.

Definition clearCart_h (hw : HWorld) : HWorld * outcome unit := commit_h hw [].

Definition handle_h (c : Call) (hw : HWorld) : HWorld * outcome unit :=
  match c with
  | AddToCart p q v now => addToCart_h p q v now hw
  | RemoveFromCart k => removeFromCart_h k hw
  | UpdateQuantity k q => updateQuantity_h k q hw
  | ClearCart => clearCart_h hw
  end.

(** Calls one after the other, each to completion. *)
Fixpoint run_h (cs : list Call) (hw : HWorld) : HWorld :=
  match cs with
  | [] => hw
  | c :: cs' => run_h cs' (handle_h c hw).1
  end.

(** The state's array holds distinct references to allocated objects. *)
Definition heap_wf (hw : HWorld) : Prop :=
  NoDup (items_ref (cart_h hw)) /\ Forall (fun l => is_Some (heap hw !! l)) (items_ref (cart_h hw)).

(** * Lemmas *)

(** ** Reading through references *)

Definition allocated (h : gmap loc CartItem.t) (l : loc) : Prop := is_Some (h !! l).

Lemma alloc_fresh (h : gmap loc CartItem.t) : h !! fresh (dom h) = None.
Proof. apply not_elem_of_dom, is_fresh. Qed.

Lemma deref_cons (h : gmap loc CartItem.t) (l : loc) (refs : list loc) (it : CartItem.t) :
  h !! l = Some it -> deref h (l :: refs) = it :: deref h refs.
Proof. intros Hl. unfold deref. simpl. by rewrite Hl. Qed.

Lemma deref_app (h : gmap loc CartItem.t) (r1 r2 : list loc) :
  deref h (r1 ++ r2) = deref h r1 ++ deref h r2.
Proof. apply omap_app. Qed.

(** Only the objects the array references matter. *)
Lemma deref_ext (h h' : gmap loc CartItem.t) (refs : list loc) :
  (forall l, l ∈ refs -> h !! l = h' !! l) -> deref h refs = deref h' refs.
Proof.
  intros H. unfold deref. apply list_omap_ext, Forall_Forall2_diag, Forall_forall. exact H.
Qed.

Lemma deref_insert_other (h : gmap loc CartItem.t) (refs : list loc) (l : loc) (it : CartItem.t) :
  l ∉ refs -> deref (<[l := it]> h) refs = deref h refs.
Proof.
  intros Hl. apply deref_ext. intros l' Hl'. apply lookup_insert_ne. by intros ->.
Qed.

Lemma deref_weaken (h h' : gmap loc CartItem.t) (refs : list loc) :
  h ⊆ h' -> Forall (allocated h) refs -> deref h' refs = deref h refs.
Proof.
  intros Hsub. induction 1 as [|l refs [it Hl] _ IH]; [done|].
  rewrite !(deref_cons _ _ _ it); [by rewrite IH|done|by eapply lookup_weaken].
Qed.

Lemma allocated_not_fresh (h : gmap loc CartItem.t) (refs : list loc) :
  Forall (allocated h) refs -> fresh (dom h) ∉ refs.
Proof.
  intros Hall Hin. eapply Forall_forall in Hall; [|exact Hin].
  destruct Hall as [it Hit]. by rewrite alloc_fresh in Hit.
Qed.

Lemma length_deref (h : gmap loc CartItem.t) (refs : list loc) :
  Forall (allocated h) refs -> length (deref h refs) = length refs.
Proof.
  induction 1 as [|l refs [it Hl] _ IH]; [done|]. by rewrite (deref_cons _ _ _ it), !length_cons, IH.
Qed.

(** Writing through the [i]-th reference of an array of distinct
    references changes the [i]-th item it shows, and only that one. *)
Lemma deref_alter (f : CartItem.t -> CartItem.t) (h : gmap loc CartItem.t) (refs : list loc)
    (i : nat) (l : loc) :
  NoDup refs -> Forall (allocated h) refs -> refs !! i = Some l ->
  deref (alter f l h) refs = alter f i (deref h refs).
Proof.
  revert i. induction refs as [|l0 refs IH]; intros [|i] Hnd Hall Hi; try done; simpl in Hi.
  - injection Hi as ->. apply NoDup_cons in Hnd as [Hl Hnd].
    apply Forall_cons in Hall as [[it Hit] Hall].
    rewrite (deref_cons _ _ _ (f it)) by (rewrite lookup_alter_eq, Hit; reflexivity).
    rewrite (deref_cons _ _ _ it) by done. change (alter f 0 (it :: deref h refs)) with (f it :: deref h refs).
    f_equal. apply deref_ext. intros l' Hl'. apply lookup_alter_ne. by intros ->.
  - apply NoDup_cons in Hnd as [Hl0 Hnd]. apply Forall_cons in Hall as [[it Hit] Hall].
    assert (l0 <> l) as Hne.
    { intros ->. by apply Hl0, list_elem_of_lookup_2 with i. }
    rewrite (deref_cons _ _ _ it) by (by rewrite lookup_alter_ne).
    rewrite (deref_cons _ _ _ it) by done.
    change (alter f (S i) (it :: deref h refs)) with (it :: alter f i (deref h refs)).
    f_equal. by apply IH.
Qed.

(** [cart.items.filter(...)] over references is the filter over the
    items. *)
Lemma deref_filter (h : gmap loc CartItem.t) (refs : list loc) (p : CartItem.t -> bool) :
  Forall (allocated h) refs ->
  deref h (List.filter (fun l => match h !! l with Some it => p it | None => true end) refs) =
    List.filter p (deref h refs).
Proof.
  induction 1 as [|l refs [it Hl] _ IH]; [done|]. cbn [List.filter]. rewrite Hl.
  rewrite (deref_cons _ _ _ it) by done. cbn [List.filter].
  destruct (p it); [rewrite (deref_cons _ _ _ it) by done|]; by rewrite IH.
Qed.

Lemma allocated_weaken (h h' : gmap loc CartItem.t) (refs : list loc) :
  h ⊆ h' -> Forall (allocated h) refs -> Forall (allocated h') refs.
Proof.
  intros Hsub Hall. eapply Forall_impl; [exact Hall|]. intros l [it Hl].
  exists it. by eapply lookup_weaken.
Qed.

(** The [map] with spreads: the heap only grows, the new array shows
    [update_items] of the old one, and its references are distinct,
    allocated, and either old ones or new objects. *)
Lemma update_refs_spec (k : string) (q : float) (h : gmap loc CartItem.t) (refs : list loc) :
  NoDup refs -> Forall (allocated h) refs ->
  let '(h', refs') := update_refs k q h refs in
  h ⊆ h' /\ deref h' refs' = update_items k q (deref h refs) /\
  NoDup refs' /\ Forall (allocated h') refs' /\ Forall (fun l => l ∈ refs \/ h !! l = None) refs'.
Proof.
  revert h. induction refs as [|l refs IH]; intros h Hnd Hall; [done|].
  apply NoDup_cons in Hnd as [Hl Hnd]. apply Forall_cons in Hall as [[it Hit] Hall].
  cbn [update_refs]. rewrite Hit, (deref_cons _ _ _ it) by done.
  change (update_items k q (it :: deref h refs)) with
    ((if String.eqb (CartItem.key it) k then set_quantity q it else it) :: update_items k q (deref h refs)).
  destruct (String.eqb (CartItem.key it) k).
  - unfold alloc. set (l' := fresh (dom h)). set (h1 := <[l' := set_quantity q it]> h).
    assert (h ⊆ h1) as Hsub by apply insert_subseteq, alloc_fresh.
    assert (l' ∉ refs) as Hl'.
    { by apply allocated_not_fresh. }
    specialize (IH h1 Hnd (allocated_weaken _ _ _ Hsub Hall)).
    destruct (update_refs k q h1 refs) as [h2 rs'] eqn:E.
    destruct IH as (Hsub2 & Hd & Hnd' & Hall' & Hfrom).
    assert (h2 !! l' = Some (set_quantity q it)) as Hl2.
    { eapply lookup_weaken; [|exact Hsub2]. apply lookup_insert_eq. }
    split_and!.
    + by trans h1.
    + rewrite (deref_cons _ _ _ (set_quantity q it)) by done. rewrite Hd.
      subst h1. by rewrite deref_insert_other.
    + constructor; [|done]. intros Hin.
      destruct (proj1 (Forall_forall _ _) Hfrom l' Hin) as [Hr|Hn].
      * by apply Hl'.
      * subst h1. by rewrite lookup_insert_eq in Hn.
    + constructor; [by exists (set_quantity q it)|done].
    + constructor; [right; apply alloc_fresh|]. eapply Forall_impl; [exact Hfrom|].
      intros x [Hx|Hx]; [left; by right|right].
      destruct (h !! x) eqn:Ex; [|done]. subst h1. rewrite lookup_insert_ne in Hx; [congruence|].
      intros <-. subst l'. by rewrite alloc_fresh in Ex.
  - specialize (IH h Hnd Hall). destruct (update_refs k q h refs) as [h2 rs'] eqn:E.
    destruct IH as (Hsub2 & Hd & Hnd' & Hall' & Hfrom).
    split_and!.
    + done.
    + rewrite (deref_cons _ _ _ it) by (by eapply lookup_weaken). by rewrite Hd.
    + constructor; [|done]. intros Hin.
      destruct (proj1 (Forall_forall _ _) Hfrom l Hin) as [Hr|Hn].
      * by apply Hl.
      * by rewrite Hit in Hn.
    + constructor; [|done]. exists it. by eapply lookup_weaken.
    + constructor; [left; by left|]. eapply Forall_impl; [exact Hfrom|].
      intros x [Hx|Hx]; [left; by right|by right].
Qed.

(** ** The write *)

Lemma commit_h_view (hw : HWorld) (refs : list loc) :
  (view (commit_h hw refs).1, (commit_h hw refs).2) = commit (view hw) (deref (heap hw) refs).
Proof.
  unfold commit_h, commit. cbn [storage view].
  by destruct (updateCart_cases (deref (heap hw) refs) (storage_h hw)) as [(ls & _ & ->)|(e & _ & ->)].
Qed.

Lemma commit_h_wf (hw : HWorld) (refs : list loc) :
  heap_wf hw -> NoDup refs -> Forall (allocated (heap hw)) refs -> heap_wf (commit_h hw refs).1.
Proof.
  intros Hw Hnd Hall. unfold commit_h.
  destruct (updateCart (deref (heap hw) refs) (storage_h hw)) as [[c ls]|e]; [by split|done].
Qed.

(** A heap-level handler that commits [refs] from the pre-write state
    [hw0] is the value-level [commit] from [view hw0] of what [refs]
    shows. *)
Lemma commit_h_step (hw0 : HWorld) (refs : list loc) (w0 : World) (items : list CartItem.t) :
  heap_wf hw0 -> NoDup refs -> Forall (allocated (heap hw0)) refs ->
  view hw0 = w0 -> deref (heap hw0) refs = items ->
  (view (commit_h hw0 refs).1, (commit_h hw0 refs).2) = commit w0 items /\
  heap_wf (commit_h hw0 refs).1.
Proof.
  intros Hw Hnd Hall <- <-. split; [apply commit_h_view|by apply commit_h_wf].
Qed.

(** ** The handlers *)

Lemma view_heap (hw : HWorld) (h : gmap loc CartItem.t) :
  deref h (items_ref (cart_h hw)) = deref (heap hw) (items_ref (cart_h hw)) ->
  view (mkHWorld (cart_h hw) h (storage_h hw)) = view hw.
Proof. intros Hd. unfold view. simpl. by rewrite Hd. Qed.

Lemma NoDup_filter_bool {A} (f : A -> bool) (l : list A) : NoDup l -> NoDup (List.filter f l).
Proof. intros H. pose proof (NoDup_map_filter f (fun x => x) l) as H'. rewrite !map_id in H'. auto. Qed.

Lemma removeFromCart_h_view (k : string) (hw : HWorld) :
  heap_wf hw ->
  (view (removeFromCart_h k hw).1, (removeFromCart_h k hw).2) = removeFromCart k (view hw) /\
  heap_wf (removeFromCart_h k hw).1.
Proof.
  intros [Hnd Hall]. apply commit_h_step; [done|by apply NoDup_filter_bool|
    by apply Forall_filter_bool|done|by apply deref_filter].
Qed.

Lemma addToCart_h_view (p : Product.t) (q : option float) (v : jsval) (now : float) (hw : HWorld) :
  heap_wf hw ->
  (view (addToCart_h p q v now hw).1, (addToCart_h p q v now hw).2) = addToCart p q v now (view hw) /\
  heap_wf (addToCart_h p q v now hw).1.
Proof.
  intros [Hnd Hall]. unfold addToCart_h, addToCart.
  set (refs := items_ref (cart_h hw)) in *.
  change (Cart.items (cart (view hw))) with (deref (heap hw) refs).
  set (items := deref (heap hw) refs). set (q' := default js_one q).
  unfold add_items. fold items.
  destruct (Z.leb_spec 0 (findIndex (same_line p v) items)) as [Hi|Hi].
  - set (i := Z.to_nat (findIndex (same_line p v) items)).
    destruct (refs !! i) as [l|] eqn:El.
    + assert (Forall (allocated (alter (bump q') l (heap hw))) refs) as Hall'.
      { eapply Forall_impl; [exact Hall|]. intros l' Hl'. by apply lookup_alter_is_Some. }
      apply commit_h_step; [by split|done|done| |by apply deref_alter].
      unfold view. simpl. by rewrite (deref_alter _ _ _ i l).
    + exfalso. apply lookup_ge_None_1 in El. subst i.
      destruct (findIndex_range (same_line p v) items) as [E|E]; [lia|].
      subst items. rewrite length_deref in E by done. lia.
  - unfold alloc. set (l := fresh (dom (heap hw))).
    assert (l ∉ refs) as Hl by by apply allocated_not_fresh.
    assert (heap hw ⊆ <[l := new_item p q' v now]> (heap hw)) as Hsub by apply insert_subseteq, alloc_fresh.
    apply commit_h_step.
    + split; [done|]. exact (allocated_weaken _ _ _ Hsub Hall).
    + apply NoDup_app. split_and!; [done| |apply NoDup_singleton].
      by intros x Hx ->%list_elem_of_singleton.
    + apply Forall_app. split; [exact (allocated_weaken _ _ _ Hsub Hall)|].
      constructor; [|done]. eexists. apply lookup_insert_eq.
    + apply view_heap. cbn [heap]. by apply deref_insert_other.
    + cbn [heap]. rewrite deref_app, deref_insert_other by done.
      rewrite (deref_cons _ _ _ (new_item p q' v now)) by apply lookup_insert_eq. done.
Qed.

Lemma updateQuantity_h_view (k : string) (q : float) (hw : HWorld) :
  heap_wf hw ->
  (view (updateQuantity_h k q hw).1, (updateQuantity_h k q hw).2) = updateQuantity k q (view hw) /\
  heap_wf (updateQuantity_h k q hw).1.
Proof.
  intros Hw. unfold updateQuantity_h, updateQuantity. destruct (q <= js_zero).
  { by apply removeFromCart_h_view. }
  destruct Hw as [Hnd Hall].
  pose proof (update_refs_spec k q (heap hw) (items_ref (cart_h hw)) Hnd Hall) as Hspec.
  destruct (update_refs k q (heap hw) (items_ref (cart_h hw))) as [h' refs'].
  destruct Hspec as (Hsub & Hd & Hnd' & Hall' & _).
  apply commit_h_step; [split; [done|exact (allocated_weaken _ _ _ Hsub Hall)]|done|done| |done].
  apply view_heap. by apply deref_weaken.
Qed.

Lemma clearCart_h_view (hw : HWorld) :
  heap_wf hw ->
  (view (clearCart_h hw).1, (clearCart_h hw).2) = clearCart (view hw) /\ heap_wf (clearCart_h hw).1.
Proof.
  intros [Hnd Hall]. unfold clearCart_h, clearCart.
  apply commit_h_step; [by split|constructor|constructor|done|done].
Qed.

Lemma handle_h_view (c : Call) (hw : HWorld) :
  heap_wf hw ->
  (view (handle_h c hw).1, (handle_h c hw).2) = handle c (view hw) /\ heap_wf (handle_h c hw).1.
Proof.
  intros Hw. destruct c as [p q v now|k|k q|].
  - exact (addToCart_h_view p q v now hw Hw).
  - exact (removeFromCart_h_view k hw Hw).
  - exact (updateQuantity_h_view k q hw Hw).
  - exact (clearCart_h_view hw Hw).
Qed.

(** * Theorems *)

(** C21. The value model is exact: on a heap where the state's array
    holds distinct references to allocated objects, running any session
    of calls over the heap (shared item objects, the in-place merge, the
    objects the spreads allocate) and then reading the state gives the
    world [UseCart.run] computes, and the heap stays well formed. *)
Theorem run_h_view (cs : list Call) (hw : HWorld) :
  heap_wf hw -> view (run_h cs hw) = run cs (view hw) /\ heap_wf (run_h cs hw).
Proof.
  revert hw. induction cs as [|c cs IH]; intros hw Hw; simpl; [done|].
  destruct (handle_h_view c hw Hw) as [Hv Hw']. apply (f_equal fst) in Hv. cbn [fst] in Hv.
  rewrite <- Hv. by apply IH.
Qed.

(** * Witnesses *)

(** The state of a fresh hook: an empty array, no objects. *)
Definition fresh_heap_world : HWorld :=
  mkHWorld (mkCartObj [] js_zero js_zero js_zero js_zero js_zero) ∅ browser_storage.

Lemma run_h_view_witness :
  view (run_h demo_session fresh_heap_world) = run demo_session (view fresh_heap_world) /\
  heap_wf (run_h demo_session fresh_heap_world).
Proof. apply run_h_view. split; constructor. Defined.
