(* ===== verification/SameRender.v ===== *)
(** * Handler calls made by one closure

    The handlers [useCart] returns close over the [cart] of the render
    that created them (useCart.ts:6-67).  A component that calls them more
    than once from one closure, such as a loop [for (p of ps) await
    addToCart(p)] or two calls in one click handler, makes every call
    read the same [cart.items], whatever the earlier calls did: [setCart]
    only changes the [cart] of the next render.  The item objects are
    shared through the heap, though, so a later call sees the objects an
    earlier call mutated in place.

    Over the heap model of [HeapCart], [call_from snap] is a handler call
    made from the render whose state was [snap]: it reads [snap] and the
    current heap and storage; on resolution its [setCart] replaces the
    state, on rejection the state stays.  [closure_calls] shows what a
    later call computes from: the render's lines with the earlier calls'
    in-place merges, and nothing else of those calls.  [Microtasks] shows
    that calls not awaited settle the same way. *)

From S2P Require Import Prelude JsNumber Json CartModel WooCommerceCart UseCart HeapCart.

Local Open Scope js_scope.

(** A handler call of the closure created when the state was [snap]. *)
Definition call_from (snap : CartObj) (c : Call) (hw : HWorld) : HWorld * outcome unit :=
  match handle_h c (mkHWorld snap (heap hw) (storage_h hw)) with
  | (hw', Resolved u) => (hw', Resolved u)
  | (hw', Rejected e) => (mkHWorld (cart_h hw) (heap hw') (storage_h hw'), Rejected e)
  end.

(** Calls of one closure, one after the other, each awaited. *)
Fixpoint run_from (snap : CartObj) (cs : list Call) (hw : HWorld) : HWorld :=
  match cs with
  | [] => hw
  | c :: cs' => run_from snap cs' (call_from snap c hw).1
  end.

(** What a call leaves of the lines an older array of references points
    to: only the in-place merge of [addToCart] writes to shared objects. *)
Definition seen_after (c : Call) (items : list CartItem.t) : list CartItem.t :=
  match c with
  | AddToCart p q v now =>
      if (0 <=? findIndex (same_line p v) items)%Z then add_items items p (default js_one q) v now
      else items
  | _ => items
  end.

(** * Lemmas *)

Lemma commit_h_heap hw refs : heap (commit_h hw refs).1 = heap hw.
Proof. unfold commit_h. by destruct (updateCart _ _) as [[c ls]|e]. Qed.

Lemma call_from_heap snap c hw :
  heap (call_from snap c hw).1 = heap (handle_h c (mkHWorld snap (heap hw) (storage_h hw))).1.
Proof. unfold call_from. by destruct (handle_h c _) as [hw' [u|e]]. Qed.

(** A merge finds a reference at the index [findIndex] returns. *)
Lemma merge_ref (h : gmap loc CartItem.t) (refs : list loc) (f : CartItem.t -> bool) :
  Forall (allocated h) refs -> (0 <= findIndex f (deref h refs))%Z ->
  exists l, refs !! Z.to_nat (findIndex f (deref h refs)) = Some l.
Proof.
  intros Hall Hi. apply lookup_lt_is_Some_2.
  destruct (findIndex_range f (deref h refs)) as [E|E]; [lia|].
  rewrite length_deref in E by done. lia.
Qed.

(** A call keeps every object of the state allocated, and the state's old
    array then shows the old lines with the call's in-place merge. *)
Lemma handle_h_old_refs c hw :
  heap_wf hw ->
  Forall (allocated (heap (handle_h c hw).1)) (items_ref (cart_h hw)) /\
  deref (heap (handle_h c hw).1) (items_ref (cart_h hw)) =
    seen_after c (deref (heap hw) (items_ref (cart_h hw))).
Proof.
  intros [Hnd Hall]. set (refs := items_ref (cart_h hw)) in *.
  destruct c as [p q v now|k|k q|]; cbn [handle_h seen_after].
  - unfold addToCart_h. cbv zeta. fold refs. set (items := deref (heap hw) refs).
    destruct (Z.leb_spec 0 (findIndex (same_line p v) items)) as [Hi|Hi].
    + destruct (merge_ref _ _ _ Hall Hi) as [l El]. fold items in El.
      rewrite El. cbv beta iota. rewrite commit_h_heap.
      cbn [heap]. split.
      * eapply Forall_impl; [exact Hall|]. intros l' Hl'. by apply lookup_alter_is_Some.
      * rewrite (deref_alter _ _ _ _ l) by done. unfold add_items. fold items.
        by destruct (Z.leb_spec 0 (findIndex (same_line p v) items)); [|lia].
    + unfold alloc. cbv beta iota. rewrite commit_h_heap. cbn [heap].
      assert (heap hw ⊆ <[fresh (dom (heap hw)) := new_item p (default js_one q) v now]> (heap hw))
        as Hsub by apply insert_subseteq, alloc_fresh.
      split; [exact (allocated_weaken _ _ _ Hsub Hall)|].
      rewrite deref_insert_other by by apply allocated_not_fresh. done.
  - unfold removeFromCart_h. by rewrite commit_h_heap.
  - unfold updateQuantity_h. fold refs. destruct (q <= js_zero).
    + unfold removeFromCart_h. by rewrite commit_h_heap.
    + pose proof (update_refs_spec k q (heap hw) refs Hnd Hall) as Hspec.
      destruct (update_refs k q (heap hw) refs) as [h' refs'].
      destruct Hspec as (Hsub & _). cbv beta iota. rewrite commit_h_heap. cbn [heap].
      split; [exact (allocated_weaken _ _ _ Hsub Hall)|]. by apply deref_weaken.
  - unfold clearCart_h. by rewrite commit_h_heap.
Qed.

(** Along calls of one closure, the closure's array of references keeps
    pointing to allocated objects, which show the render's lines with the
    calls' in-place merges. *)
Lemma run_from_old_refs (snap : CartObj) (cs : list Call) (hw : HWorld) :
  NoDup (items_ref snap) -> Forall (allocated (heap hw)) (items_ref snap) ->
  Forall (allocated (heap (run_from snap cs hw))) (items_ref snap) /\
  deref (heap (run_from snap cs hw)) (items_ref snap) =
    fold_left (fun items c => seen_after c items) cs (deref (heap hw) (items_ref snap)).
Proof.
  intros Hnd. revert hw. induction cs as [|c cs IH]; intros hw Hall; [done|]. cbn [run_from fold_left].
  destruct (handle_h_old_refs c (mkHWorld snap (heap hw) (storage_h hw))) as [Hall1 Hd1];
    [by split|].
  cbn [cart_h heap] in Hall1, Hd1. rewrite <- call_from_heap in Hall1, Hd1.
  rewrite <- Hd1. by apply IH.
Qed.

(** A call from a closure whose references are well formed settles as
    [handle] does on the closure's view, and sets that state when it
    resolves. *)
Lemma call_from_view (snap : CartObj) (c : Call) (hw : HWorld) :
  heap_wf (mkHWorld snap (heap hw) (storage_h hw)) ->
  (call_from snap c hw).2 = (handle c (view (mkHWorld snap (heap hw) (storage_h hw)))).2 /\
  ((call_from snap c hw).2 = Resolved tt ->
   view (call_from snap c hw).1 = (handle c (view (mkHWorld snap (heap hw) (storage_h hw)))).1 /\
   heap_wf (call_from snap c hw).1).
Proof.
  intros Hwf. destruct (handle_h_view c _ Hwf) as [Hv Hwf2]. rewrite <- Hv.
  unfold call_from. destruct (handle_h c _) as [hw2 [u|e]]; cbn [fst snd] in *; [by split|].
  split; [done|discriminate].
Qed.

(** The closure's view after calls [cs]: its render's cart showing the
    lines [seen_after] leaves. *)
Lemma closure_view (cs : list Call) (hw : HWorld) :
  heap_wf hw ->
  let snap := cart_h hw in
  let hwn := run_from snap cs hw in
  let seen := fold_left (fun items c => seen_after c items) cs (Cart.items (cart (view hw))) in
  Forall (allocated (heap hwn)) (items_ref snap) /\
  deref (heap hwn) (items_ref snap) = seen /\
  heap_wf (mkHWorld snap (heap hwn) (storage_h hwn)) /\
  view (mkHWorld snap (heap hwn) (storage_h hwn)) =
    mkWorld (with_items (cart (view hw)) seen) (storage_h hwn).
Proof.
  intros [Hnd Hall] snap hwn seen.
  destruct (run_from_old_refs snap cs hw Hnd Hall) as [Halln Hd]. fold hwn in Halln, Hd.
  split_and!; [exact Halln|exact Hd|split; [exact Hnd|exact Halln]|].
  unfold view. cbn [cart_h heap storage_h]. rewrite Hd. reflexivity.
Qed.

(** * Theorems *)

(** C35. Calls made from one closure work on the closure's render: after
    any calls [cs] from the closure of state [hw], the render's array of
    references still points to allocated objects, which show the
    render's lines with exactly the in-place merges of [cs]
    ([seen_after]); and a further call [c] from the closure that resolves
    sets the state [handle c] computes from the render's cart with those
    lines.  A line an earlier call appended is dropped, a line it removed
    comes back, a quantity it set is undone, the cart it cleared is
    refilled; a merge it made is kept, because the line object is
    shared. *)
Theorem closure_calls (cs : list Call) (c : Call) (hw : HWorld) (w' : World) :
  heap_wf hw ->
  let snap := cart_h hw in
  let hwn := run_from snap cs hw in
  let seen := fold_left (fun items c => seen_after c items) cs (Cart.items (cart (view hw))) in
  Forall (allocated (heap hwn)) (items_ref snap) /\
  deref (heap hwn) (items_ref snap) = seen /\
  (handle c (mkWorld (with_items (cart (view hw)) seen) (storage_h hwn)) = (w', Resolved tt) ->
   view (call_from snap c hwn).1 = w' /\ heap_wf (call_from snap c hwn).1).
Proof.
  intros Hw snap hwn seen.
  destruct (closure_view cs hw Hw) as (Halln & Hd & Hwf & Hv). fold snap hwn seen in Halln, Hd, Hwf, Hv.
  split_and!; [exact Halln|exact Hd|intros Hh].
  destruct (call_from_view snap c hwn Hwf) as [Hr Hres]. rewrite Hv, Hh in Hr, Hres.
  exact (Hres Hr).
Qed.

(** * Scenarios *)

(** The heap of a hook with one line of dog food. *)
Definition one_line_heap_world : HWorld := run_h [AddToCart dog_food None JUndefined t0] fresh_heap_world.

(** C38. Awaiting [addToCart] twice from one closure loses the first
    new line: from any well-formed state, adding a product that has no
    line and then another that has none either, both from the closure of
    that render, leaves the state (if the second call resolves) with the
    render's lines and the second product's new line only; the first
    product's line, stored by the first call, is gone from the state and
    from the next write. *)
Theorem closure_loses_appends (hw : HWorld) (p1 p2 : Product.t) (q1 q2 : option float)
    (v1 v2 : jsval) (n1 n2 : float) :
  heap_wf hw ->
  Forall (fun it => same_line p1 v1 it = false) (Cart.items (cart (view hw))) ->
  Forall (fun it => same_line p2 v2 it = false) (Cart.items (cart (view hw))) ->
  let hw1 := (call_from (cart_h hw) (AddToCart p1 q1 v1 n1) hw).1 in
  (call_from (cart_h hw) (AddToCart p2 q2 v2 n2) hw1).2 = Resolved tt ->
  Cart.items (cart (view (call_from (cart_h hw) (AddToCart p2 q2 v2 n2) hw1).1)) =
    Cart.items (cart (view hw)) ++ [new_item p2 (default js_one q2) v2 n2].
Proof.
  intros Hw H1 H2 hw1 Hr.
  destruct (closure_view [AddToCart p1 q1 v1 n1] hw Hw) as (_ & _ & Hwf & Hv).
  cbn [run_from fold_left seen_after] in Hwf, Hv. fold hw1 in Hwf, Hv.
  rewrite (proj2 (findIndex_none _ _) H1) in Hv. change ((0 <=? -1)%Z) with false in Hv.
  cbv iota in Hv.
  destruct (call_from_view (cart_h hw) (AddToCart p2 q2 v2 n2) hw1 Hwf) as [Hr' Hres].
  rewrite Hv in Hr', Hres. destruct (Hres Hr) as [-> _].
  rewrite Hr in Hr'. unfold handle, addToCart in Hr' |- *. cbn [cart Cart.items with_items] in Hr' |- *.
  rewrite (proj2 (findIndex_none _ _) H2) in Hr' |- *. change ((0 <=? -1)%Z) with false in Hr' |- *.
  cbv iota in Hr' |- *.
  destruct (commit _ _) as [w' r] eqn:E. cbn [snd fst] in *. subst r.
  destruct (commit_outcome _ _ _ _ E) as [(_ & ->)|[? _]]; [|discriminate].
  cbn. by apply add_items_new.
Qed.

(** * Witnesses *)

Lemma closure_calls_witness :
  let hw1 := run_from (cart_h fresh_heap_world) [AddToCart leash None JUndefined t0] fresh_heap_world in
  let w2 := (handle (AddToCart dog_food None JUndefined t1)
               (mkWorld (with_items (cart (view fresh_heap_world))
                          (seen_after (AddToCart leash None JUndefined t0) []))
                        (storage_h hw1))).1 in
  view (call_from (cart_h fresh_heap_world) (AddToCart dog_food None JUndefined t1) hw1).1 = w2 /\
  heap_wf (call_from (cart_h fresh_heap_world) (AddToCart dog_food None JUndefined t1) hw1).1.
Proof.
  intros hw1 w2.
  destruct (closure_calls [AddToCart leash None JUndefined t0] (AddToCart dog_food None JUndefined t1)
              fresh_heap_world w2) as (_ & _ & H); [split; constructor|].
  apply H. vm_compute. reflexivity.
Defined.

Lemma closure_loses_appends_witness :
  let hw1 := (call_from (cart_h fresh_heap_world) (AddToCart leash None JUndefined t0) fresh_heap_world).1 in
  Cart.items (cart (view (call_from (cart_h fresh_heap_world) (AddToCart dog_food None JUndefined t1) hw1).1)) =
    Cart.items (cart (view fresh_heap_world)) ++ [new_item dog_food (default js_one None) JUndefined t1].
Proof.
  intros hw1. apply closure_loses_appends; [split; constructor|constructor|constructor|].
  vm_compute. reflexivity.
Defined.
