(* ===== verification/Microtasks.v ===== *)
(** * Handler calls that are not awaited: the microtask queue

    Every handler of useCart.ts is an [async] function that runs
    synchronously up to its [await WooCommerceAPI.updateCart(...)]:
    [updateCart] is itself [async], so its whole body, the aggregates and
    the [localStorage.setItem] write, runs before it returns its promise
    (woocommerce.ts:105-119).  What follows the [await], [setCart(updatedCart)]
    or the rejection of the handler's promise when [updateCart] threw, is
    a continuation the JavaScript job queue runs later, in the order the
    [await]s were reached.

    A component may call handlers without awaiting them
    ([addToCart(a); addToCart(b)] in one click handler), or await each
    one; either way the calls read the [cart] of one render.  [start] is
    the synchronous part of a call from the closure of state [snap],
    [resume] its continuation, and [asteps] every schedule of a sequence
    of calls: any interleaving of the calls' synchronous parts with the
    continuations, the queue kept first in, first out.  [settle] is the
    world once the queue is run. *)

From S2P Require Import Prelude JsNumber Json CartModel WooCommerceCart UseCart HeapCart SameRender.

Local Open Scope js_scope.

(** The synchronous part of a call: the handler's body up to its
    [await], with [updateCart]'s write; the state is not set yet.  It
    leaves the continuation: the cart [setCart] will set, or [None] when
    [updateCart] threw and the handler's promise rejects. *)
Definition start (snap : CartObj) (c : Call) (hw : HWorld) : HWorld * option CartObj :=
  let '(hw', r) := handle_h c (mkHWorld snap (heap hw) (storage_h hw)) in
  (mkHWorld (cart_h hw) (heap hw') (storage_h hw'),
   match r with Resolved _ => Some (cart_h hw') | Rejected _ => None end).

(** The continuation: [setCart(updatedCart)] (useCart.ts:35, 41, 61, 66). *)
Definition resume (k : option CartObj) (hw : HWorld) : HWorld :=
  match k with
  | Some o => mkHWorld o (heap hw) (storage_h hw)
  | None => hw
  end.

(** The hook's world and the continuations waiting in the job queue. *)
Record Sched := mkSched {
  world : HWorld;
  queue : list (option CartObj)
}.

(** The world once every waiting continuation has run, in queue order. *)
Definition settle (s : Sched) : HWorld := fold_left (fun hw k => resume k hw) (queue s) (world s).

(** A call reaches its [await]: its continuation joins the queue. *)
Definition call_step (snap : CartObj) (c : Call) (s : Sched) : Sched :=
  let '(hw', k) := start snap c (world s) in mkSched hw' (queue s ++ [k]).

(** [asteps snap s cs s']: from [s], the calls [cs] of the closure of
    [snap] are made in order, and continuations run whenever the queue
    is not empty, ending in [s']. *)
Inductive asteps (snap : CartObj) : Sched -> list Call -> Sched -> Prop :=
| asteps_done s : asteps snap s [] s
| asteps_call s c cs s' : asteps snap (call_step snap c s) cs s' -> asteps snap s (c :: cs) s'
| asteps_tick s k ks cs s' :
    queue s = k :: ks -> asteps snap (mkSched (resume k (world s)) ks) cs s' -> asteps snap s cs s'.

(** The schedule of the calls in one synchronous block: every call
    reaches its [await], then the queue runs. *)
Fixpoint drain (s : Sched) (fuel : nat) : Sched :=
  match fuel, queue s with
  | S n, k :: ks => drain (mkSched (resume k (world s)) ks) n
  | _, _ => s
  end.

Definition unawaited (snap : CartObj) (cs : list Call) (hw : HWorld) : Sched :=
  let s := fold_left (fun s c => call_step snap c s) cs (mkSched hw []) in
  drain s (length (queue s)).

(** * Lemmas *)

(** A call is its synchronous part followed by its continuation. *)
Lemma call_from_start snap c hw :
  (call_from snap c hw).1 = resume (start snap c hw).2 (start snap c hw).1.
Proof. unfold call_from, start. by destruct (handle_h c _) as [[] [u|e]]. Qed.

(** The synchronous part does not read the state, and does not set it. *)
Lemma start_resume snap c k hw :
  start snap c (resume k hw) = (resume k (start snap c hw).1, (start snap c hw).2).
Proof. unfold start. destruct k; cbn; by destruct (handle_h c _) as [hw' [u|e]]. Qed.

Lemma start_settle snap c q hw :
  start snap c (fold_left (fun hw k => resume k hw) q hw) =
    (fold_left (fun hw k => resume k hw) q (start snap c hw).1, (start snap c hw).2).
Proof.
  revert hw. induction q as [|k q IH]; intros hw; cbn [fold_left]; [by destruct (start _ _ _)|].
  rewrite IH, start_resume. done.
Qed.

(** Making a call is, once the queue has run, the call run to completion
    after the queue. *)
Lemma settle_call_step snap c s :
  settle (call_step snap c s) = (call_from snap c (settle s)).1.
Proof.
  unfold settle, call_step. rewrite call_from_start, start_settle.
  destruct (start snap c (world s)) as [hw' k] eqn:E. cbn [queue world].
  by rewrite fold_left_app.
Qed.

(** ** Every schedule settles to the calls made one after the other *)

Lemma asteps_settle snap s cs s' :
  asteps snap s cs s' -> settle s' = run_from snap cs (settle s).
Proof.
  induction 1 as [s|s c cs s' _ IH|s k ks cs s' Hq _ IH]; [done|..].
  - rewrite IH, settle_call_step. done.
  - rewrite IH. unfold settle at 2. rewrite Hq. done.
Qed.

Lemma asteps_app snap s1 cs1 s2 cs2 s3 :
  asteps snap s1 cs1 s2 -> asteps snap s2 cs2 s3 -> asteps snap s1 (cs1 ++ cs2) s3.
Proof. induction 1; intros; [done|by constructor; auto|by econstructor; eauto]. Qed.

Lemma drain_asteps snap s n : asteps snap s [] (drain s n).
Proof.
  revert s. induction n as [|n IH]; intros [hw q]; [constructor|].
  destruct q as [|k ks]; cbn; [constructor|]. by eapply asteps_tick; [reflexivity|apply IH].
Qed.

Lemma drain_empty s n : (length (queue s) <= n)%nat -> queue (drain s n) = [].
Proof.
  revert s. induction n as [|n IH]; intros [hw [|k ks]] Hl; cbn in *; try done; [lia|].
  apply IH. cbn. lia.
Qed.

Lemma calls_asteps snap cs s :
  asteps snap s cs (fold_left (fun s c => call_step snap c s) cs s).
Proof.
  revert s. induction cs as [|c cs IH]; intros s; [constructor|]. constructor. apply IH.
Qed.

(** The schedule [unawaited] is one of the schedules. *)
Lemma unawaited_asteps snap cs hw : asteps snap (mkSched hw []) cs (unawaited snap cs hw).
Proof.
  unfold unawaited. rewrite <- (app_nil_r cs) at 1.
  eapply asteps_app; [apply calls_asteps|apply drain_asteps].
Qed.

Lemma unawaited_settled snap cs hw : queue (unawaited snap cs hw) = [].
Proof. unfold unawaited. by apply drain_empty. Qed.

(** * Theorems *)

(** C36. Whether a closure's handler calls are awaited one by one or
    made in one go, and however the continuations of their [await]s are
    interleaved with the later calls, once the job queue has run the
    hook's state, its item objects and localStorage are those of the
    calls run to completion one after the other from that closure
    ([run_from]): the order of the [setCart]s is the order of the calls,
    and a call's synchronous part neither reads nor sets the state. *)
Theorem schedule_settles (snap : CartObj) (cs : list Call) (hw : HWorld) (s : Sched) :
  asteps snap (mkSched hw []) cs s -> queue s = [] -> world s = run_from snap cs hw.
Proof.
  intros Hs Hq. apply asteps_settle in Hs. unfold settle in Hs at 1. rewrite Hq in Hs. exact Hs.
Qed.

(** * Scenarios *)

(** [addToCart(leash); addToCart(dogFood)] in one click handler on an
    empty cart: both calls read the empty cart, the second [setCart] and
    the second write win, and the leash is lost. *)
Example unawaited_loses_leash :
  let s := unawaited (cart_h fresh_heap_world)
             [AddToCart leash None JUndefined t0; AddToCart dog_food None JUndefined t0]
             fresh_heap_world in
  map CartItem.name (Cart.items (cart (view (world s)))) = ["Dog food"] /\
  LocalStorage.getItem CART_KEY (storage_h (world s)) = Some (cart_text (cart (view (world s)))).
Proof. vm_compute. split; reflexivity. Qed.

(** * Witnesses *)

Lemma schedule_settles_witness :
  let cs := [AddToCart leash None JUndefined t0; AddToCart dog_food None JUndefined t0] in
  world (unawaited (cart_h fresh_heap_world) cs fresh_heap_world) =
    run_from (cart_h fresh_heap_world) cs fresh_heap_world.
Proof.
  intros cs. apply schedule_settles; [apply unawaited_asteps|vm_compute; reflexivity].
Defined.
