(* ===== verification/WooCommerceClient.v ===== *)
(** * The REST client of [WooCommerceAPI]

    woocommerce.ts:4-102: the axios instance [wcApi] (base URL and basic
    authentication from the build environment, JSON content type) and the
    seven REST methods.  The server is a [Section] variable [http] from a
    request to the settled [response.data]: axios resolves with the body of
    a 2xx response and rejects otherwise.  Each method either returns
    [response.data] or, in its [catch], returns a fallback ([[]] or
    [null]) or rethrows. *)

From S2P Require Import Prelude JsNumber Json.
From Stdlib Require Import Ascii.

(** ** The axios instance (woocommerce.ts:4-18) *)

Module Config.
Record t := mk {
  baseURL : string;
  username : string;
  password : string;
  content_type : string
}.
End Config.

(** [import.meta.env.K || fallback]: an unset variable is [undefined], an
    empty one is falsy; both give the fallback. *)
Definition env_or (env : string -> option string) (k fallback : string) : string :=
  match env k with
  | Some v => if String.eqb v "" then fallback else v
  | None => fallback
  end.

Definition wcApi (env : string -> option string) : Config.t :=
  Config.mk (env_or env "VITE_WC_API_BASE_URL" "https://tu-dominio.com/wp-json/wc/v3")
            (env_or env "VITE_WC_CONSUMER_KEY" "")
            (env_or env "VITE_WC_CONSUMER_SECRET" "")
            "application/json".

(** axios [combineURLs(baseURL, url)]: [baseURL.replace(/\/?\/$/, '') + '/'
    + url.replace(/^\/+/, '')]. *)
Definition slash : ascii := "/"%char.

Fixpoint drop_leading_slashes (s : string) : string :=
  match s with
  | String c s' => if Ascii.eqb c slash then drop_leading_slashes s' else s
  | EmptyString => EmptyString
  end.

Definition drop_trailing_slashes (s : string) : string :=
  let r := rev (String.list_ascii_of_string s) in
  let r' := match r with
            | c :: c' :: t =>
                if Ascii.eqb c slash then (if Ascii.eqb c' slash then t else c' :: t) else r
            | [c] => if Ascii.eqb c slash then [] else r
            | [] => r
            end in
  String.string_of_list_ascii (rev r').

Definition combineURLs (base url : string) : string :=
  drop_trailing_slashes base +:+ "/" +:+ drop_leading_slashes url.

Inductive method := GET | POST.

(** The request axios sends: method, full URL, query parameters (the
    [params] option, [JUndefined] when absent), JSON body and basic
    credentials. *)
Record Request := mkRequest {
  req_method : method;
  req_url : string;
  req_params : jsval;
  req_body : jsval;
  req_auth : string * string;
  req_content_type : string
}.

Definition request (cfg : Config.t) (m : method) (path : string) (params body : jsval) : Request :=
  mkRequest m (combineURLs (Config.baseURL cfg) path) params body
            (Config.username cfg, Config.password cfg) (Config.content_type cfg).

(** ** JavaScript helpers of [getProductBySlug] *)

(** [v[0]]: the element or property ["0"], [undefined] when there is none;
    reading a property of [null] or [undefined] throws. *)
Definition index0 (v : jsval) : outcome jsval :=
  match v with
  | JUndefined | JNull => Rejected TypeError
  | JArray (x :: _) => Resolved x
  | JObject ps => Resolved (default JUndefined (snd <$> List.find (fun kv => String.eqb kv.1 "0") ps))
  | JString (String c _) => Resolved (JString (String c EmptyString))
  | _ => Resolved JUndefined
  end.

(** [ToBoolean]. *)
Definition truthy (v : jsval) : bool :=
  match v with
  | JUndefined | JNull => false
  | JBool b => b
  | JNumber n => negb (PrimFloat.is_zero n || PrimFloat.is_nan n)
  | JString s => negb (String.eqb s "")
  | JArray _ | JObject _ => true
  end.

(** ** The methods (woocommerce.ts:22-102) *)

Section Client.
Context (env : string -> option string) (http : Request -> outcome jsval).

Let get (path : string) (params : jsval) : outcome jsval :=
  http (request (wcApi env) GET path params JUndefined).

(** [try { return (await wcApi.get(...)).data } catch { return fallback }] *)
Definition or_fallback (r : outcome jsval) (fallback : jsval) : outcome jsval :=
  match r with
  | Resolved data => Resolved data
  | Rejected _ => Resolved fallback
  end.

(** [try { return (await ...).data } catch (error) { throw error }] *)
Definition or_rethrow (r : outcome jsval) : outcome jsval :=
  match r with
  | Resolved data => Resolved data
  | Rejected e => Rejected e
  end.

Definition getProducts (params : jsval) : outcome jsval :=
  or_fallback (get "/products" params) (JArray []).

Definition getProduct (id : float) : outcome jsval :=
  or_rethrow (get ("/products/" +:+ number_to_string id) JUndefined).

(** [return response.data[0] || null], inside the [try]: a [TypeError] of
    [data[0]] is caught too. *)
Definition getProductBySlug (slug : string) : outcome jsval :=
  let r := match get "/products" (JObject [("slug", JString slug)]) with
           | Resolved data =>
               match index0 data with
               | Resolved x => Resolved (if truthy x then x else JNull)
               | Rejected e => Rejected e
               end
           | Rejected e => Rejected e
           end in
  or_fallback r JNull.

Definition getCategories : outcome jsval :=
  or_fallback (get "/products/categories" JUndefined) (JArray []).

Definition getProductVariations (productId : float) : outcome jsval :=
  or_fallback (get ("/products/" +:+ number_to_string productId +:+ "/variations") JUndefined)
              (JArray []).

Definition createOrder (orderData : jsval) : outcome jsval :=
  or_rethrow (http (request (wcApi env) POST "/orders" JUndefined orderData)).

Definition getOrder (id : float) : outcome jsval :=
  or_rethrow (get ("/orders/" +:+ number_to_string id) JUndefined).
End Client.

(** * Lemmas *)

Lemma or_fallback_resolved r fallback : exists d, or_fallback r fallback = Resolved d.
Proof. destruct r; eauto. Qed.

Lemma or_fallback_rejected e fallback : or_fallback (Rejected e) fallback = Resolved fallback.
Proof. reflexivity. Qed.

Lemma or_rethrow_id r : or_rethrow r = r.
Proof. by destruct r. Qed.

#[export] Hint Resolve or_fallback_resolved : cart.
#[export] Hint Rewrite or_fallback_rejected or_rethrow_id : js_rw.

(** The request each method sends. *)
Definition slug_request (env : string -> option string) (slug : string) : Request :=
  request (wcApi env) GET "/products" (JObject [("slug", JString slug)]) JUndefined.

(** * Theorems *)

(** C11. Reads degrade: whatever the server does, [getProducts],
    [getProductBySlug], [getCategories] and [getProductVariations] never
    reject, and when the request fails they resolve to [[]] (the lists) or
    [null] (the lookup by slug). *)
Theorem reads_never_reject (env : string -> option string) (http : Request -> outcome jsval)
    (params : jsval) (slug : string) (pid : float) :
  (exists d, getProducts env http params = Resolved d) /\
  (exists d, getProductBySlug env http slug = Resolved d) /\
  (exists d, getCategories env http = Resolved d) /\
  (exists d, getProductVariations env http pid = Resolved d) /\
  ((forall r, exists e, http r = Rejected e) ->
   getProducts env http params = Resolved (JArray []) /\
   getProductBySlug env http slug = Resolved JNull /\
   getCategories env http = Resolved (JArray []) /\
   getProductVariations env http pid = Resolved (JArray [])).
Proof.
  unfold getProducts, getProductBySlug, getCategories, getProductVariations.
  split_and!; auto with cart.
  intros Hfail.
  repeat match goal with |- context [http ?r] => destruct (Hfail r) as [? ->] end.
  done.
Qed.

(** C12. Writes fail loudly: when the request of [createOrder] (a POST
    of the order to [/orders]) or of [getOrder(id)] (a GET of
    [/orders/<id>]) fails, the method rejects with that same error
    instead of resolving to a fallback as the reads do, so a lost order
    reaches the caller (spec, section 4.2). *)
Theorem writes_propagate (env : string -> option string) (http : Request -> outcome jsval)
    (orderData : jsval) (id : float) (e : js_error) :
  (http (request (wcApi env) POST "/orders" JUndefined orderData) = Rejected e ->
   createOrder env http orderData = Rejected e) /\
  (http (request (wcApi env) GET ("/orders/" +:+ number_to_string id) JUndefined JUndefined)
     = Rejected e ->
   getOrder env http id = Rejected e).
Proof. unfold createOrder, getOrder. rewrite !or_rethrow_id. by split; intros ->. Qed.

(** C13. [getProduct(id)] rethrows a failed request, where the spec
    (section 4.2) lists the lookup of one product by identifier among the
    reads that return null on failure. *)
Theorem getProduct_rethrows (env : string -> option string) (http : Request -> outcome jsval)
    (id : float) (e : js_error) :
  http (request (wcApi env) GET ("/products/" +:+ number_to_string id) JUndefined JUndefined)
    = Rejected e ->
  getProduct env http id = Rejected e.
Proof. intros H. unfold getProduct. by rewrite H. Qed.

(** C14. [getProductBySlug(slug)] resolves to the first product of the
    response, and to [null] when the response is empty, when its body is
    [null] (the [TypeError] of [data[0]] is caught) or when the request
    fails. *)
Theorem getProductBySlug_result (env : string -> option string) (http : Request -> outcome jsval)
    (slug : string) :
  (forall p rest, http (slug_request env slug) = Resolved (JArray (JObject p :: rest)) ->
     getProductBySlug env http slug = Resolved (JObject p)) /\
  (http (slug_request env slug) = Resolved (JArray []) \/
   http (slug_request env slug) = Resolved JNull \/
   (exists e, http (slug_request env slug) = Rejected e) ->
     getProductBySlug env http slug = Resolved JNull).
Proof.
  unfold getProductBySlug, slug_request. split.
  - intros p rest H. by rewrite H.
  - intros [H|[H|[e H]]]; by rewrite H.
Qed.

(** * Witnesses *)

Definition no_env : string -> option string := fun _ => None.

Definition leash_json : jsval :=
  JObject [("id", JNumber (parseFloat "2")); ("name", JString "Leash"); ("price", JString "5.50")].

(** A client with no network. *)
Definition offline (r : Request) : outcome jsval := Rejected NetworkError.

(** A server that knows one product and fails every other request. *)
Definition demo_server (r : Request) : outcome jsval :=
  if String.eqb (req_url r) "https://tu-dominio.com/wp-json/wc/v3/products"
  then Resolved (JArray [leash_json]) else Rejected (HttpError 404).

Lemma getProduct_rethrows_witness :
  getProduct no_env demo_server (parseFloat "7") = Rejected (HttpError 404).
Proof. apply (getProduct_rethrows _ _ _ (HttpError 404)). vm_compute. reflexivity. Defined.

Lemma reads_never_reject_witness :
  getProducts no_env offline JUndefined = Resolved (JArray []) /\
  getProductBySlug no_env offline "leash" = Resolved JNull /\
  getCategories no_env offline = Resolved (JArray []) /\
  getProductVariations no_env offline (parseFloat "2") = Resolved (JArray []).
Proof.
  apply (reads_never_reject no_env offline JUndefined "leash" (parseFloat "2")).
  intros r. exists NetworkError. reflexivity.
Defined.

Lemma getProductBySlug_result_witness :
  getProductBySlug no_env demo_server "leash" =
    Resolved (JObject [("id", JNumber (parseFloat "2")); ("name", JString "Leash");
                       ("price", JString "5.50")]).
Proof.
  apply (proj1 (getProductBySlug_result no_env demo_server "leash") _ []).
  vm_compute. reflexivity.
Defined.

Lemma writes_propagate_witness :
  createOrder no_env offline JNull = Rejected NetworkError /\
  getOrder no_env offline (parseFloat "7") = Rejected NetworkError.
Proof.
  destruct (writes_propagate no_env offline JNull (parseFloat "7") NetworkError) as [H1 H2].
  split; [apply H1|apply H2]; reflexivity.
Defined.
