(* ===== verification/Routes.v ===== *)
(** * The routes of the application (App.tsx:26-35)

    [<Routes>] renders the element of the [<Route>] whose [path] matches
    the location's [pathname].  React Router compiles a path such as
    ["/producto/:slug"] to the regular expression
    [^\/producto\/([^\/]+)\/*$] with the [i] flag: each segment of the
    pattern is one segment of the path after a single [/], a literal
    segment matches case-insensitively, a [:param] segment matches any
    non-empty run of characters other than [/], and the path may end in
    slashes.  [compile_path] and [match_path] are that matcher;
    [resolve] takes the first route of the table that matches.  React
    Router ranks the routes instead of taking the first, and
    [routes_unambiguous] shows that at most one route matches any path,
    so both choose the same element.  Parameter values are not
    URI-decoded here (the pages that read them are not in the
    repository). *)

From S2P Require Import Prelude.

(** ** Paths *)

Definition slash : ascii := "/"%char.

(** ASCII lowercase, the case folding of a regular expression with the
    [i] flag on the characters a path holds. *)
Definition lower_ascii (c : ascii) : ascii :=
  let n := nat_of_ascii c in
  if (65 <=? n)%nat && (n <=? 90)%nat then ascii_of_nat (n + 32) else c.

Fixpoint lower (s : string) : string :=
  match s with
  | EmptyString => EmptyString
  | String c r => String (lower_ascii c) (lower r)
  end.

(** The pieces of [s] between the separators [c]. *)
Fixpoint split_on (c : ascii) (s : string) : list string :=
  match s with
  | EmptyString => [EmptyString]
  | String d r =>
      let pieces := split_on c r in
      if Ascii.eqb d c then EmptyString :: pieces
      else match pieces with
           | p :: ps => String d p :: ps
           | [] => [String d EmptyString]
           end
  end.

Inductive Seg :=
| Lit (text : string)
| Param (name : string).

Definition to_seg (piece : string) : Seg :=
  match piece with
  | String ":"%char name => Param name
  | _ => Lit piece
  end.

(** The segments of a route [path]: the pieces between slashes, leading
    and trailing slashes dropped. *)
Definition compile_path (path : string) : list Seg :=
  map to_seg (List.filter (fun p => negb (String.eqb p EmptyString)) (split_on slash path)).

(** The characters of [s] up to the first [/], and the rest. *)
Fixpoint take_seg (s : string) : string * string :=
  match s with
  | EmptyString => (EmptyString, EmptyString)
  | String c r =>
      if Ascii.eqb c slash then (EmptyString, s)
      else let '(seg, rest) := take_seg r in (String c seg, rest)
  end.

Fixpoint all_slashes (s : string) : bool :=
  match s with
  | EmptyString => true
  | String c r => Ascii.eqb c slash && all_slashes r
  end.

(** [s] against [\/seg1\/seg2...\/*$]: the parameters' values when it
    matches. *)
Fixpoint match_segs (pat : list Seg) (s : string) : option (list (string * string)) :=
  match pat with
  | [] => if all_slashes s then Some [] else None
  | sg :: pat' =>
      match s with
      | String c r =>
          if Ascii.eqb c slash then
            let '(seg, rest) := take_seg r in
            match sg with
            | Lit l => if String.eqb (lower seg) (lower l) then match_segs pat' rest else None
            | Param n =>
                if String.eqb seg EmptyString then None
                else (fun ps => (n, seg) :: ps) <$> match_segs pat' rest
            end
          else None
      | EmptyString => None
      end
  end.

(** The root pattern [/] compiles to [^\/\/*$]: one slash or more. *)
Definition match_path (pat : list Seg) (pathname : string) : option (list (string * string)) :=
  match pat with
  | [] => if negb (String.eqb pathname EmptyString) && all_slashes pathname then Some [] else None
  | _ => match_segs pat pathname
  end.

(** ** The table *)

(** The page components of the [<Route>] elements. *)
Inductive Element :=
| LandingPage
| StorePage
| ProductPage
| CartPage
| CheckoutPage
| AccountPage
| WhatsAppPage
| RoadmapPage.

#[export] Instance Element_eq_dec : EqDecision Element.
Proof. solve_decision. Defined.

(** App.tsx:26-35, in order. *)
Definition routes : list (string * Element) :=
  [("/", LandingPage);
   ("/tienda", StorePage);
   ("/producto/:slug", ProductPage);
   ("/carrito", CartPage);
   ("/checkout", CheckoutPage);
   ("/mi-cuenta", AccountPage);
   ("/whatsapp", WhatsAppPage);
   ("/roadmap", RoadmapPage)].

Fixpoint first_match (rs : list (string * Element)) (pathname : string)
    : option (Element * list (string * string)) :=
  match rs with
  | [] => None
  | (path, el) :: rs' =>
      match match_path (compile_path path) pathname with
      | Some params => Some (el, params)
      | None => first_match rs' pathname
      end
  end.

(** The element [<Routes>] renders for a location, with the route
    parameters; [None] renders nothing in [<main>]. *)
Definition resolve (pathname : string) : option (Element * list (string * string)) :=
  first_match routes pathname.

(** Two patterns that can match one path: of one length, with the same
    literal wherever both have a literal. *)
Fixpoint compatible (p q : list Seg) : bool :=
  match p, q with
  | [], [] => true
  | Lit a :: p', Lit b :: q' => String.eqb (lower a) (lower b) && compatible p' q'
  | _ :: p', _ :: q' => compatible p' q'
  | _, _ => false
  end.

(** A pattern of the table: no empty literal. *)
Definition pattern_ok (p : list Seg) : bool :=
  forallb (fun sg => match sg with Lit l => negb (String.eqb l EmptyString) | Param _ => true end) p.

(** * Lemmas *)

Lemma lower_empty s : lower s = EmptyString -> s = EmptyString.
Proof. by destruct s. Qed.

Lemma take_seg_slashes s : all_slashes s = true -> (take_seg s).1 = EmptyString.
Proof.
  destruct s as [|c r]; [done|]. cbn [all_slashes take_seg].
  intros [->%Ascii.eqb_eq _]%andb_true_iff. by rewrite Ascii.eqb_refl.
Qed.

(** A pattern with a segment needs a non-empty segment, which a run of
    slashes does not have. *)
Lemma match_segs_slashes sg p s :
  pattern_ok (sg :: p) = true -> all_slashes s = true -> match_segs (sg :: p) s = None.
Proof.
  intros Hok Hs. destruct s as [|c r]; [done|]. cbn [match_segs].
  cbn [all_slashes] in Hs. apply andb_true_iff in Hs as [Hc Hr]. rewrite Hc.
  pose proof (take_seg_slashes r Hr) as Hseg. destruct (take_seg r) as [seg rest].
  cbn in Hseg. subst seg. cbn in Hok. apply andb_true_iff in Hok as [Hl _].
  destruct sg as [l|n]; [|done]. destruct (String.eqb_spec (lower EmptyString) (lower l)) as [Hl'|]; [|done].
  apply eq_sym, lower_empty in Hl'. subst l. done.
Qed.

Lemma match_segs_compatible p q s m1 m2 :
  pattern_ok p = true -> pattern_ok q = true ->
  match_segs p s = Some m1 -> match_segs q s = Some m2 -> compatible p q = true.
Proof.
  revert q s m1 m2. induction p as [|sg p IH]; intros q s m1 m2 Hp Hq H1 H2.
  - destruct q as [|sg' q]; [done|]. cbn [match_segs] in H1.
    destruct (all_slashes s) eqn:Hs; [|done]. by rewrite match_segs_slashes in H2.
  - destruct q as [|sg' q].
    + cbn [match_segs] in H2. destruct (all_slashes s) eqn:Hs; [|done].
      by rewrite match_segs_slashes in H1.
    + cbn [pattern_ok forallb] in Hp, Hq. apply andb_true_iff in Hp as [_ Hp].
      apply andb_true_iff in Hq as [_ Hq].
      destruct s as [|c r]; [done|]. cbn [match_segs] in H1, H2.
      destruct (Ascii.eqb c slash); [|done]. destruct (take_seg r) as [seg rest].
      destruct sg as [a|n], sg' as [b|n'];
        repeat match goal with
        | H : context [String.eqb ?x ?y] |- _ => destruct (String.eqb_spec x y); try done
        | H : _ <$> _ = Some _ |- _ => apply fmap_Some in H as (? & ? & ->)
        end; cbn [compatible]; try (apply andb_true_iff; split; [apply String.eqb_eq; congruence|]);
        eauto.
Qed.

Lemma match_path_segs p s m : match_path p s = Some m -> match_segs p s = Some m.
Proof.
  destruct p; [|done]. cbn. destruct (negb _ && all_slashes s) eqn:E; [|done].
  apply andb_true_iff in E as [_ ->]. done.
Qed.

Lemma routes_pattern_ok : Forall (fun r => pattern_ok (compile_path r.1) = true) routes.
Proof. repeat constructor. Qed.

(** The table has no two compatible patterns. *)
Lemma routes_pairwise i j r1 r2 :
  routes !! i = Some r1 -> routes !! j = Some r2 ->
  compatible (compile_path r1.1) (compile_path r2.1) = true -> i = j.
Proof.
  intros Hi Hj. pose proof (lookup_lt_Some _ _ _ Hi) as Hi'.
  pose proof (lookup_lt_Some _ _ _ Hj) as Hj'. cbn in Hi', Hj'.
  destruct i as [|[|[|[|[|[|[|[|i]]]]]]]]; [..|lia];
  destruct j as [|[|[|[|[|[|[|[|j]]]]]]]]; try lia;
  injection Hi as <-; injection Hj as <-; vm_compute; congruence.
Qed.

Lemma take_seg_noslash s : ~ In slash (String.list_ascii_of_string s) -> take_seg s = (s, EmptyString).
Proof.
  induction s as [|c r IH]; [done|]. cbn [String.list_ascii_of_string In take_seg]. intros Hs.
  destruct (Ascii.eqb_spec c slash) as [->|_]; [tauto|]. rewrite IH by tauto. done.
Qed.

(** The first segment of [seg +:+ t] is [seg] when [seg] has no slash
    and [t] is empty or starts a new segment. *)
Lemma take_seg_app seg t :
  ~ In slash (String.list_ascii_of_string seg) -> all_slashes t = true ->
  take_seg (seg +:+ t) = (seg, t).
Proof.
  intros Hs Ht. induction seg as [|c r IH]; cbn [String.list_ascii_of_string In] in *.
  - destruct t as [|c r]; [done|]. cbn [all_slashes] in Ht.
    apply andb_true_iff in Ht as [->%Ascii.eqb_eq _]. by cbn; rewrite ?Ascii.eqb_refl.
  - rewrite string_app_cons. cbn [take_seg]. destruct (Ascii.eqb_spec c slash) as [->|_]; [tauto|].
    rewrite IH by tauto. done.
Qed.

(** A path whose first segment is not empty is not a run of slashes. *)
Lemma all_slashes_first_seg r seg rest :
  take_seg r = (seg, rest) -> seg <> EmptyString -> all_slashes (String slash r) = false.
Proof.
  destruct r as [|c r]; cbn [take_seg]; [by intros [= <- _]|].
  destruct (Ascii.eqb_spec c slash) as [->|Hc]; [by intros [= <- _]|].
  intros _ _. cbn [all_slashes]. rewrite Ascii.eqb_refl. cbn. by apply Ascii.eqb_neq in Hc as ->.
Qed.

(** A path whose first segment differs from a pattern's first literal. *)
Lemma match_segs_head_mismatch l pat r seg rest :
  take_seg r = (seg, rest) -> lower seg <> lower l ->
  match_segs (Lit l :: pat) (String slash r) = None.
Proof.
  intros Hr Hne. cbn [match_segs]. rewrite Ascii.eqb_refl, Hr.
  by destruct (String.eqb_spec (lower seg) (lower l)).
Qed.

(** The table after its root route: patterns that start with a
    lowercase literal. *)
Definition route_heads : list string :=
  ["tienda"; "producto"; "carrito"; "checkout"; "mi-cuenta"; "whatsapp"; "roadmap"].

Lemma routes_heads :
  Forall (fun r => exists l pat, compile_path r.1 = Lit l :: pat /\ lower l = l /\ l ∈ route_heads)
         (tail routes).
Proof.
  repeat constructor; do 2 eexists; (split; [reflexivity|]); (split; [reflexivity|]);
    apply list_elem_of_In; cbn; tauto.
Qed.

(** The root route does not match a path with a first segment. *)
Lemma match_root_first_seg r seg rest :
  take_seg r = (seg, rest) -> seg <> EmptyString ->
  match_path (compile_path "/") (String slash r) = None.
Proof. intros Hr Hne. change (compile_path "/") with (@nil Seg). cbn [match_path]. by rewrite (all_slashes_first_seg r seg rest Hr Hne), andb_false_r. Qed.

Ltac compute_pattern :=
  match goal with
  | |- context [compile_path ?p] => let c := eval vm_compute in (compile_path p) in
                                    change (compile_path p) with c
  end.

Lemma first_match_none rs s :
  Forall (fun r => match_path (compile_path r.1) s = None) rs -> first_match rs s = None.
Proof. induction 1 as [|[p el] rs Hr _ IH]; [done|]. cbn [fst] in Hr. cbn [first_match]. by rewrite Hr. Qed.

(** ** Theorems *)

(** C22. The route table is unambiguous: no path matches two routes of
    App.tsx, literal segments compared case-insensitively as React Router
    does.  So the element [<Routes>] renders does not depend on how React
    Router ranks the routes: [resolve], the first match, is the only
    one. *)
Theorem routes_unambiguous (s : string) (i j : nat) (r1 r2 : string * Element)
    (m1 m2 : list (string * string)) :
  routes !! i = Some r1 -> routes !! j = Some r2 ->
  match_path (compile_path r1.1) s = Some m1 -> match_path (compile_path r2.1) s = Some m2 ->
  i = j.
Proof.
  intros Hi Hj H1 H2. apply (routes_pairwise i j r1 r2 Hi Hj).
  pose proof (proj1 (Forall_lookup _ _) routes_pattern_ok) as Hok.
  apply (match_segs_compatible _ _ s m1 m2); eauto using match_path_segs.
Qed.

(** C23. A product path resolves to the product page with its slug: for
    every non-empty [slug] without [/], [/producto/slug] renders
    [ProductPage] with the parameter [slug]. *)
Theorem resolve_product (slug : string) :
  slug <> EmptyString -> ~ In slash (String.list_ascii_of_string slug) ->
  resolve ("/producto/" +:+ slug) = Some (ProductPage, [("slug", slug)]).
Proof.
  intros Hne Hs. unfold resolve. simpl. rewrite take_seg_noslash by done.
  change (EmptyString +:+ slug) with slug.
  destruct (String.eqb_spec slug EmptyString); [done|]. reflexivity.
Qed.

(** C24. There is no catch-all route: a path whose first segment is
    none of the table's literals (compared case-insensitively), and a
    product path without a slug ([/producto] followed only by slashes),
    match no route, so [<Routes>] renders nothing inside [<main>]. *)
Theorem resolve_unmatched (r seg rest t : string) :
  (take_seg r = (seg, rest) -> seg <> EmptyString -> lower seg ∉ route_heads ->
   resolve (String slash r) = None) /\
  (all_slashes t = true -> resolve ("/producto" +:+ t) = None).
Proof.
  split.
  - intros Hr Hne Hout. apply first_match_none. constructor; [exact (match_root_first_seg _ _ _ Hr Hne)|].
    eapply Forall_impl; [exact routes_heads|]. intros [p el] (l & pat & Hp & Hl & Hin).
    cbn [fst] in *. rewrite Hp. apply (match_segs_head_mismatch _ _ _ _ _ Hr).
    rewrite Hl. intros Heq. apply Hout. by rewrite Heq.
  - intros Ht. change ("/producto" +:+ t) with (String slash ("producto" +:+ t)).
    pose proof (take_seg_app "producto" t ltac:(cbn; intuition discriminate) Ht) as Hr.
    apply first_match_none. constructor; [exact (match_root_first_seg _ _ _ Hr ltac:(discriminate))|].
    cbn [routes tail]. repeat constructor; cbn [fst]; compute_pattern;
      try (apply (match_segs_head_mismatch _ _ _ _ _ Hr); vm_compute; discriminate).
    cbn [match_path match_segs]. rewrite Ascii.eqb_refl, Hr. cbn [lower lower_ascii].
    rewrite String.eqb_refl. destruct t as [|c t']; [done|]. cbn [all_slashes] in Ht.
    apply andb_true_iff in Ht as [Hc Ht']. cbn [match_segs]. rewrite Hc.
    pose proof (take_seg_slashes t' Ht') as Hseg. destruct (take_seg t') as [seg' rest'].
    cbn in Hseg. by subst seg'.
Qed.

(** * Witnesses *)

Lemma routes_unambiguous_witness :
  match_path (compile_path "/tienda") "/Tienda/" = Some [] /\ (1 = 1)%nat.
Proof.
  split; [reflexivity|].
  apply (routes_unambiguous "/Tienda/" 1 1 ("/tienda", StorePage) ("/tienda", StorePage) [] []);
    reflexivity.
Defined.

Lemma resolve_product_witness :
  resolve ("/producto/" +:+ "kibble-5kg") = Some (ProductPage, [("slug", "kibble-5kg")]).
Proof.
  apply resolve_product; [discriminate|]. vm_compute. intuition discriminate.
Defined.

Lemma resolve_unmatched_witness : resolve "/Tiendas/" = None /\ resolve "/producto//" = None.
Proof.
  destruct (resolve_unmatched "Tiendas/" "Tiendas" "/" "//") as [H1 H2]. split.
  - apply H1; [reflexivity|discriminate|]. apply (bool_decide_unpack _). vm_compute. reflexivity.
  - apply H2. reflexivity.
Defined.
