(* ===== verification/Header.v ===== *)
(** * The header (Header.tsx)

    [Header] is a function of its props [isMenuOpen] and [setIsMenuOpen]
    and of the [cart] of its own [useCart()] instance (Header.tsx:12).  Its
    rendering is modelled by what a user can see and click: the links in
    document order with the page each one goes to and whether its
    [onClick] closes the mobile menu, the cart badge, and the icon of the
    menu button.  The markup and the class names are not modelled. *)

From S2P Require Import Prelude JsNumber Json CartModel Routes.

(** A [<Link>]: its [to], its text, and whether its [onClick] is
    [() => setIsMenuOpen(false)]. *)
Record HeaderLink := mkLink {
  to : string;
  label : string;
  closes_menu : bool
}.

#[export] Instance HeaderLink_eq_dec : EqDecision HeaderLink.
Proof. solve_decision. Defined.

Inductive Icon := MenuIcon | XIcon.

(** The four navigation entries, in the order of Header.tsx:26-37 and
    Header.tsx:73-100. *)
Definition nav_entries : list (string * string) :=
  [("/", "Inicio"); ("/tienda", "Tienda"); ("/whatsapp", "Consultar IA"); ("/roadmap", "Roadmap")].

(** The logo (Header.tsx:19-22). *)
Definition logo_link : HeaderLink := mkLink "/" "AFPets" false.

(** The desktop navigation (Header.tsx:25-38): no [onClick]. *)
Definition desktop_links : list HeaderLink :=
  map (fun e => mkLink e.1 e.2 false) nav_entries.

(** The cart icon (Header.tsx:46-56): no [onClick]. *)
Definition cart_link : HeaderLink := mkLink "/carrito" EmptyString false.

(** The mobile navigation (Header.tsx:70-103): each link closes the menu. *)
Definition mobile_links : list HeaderLink :=
  map (fun e => mkLink e.1 e.2 true) nav_entries.

(** [{cart.item_count > 0 && <span>{cart.item_count}</span>}]
    (Header.tsx:51-55): React renders the number as [String(n)]; [false]
    renders nothing.  A NaN count is not [> 0]. *)
Definition badge (cart : Cart.t) : option string :=
  if PrimFloat.ltb js_zero (Cart.item_count cart) then Some (number_to_string (Cart.item_count cart))
  else None.

Record View := mkView {
  links : list HeaderLink;
  cart_badge : option string;
  toggle_icon : Icon
}.

(** The rendered header; the mobile navigation exists only while the menu
    is open (Header.tsx:70), the button shows [X] then (Header.tsx:63). *)
Definition render (isMenuOpen : bool) (cart : Cart.t) : View :=
  mkView ([logo_link] ++ desktop_links ++ [cart_link] ++ (if isMenuOpen then mobile_links else []))
         (badge cart) (if isMenuOpen then XIcon else MenuIcon).

(** The menu button's [onClick={() => setIsMenuOpen(!isMenuOpen)}]
    (Header.tsx:61). *)
Definition toggle (isMenuOpen : bool) : bool := negb isMenuOpen.

(** A click on a link: the location it goes to and the menu state after
    its [onClick]. *)
Definition click (l : HeaderLink) (isMenuOpen : bool) : string * bool :=
  (to l, if closes_menu l then false else isMenuOpen).

(** * Lemmas *)

Lemma render_links_cases isMenuOpen cart l :
  l ∈ links (render isMenuOpen cart) ->
  l = logo_link \/ l ∈ desktop_links \/ l = cart_link \/ (isMenuOpen = true /\ l ∈ mobile_links).
Proof.
  cbn [render links]. rewrite !elem_of_app, !list_elem_of_singleton.
  destruct isMenuOpen; [tauto|]. intros [|[|[|Hn%elem_of_nil]]]; tauto.
Qed.

Lemma entry_links_targets (b : bool) l :
  l ∈ map (fun e => mkLink e.1 e.2 b) nav_entries -> to l ∈ map fst nav_entries.
Proof.
  intros (e & -> & He)%list_elem_of_fmap. apply list_elem_of_fmap. by exists e.
Qed.

Lemma entry_links_closes (b : bool) l :
  l ∈ map (fun e => mkLink e.1 e.2 b) nav_entries -> closes_menu l = b.
Proof. by intros (e & -> & _)%list_elem_of_fmap. Qed.

(** * Theorems *)

(** C25. Every link the header renders goes to a page: whether the menu
    is open or not and whatever the cart, the [to] of each rendered
    [<Link>] is a path the route table of App.tsx resolves. *)
Theorem header_links_resolve (isMenuOpen : bool) (cart : Cart.t) (l : HeaderLink) :
  l ∈ links (render isMenuOpen cart) -> is_Some (resolve (to l)).
Proof.
  intros Hl. assert (Forall (fun p => is_Some (resolve p)) ("/carrito" :: map fst nav_entries))
    as Hall by (repeat constructor; eexists; vm_compute; reflexivity).
  apply Forall_cons in Hall as [Hcart Hnav].
  apply render_links_cases in Hl as [->|[Hl|[->|[_ Hl]]]]; try done;
    apply (proj1 (Forall_forall _ _) Hnav); by eapply entry_links_targets.
Qed.

(** C26. The cart icon and the logo do not close the mobile menu: on a
    phone with the menu open, following the cart link goes to the cart
    page and leaves the menu open over it, where the four mobile links
    close it. *)
Theorem click_menu_state (l : HeaderLink) (cart : Cart.t) :
  l ∈ links (render true cart) ->
  (click l true).2 = false <-> l ∈ mobile_links.
Proof.
  intros Hl. unfold click. cbn [snd]. split.
  - destruct (closes_menu l) eqn:Hc; [intros _|done].
    apply render_links_cases in Hl as [->|[Hl|[->|[_ Hl]]]]; try done.
    by rewrite (entry_links_closes false l Hl) in Hc.
  - intros Hm. by rewrite (entry_links_closes true l Hm).
Qed.

(** * Witnesses *)

Lemma header_links_resolve_witness : is_Some (resolve (to cart_link)).
Proof.
  apply (header_links_resolve false empty_cart). apply list_elem_of_In. cbn. tauto.
Defined.

Lemma click_menu_state_witness :
  (click cart_link true).2 = false <-> cart_link ∈ mobile_links.
Proof.
  apply (click_menu_state cart_link empty_cart). apply list_elem_of_In. cbn. tauto.
Defined.
