(* ===== verification/App.v ===== *)
(** * The application shell (App.tsx) and its [useCart] instances

    [App] holds [isMenuOpen] ([useState(false)], App.tsx:18) and renders
    [Header] above the [<Routes>] of App.tsx:26-35.  [Header] calls
    [useCart()] itself, so the header and each page that calls
    [useCart()] have their own hook instance: their own React state
    [cart], over the one [localStorage].  An instance reads the storage
    when it mounts ([useState(() => getCartFromStorage())] and the mount
    effect, useCart.ts:6 and 69-71, which read the same storage) and
    then changes only through its own handlers.  [Header] sits outside
    [<Routes>], so it mounts once with [App]; the routed page remounts when
    a navigation changes the element [<Routes>] renders, and keeps its
    state when the element stays (from one product slug to another).

    The pages are not in the repository; which of them call [useCart()] is
    the parameter [uses_cart] of the section, and the theorems hold for
    every choice.  A [Shell] is the state of a mounted application; a
    mount or a navigation can fail: [getCartFromStorage] throws a
    [SyntaxError] on a corrupt entry, which unmounts the tree, and a
    stored value that parses but is not a [Cart] is outside the typed
    model ([Untyped]). *)

From S2P Require Import Prelude JsNumber Json JsonParse JsonRoundtrip CartModel WooCommerceCart Rehydrate UseCart Routes Header.

(** The result of rendering: the mounted state, a crash, or a hook state
    outside the model. *)
Inductive boot (A : Type) :=
| Up (a : A)
| Crash (e : js_error)
| Untyped.
Arguments Up {A} a.
Arguments Crash {A} e.
Arguments Untyped {A}.

Definition boot_bind {A B} (m : boot A) (f : A -> boot B) : boot B :=
  match m with
  | Up a => f a
  | Crash e => Crash e
  | Untyped => Untyped
  end.

Notation "x <-- m ; k" := (boot_bind m (fun x => k))
  (at level 100, m at next level, right associativity) : js_scope.

Local Open Scope js_scope.

Record Shell := mkShell {
  isMenuOpen : bool;
  location : string;
  header_cart : Cart.t;
  page_cart : option Cart.t;
  store : LocalStorage.t
}.

(** A hook instance mounting over [ls]. *)
Definition mount_hook (ls : LocalStorage.t) : boot Cart.t :=
  match load_state ls with
  | Resolved (Some c) => Up c
  | Resolved None => Untyped
  | Rejected e => Crash e
  end.

(** The element rendered at a location. *)
Definition element_of (pathname : string) : option Element := fst <$> resolve pathname.

(** What a user does: the menu button, a link of the header, another
    navigation (a link of a page, the browser's back button), a handler
    call of the routed page's hook instance. *)
Inductive Event :=
| ToggleMenu
| ClickLink (l : HeaderLink)
| Navigate (pathname : string)
| PageCall (c : Call).

Section Shell.
Variable uses_cart : Element -> bool.

(** The hook state of the page rendered at [pathname], mounting over [ls]. *)
Definition mount_page (pathname : string) (ls : LocalStorage.t) : boot (option Cart.t) :=
  match element_of pathname with
  | Some el => if uses_cart el then c <-- mount_hook ls; Up (Some c) else Up None
  | None => Up None
  end.

(** [App] mounting at [pathname]: [Header]'s instance, then the page's. *)
Definition app_mount (pathname : string) (ls : LocalStorage.t) : boot Shell :=
  h <-- mount_hook ls;
  p <-- mount_page pathname ls;
  Up (mkShell false pathname h p ls).

(** A navigation: [<Routes>] keeps the page when the element stays and
    remounts it otherwise; [Header] stays mounted. *)
Definition navigate (pathname : string) (s : Shell) : boot Shell :=
  if decide (element_of pathname = element_of (location s)) then
    Up (mkShell (isMenuOpen s) pathname (header_cart s) (page_cart s) (store s))
  else
    p <-- mount_page pathname (store s);
    Up (mkShell (isMenuOpen s) pathname (header_cart s) p (store s)).

Definition step (ev : Event) (s : Shell) : boot Shell :=
  match ev with
  | ToggleMenu =>
      Up (mkShell (toggle (isMenuOpen s)) (location s) (header_cart s) (page_cart s) (store s))
  | ClickLink l =>
      if decide (l ∈ links (render (isMenuOpen s) (header_cart s))) then
        let '(path, open) := click l (isMenuOpen s) in
        navigate path (mkShell open (location s) (header_cart s) (page_cart s) (store s))
      else Up s
  | Navigate p => navigate p s
  | PageCall c =>
      match page_cart s with
      | Some pc =>
          let w := (handle c (mkWorld pc (store s))).1 in
          Up (mkShell (isMenuOpen s) (location s) (header_cart s) (Some (cart w)) (storage w))
      | None => Up s
      end
  end.

Fixpoint run_app (evs : list Event) (s : Shell) : boot Shell :=
  match evs with
  | [] => Up s
  | ev :: evs' => s' <-- step ev s; run_app evs' s'
  end.

(** The routed page's instance shows what a remount would read. *)
Definition synced (s : Shell) : Prop :=
  match page_cart s with Some pc => mount_hook (store s) = Up pc | None => True end.

(** An event after which the page's instance can stay in sync: a call of
    the page that is not a merge whose write fails, and whose resolved
    cart survives JSON. *)
Definition step_ok (ev : Event) (s : Shell) : bool :=
  match ev, page_cart s with
  | PageCall c, Some pc =>
      let w := mkWorld pc (store s) in
      let '(w', r) := handle c w in
      negb (merges c w && rejected r) &&
      (rejected r || (json_wf (Cart.to_json (cart w')) && json_numbers_ok (Cart.to_json (cart w')) &&
                      cart_plain (cart w')))
  | _, _ => true
  end.

Fixpoint session_ok (evs : list Event) (s : Shell) : bool :=
  match evs with
  | [] => true
  | ev :: evs' => step_ok ev s && match step ev s with Up s' => session_ok evs' s' | _ => true end
  end.

End Shell.

(** * Lemmas *)

Section ShellLemmas.
Variable uses_cart : Element -> bool.

Lemma boot_bind_Up {A B} (m : boot A) (f : A -> boot B) b :
  boot_bind m f = Up b -> exists a, m = Up a /\ f a = Up b.
Proof. destruct m; cbn; [eauto|discriminate..]. Qed.

(** A navigation moves to its location and changes neither the header's
    instance nor the storage. *)
Lemma navigate_frame p s s' :
  navigate uses_cart p s = Up s' ->
  header_cart s' = header_cart s /\ store s' = store s /\ location s' = p.
Proof.
  unfold navigate. case_decide; [by intros [= <-]|].
  intros (pc & _ & [= <-])%boot_bind_Up. done.
Qed.

Lemma step_header ev s s' : step uses_cart ev s = Up s' -> header_cart s' = header_cart s.
Proof.
  destruct ev as [|l|p|c]; cbn [step].
  - by intros [= <-].
  - case_decide; [|by intros [= <-]]. destruct (click l _) as [path open].
    by intros [-> _]%navigate_frame.
  - by intros [-> _]%navigate_frame.
  - destruct (page_cart s); by intros [= <-].
Qed.

(** A mount that reads a cart gives every page its instance. *)
Lemma mount_page_up p ls c :
  mount_hook ls = Up c ->
  exists pc, mount_page uses_cart p ls = Up pc /\
    (forall el, element_of p = Some el -> uses_cart el = true -> pc = Some c).
Proof.
  intros Hm. unfold mount_page. destruct (element_of p) as [el|]; [|exists None; by split].
  destruct (uses_cart el) eqn:Hu; cbn; [rewrite Hm; exists (Some c)|exists None];
    split; try done; intros el' [= <-]; congruence.
Qed.

(** A handler that resolved wrote the cart it set: the new state and the
    new storage are what [updateCart] resolved to. *)
Lemma handle_resolved_updateCart c w w' :
  handle c w = (w', Resolved tt) ->
  exists items, updateCart items (storage w) = Resolved (cart w', storage w').
Proof.
  destruct (handle_commit c w) as (w0 & items & -> & Hs0 & _). intros H.
  destruct (commit_inv _ _ _ _ H) as [(_ & Hc & Hs)|(e & ? & _)]; [|congruence].
  exists items. unfold updateCart. rewrite <- Hs0, Hs, Hc. done.
Qed.

(** A handler that resolved leaves a storage a remount reads back as the
    new state, when that state survives JSON. *)
Lemma handle_resolved_reload c w w' :
  handle c w = (w', Resolved tt) ->
  json_wf (Cart.to_json (cart w')) = true -> json_numbers_ok (Cart.to_json (cart w')) = true ->
  cart_plain (cart w') = true -> mount_hook (storage w') = Up (cart w').
Proof.
  intros Hh Hwf Hnum Hplain. destruct (handle_resolved_updateCart _ _ _ Hh) as [items Hup].
  unfold mount_hook, load_state.
  rewrite (getCartFromStorage_after_updateCart items _ _ _ Hup Hwf Hnum).
  by rewrite cart_roundtrip.
Qed.


(** A handler that is not a merge and whose write fails changes nothing. *)
Lemma handle_rejected_nomerge c w w' e :
  handle c w = (w', Rejected e) -> merges c w = false -> w' = w.
Proof.
  destruct (handle_commit c w) as (w0 & items & -> & _ & H0 & _). intros H Hm.
  destruct (commit_inv _ _ _ _ H) as [(? & _)|(e' & _ & -> & _)]; [congruence|]. by apply H0.
Qed.

Lemma mount_page_synced p ls pc c :
  mount_page uses_cart p ls = Up pc -> pc = Some c -> mount_hook ls = Up c.
Proof.
  unfold mount_page. destruct (element_of p) as [el|]; [|by intros [= <-]].
  destruct (uses_cart el); [|by intros [= <-]].
  destruct (mount_hook ls); cbn; by intros [= <-] [= ->].
Qed.

Lemma navigate_synced p s s' :
  synced s -> navigate uses_cart p s = Up s' -> synced s'.
Proof.
  unfold navigate, synced. case_decide; [by intros ? [= <-]|].
  intros _ (pc & Hpc & [= <-])%boot_bind_Up. cbn. destruct pc as [c|]; [|done].
  by eapply mount_page_synced.
Qed.

Lemma step_synced ev s s' :
  synced s -> step_ok ev s = true -> step uses_cart ev s = Up s' -> synced s'.
Proof.
  intros Hs Hok. destruct ev as [|l|p|c]; cbn [step].
  - by intros [= <-].
  - case_decide; [|by intros [= <-]]. destruct (click l _) as [path open].
    by apply navigate_synced.
  - by apply navigate_synced.
  - unfold step_ok in Hok. destruct (page_cart s) as [pc|] eqn:Hpc; [|by intros [= <-]].
    destruct (handle c _) as [w' r] eqn:Hh. intros [= <-]. unfold synced. cbn.
    apply andb_true_iff in Hok as [Hm Hok].
    destruct r as [[]|e].
    + cbn [rejected orb] in Hok. apply andb_true_iff in Hok as [Hok Hplain].
      apply andb_true_iff in Hok as [Hwf Hnum]. exact (handle_resolved_reload c _ w' Hh Hwf Hnum Hplain).
    + rewrite andb_true_r in Hm. apply negb_true_iff in Hm.
      rewrite (handle_rejected_nomerge _ _ _ _ Hh Hm). unfold synced in Hs. by rewrite Hpc in Hs.
Qed.

End ShellLemmas.

(** * Theorems *)

(** C27. The header's badge never follows the cart: [Header]'s instance
    is mounted once with [App] and no event changes its state, so
    whatever the pages do to the cart and wherever the user navigates,
    the header shows the cart read at start-up. *)
Theorem run_app_header_frozen (uses_cart : Element -> bool) (evs : list Event) (s s' : Shell) :
  run_app uses_cart evs s = Up s' -> header_cart s' = header_cart s.
Proof.
  revert s. induction evs as [|ev evs IH]; intros s; cbn [run_app]; [by intros [= <-]|].
  intros (s1 & Hs1%step_header & Hrun)%boot_bind_Up. rewrite (IH s1 Hrun). done.
Qed.

(** C28. The header's badge is stale after an add: with a product page
    that calls [useCart()], starting on the landing page with an empty
    storage, opening a product and adding it resolves and stores a cart
    with one item, which a new instance would show as the badge [1]; the
    header still shows no badge.  The spec's data flow has the UI
    re-render with the updated cart. *)
Theorem badge_stale (uses_cart : Element -> bool) :
  uses_cart ProductPage = true ->
  exists s', (s <-- app_mount uses_cart "/" browser_storage;
              run_app uses_cart [Navigate "/producto/correa"; PageCall (AddToCart leash None JUndefined t0)] s)
             = Up s' /\
    cart_badge (render (isMenuOpen s') (header_cart s')) = None /\
    exists c, page_cart s' = Some c /\ mount_hook (store s') = Up c /\ badge c = Some "1".
Proof.
  intros Hu. unfold app_mount.
  assert (mount_hook browser_storage = Up empty_cart) as Hm by (vm_compute; reflexivity).
  rewrite Hm. cbn [boot_bind].
  destruct (mount_page_up uses_cart "/" _ _ Hm) as (p0 & -> & _). cbn [boot_bind run_app step].
  unfold navigate. cbn [location]. rewrite decide_False by (vm_compute; discriminate).
  unfold mount_page. replace (element_of "/producto/correa") with (Some ProductPage)
    by (vm_compute; reflexivity).
  rewrite Hu. cbn [store]. rewrite Hm. cbn [boot_bind step page_cart].
  eexists; split; [reflexivity|]. cbn [isMenuOpen header_cart page_cart store].
  split; [vm_compute; reflexivity|]. eexists; split; [reflexivity|].
  split; vm_compute; reflexivity.
Qed.

(** C29. Leaving a page and coming back shows the stored cart: from any
    state, navigating to a location with another element and back to a
    page that calls [useCart()] remounts its instance, which reads the
    storage. *)
Theorem remount_resyncs (uses_cart : Element -> bool) (s : Shell) (p q : string) (el : Element)
    (c : Cart.t) :
  element_of p = Some el -> uses_cart el = true -> element_of q <> element_of p ->
  mount_hook (store s) = Up c ->
  exists s', run_app uses_cart [Navigate q; Navigate p] s = Up s' /\
             page_cart s' = Some c /\ location s' = p /\ store s' = store s.
Proof.
  intros Hel Hu Hqp Hm. cbn [run_app step].
  assert (exists s1, navigate uses_cart q s = Up s1) as [s1 Hs1].
  { unfold navigate. case_decide; [by eexists|].
    destruct (mount_page_up uses_cart q _ _ Hm) as (pc & -> & _). by eexists. }
  rewrite Hs1. cbn [boot_bind]. destruct (navigate_frame _ _ _ _ Hs1) as (_ & Hst & Hloc).
  unfold navigate. rewrite Hloc, decide_False by congruence. rewrite Hst.
  destruct (mount_page_up uses_cart p _ _ Hm) as (pc & -> & Hpc). cbn.
  eexists; split_and!; [reflexivity|by eapply Hpc|done|done].
Qed.

(** C30. The routed page's instance agrees with the storage after each
    resolved call: when a handler of the page's [useCart()] resolves, a
    remount would read back exactly the cart the instance now shows,
    when that cart's values survive JSON. *)
Theorem page_call_persisted (uses_cart : Element -> bool) (s : Shell) (c : Call) (pc : Cart.t)
    (w' : World) :
  page_cart s = Some pc -> handle c (mkWorld pc (store s)) = (w', Resolved tt) ->
  json_wf (Cart.to_json (cart w')) = true -> json_numbers_ok (Cart.to_json (cart w')) = true ->
  cart_plain (cart w') = true ->
  exists s', step uses_cart (PageCall c) s = Up s' /\ page_cart s' = Some (cart w') /\
             mount_hook (store s') = Up (cart w').
Proof.
  intros Hpc Hh Hwf Hnum Hplain. cbn [step]. rewrite Hpc, Hh. cbn [fst].
  eexists; split_and!; [reflexivity|done|]. exact (handle_resolved_reload c _ w' Hh Hwf Hnum Hplain).
Qed.


(** C32. A NaN quantity does not survive a reload as a [Cart]: after
    [updateQuantity(key, NaN)] resolves on a present key, the stored text
    has [null] for the aggregates (NaN is not JSON), so a new instance
    mounts with a value that is not of type [Cart]: its [item_count] is
    not a number.  The hypotheses say the rest of the cart is JSON. *)
Theorem nan_reload_untyped (w w' : World) (k : string) :
  k ∈ map CartItem.key (Cart.items (cart w)) ->
  updateQuantity k PrimFloat.nan w = (w', Resolved tt) ->
  json_wf (Cart.to_json (cart w')) = true -> json_numbers_ok (Cart.to_json (cart w')) = true ->
  mount_hook (storage w') = Untyped.
Proof.
  intros Hk H Hwf Hnum.
  destruct (handle_resolved_updateCart (UpdateQuantity k PrimFloat.nan) w w' H) as [items Hup].
  unfold mount_hook, load_state. rewrite (getCartFromStorage_after_updateCart items _ _ _ Hup Hwf Hnum).
  rewrite cart_of_json_nan_count; [done|done|].
  unfold updateQuantity in H. change (PrimFloat.nan <= js_zero)%js with false in H.
  destruct (commit_outcome _ _ _ _ H) as [(_ & ->)|[? _]]; [|congruence].
  by apply update_nan_aggregates.
Qed.

(** C34. Along every session of the application the routed page's
    instance agrees with the storage: from a state where a remount would
    read the page's cart, after any events in which no call of the page
    is a merge whose write fails and every resolved cart survives JSON,
    a remount still reads exactly the page's cart.  (A failed merge
    breaks this, C20.) *)
Theorem run_app_synced (uses_cart : Element -> bool) (evs : list Event) (s s' : Shell) :
  synced s -> session_ok uses_cart evs s = true -> run_app uses_cart evs s = Up s' -> synced s'.
Proof.
  revert s. induction evs as [|ev evs IH]; intros s Hs; cbn [session_ok run_app]; [by intros _ [= <-]|].
  intros [Hok Hrest]%andb_true_iff (s1 & Hs1 & Hrun)%boot_bind_Up. rewrite Hs1 in Hrest.
  exact (IH s1 (step_synced _ _ _ _ Hs Hok Hs1) Hrest Hrun).
Qed.

(** * Witnesses *)

(** A choice of the pages that call [useCart()]. *)
Definition demo_uses_cart (el : Element) : bool :=
  match el with ProductPage | CartPage | CheckoutPage => true | _ => false end.

Definition start_shell : Shell :=
  match app_mount demo_uses_cart "/" browser_storage with
  | Up s => s
  | _ => mkShell false "/" empty_cart None browser_storage
  end.

Definition add_leash : Call := AddToCart leash None JUndefined t0.

Definition demo_events : list Event :=
  [Navigate "/producto/correa"; PageCall add_leash; ToggleMenu; ClickLink cart_link;
   PageCall (UpdateQuantity "2-1736380000000" (parseFloat "3"))].

Definition shell_after (evs : list Event) : Shell :=
  match run_app demo_uses_cart evs start_shell with Up s => s | _ => start_shell end.

Lemma run_app_header_frozen_witness :
  header_cart (shell_after demo_events) = header_cart start_shell.
Proof. apply (run_app_header_frozen demo_uses_cart demo_events). vm_compute. reflexivity. Defined.

Lemma badge_stale_witness :
  exists s', (s <-- app_mount demo_uses_cart "/" browser_storage;
              run_app demo_uses_cart [Navigate "/producto/correa"; PageCall add_leash] s) = Up s' /\
    cart_badge (render (isMenuOpen s') (header_cart s')) = None /\
    exists c, page_cart s' = Some c /\ mount_hook (store s') = Up c /\ badge c = Some "1".
Proof. apply (badge_stale demo_uses_cart). reflexivity. Defined.

Definition stored_cart (s : Shell) : Cart.t :=
  match mount_hook (store s) with Up c => c | _ => empty_cart end.

Lemma remount_resyncs_witness :
  exists s', run_app demo_uses_cart [Navigate "/tienda"; Navigate "/producto/correa"]
               (shell_after demo_events) = Up s' /\
    page_cart s' = Some (stored_cart (shell_after demo_events)) /\ location s' = "/producto/correa" /\
    store s' = store (shell_after demo_events).
Proof.
  apply (remount_resyncs demo_uses_cart _ _ _ ProductPage); vm_compute; [reflexivity..|discriminate|reflexivity].
Defined.

Lemma page_call_persisted_witness :
  let s := shell_after [Navigate "/producto/correa"] in
  let w' := (handle add_leash (mkWorld empty_cart (store s))).1 in
  exists s', step demo_uses_cart (PageCall add_leash) s = Up s' /\ page_cart s' = Some (cart w') /\
             mount_hook (store s') = Up (cart w').
Proof.
  intros s w'. apply (page_call_persisted demo_uses_cart s add_leash empty_cart w'); vm_compute; reflexivity.
Defined.

Lemma run_app_synced_witness : synced (shell_after demo_events).
Proof.
  apply (run_app_synced demo_uses_cart demo_events start_shell); [|vm_compute; reflexivity..].
  unfold synced. vm_compute. exact I.
Defined.


Lemma nan_reload_untyped_witness :
  mount_hook (storage (updateQuantity "1-1736380000000" PrimFloat.nan one_line_world).1) = Untyped.
Proof.
  apply (nan_reload_untyped one_line_world _ "1-1736380000000"); vm_compute; [left|reflexivity..].
Defined.
